(** * Smart surveillance: alert pipeline and biometric fusion

    A shallow embedding of [app/services/alert_service.py],
    [app/services/biometric_service.py] and the biometric endpoints of
    [app/api/v1/biometric.py], with the properties the specification states
    about them.

    Conventions.
    - A [datetime] is an integer number of microseconds (the resolution of
      Python's [datetime]); a [timedelta] is a difference of two of them.
      Every operation that reads [datetime.utcnow()] takes the reading as
      its argument [now].
    - A Python [float] is an exact rational ([Q]); [timedelta.total_seconds]
      is the microsecond count over 10^6.
    - A [dict] used as a keyed store is a [gmap]; the template caches, whose
      iteration order decides which user a search returns, are insertion
      ordered association lists.
    - A result [dict] is a record whose optional keys are [option]s. *)

From stdpp Require Import gmap strings list fin_maps pretty sorting.
From Stdlib Require Import QArith Qabs Lqa.

Local Open Scope string_scope.
Local Open Scope Z_scope.

(** ** Configuration ([app/core/config.py]) *)

Record Settings := mkSettings {
  FACE_RECOGNITION_TOLERANCE : Q;
  IRIS_RECOGNITION_ENABLED : bool;
  ALERT_COOLDOWN : Z;
  EMAIL_ENABLED : bool;
  SMS_ENABLED : bool;
  WEBHOOK_URL : option string
}.

(** The values of [Settings()] when the environment overrides nothing. *)
Definition default_settings : Settings :=
  {| FACE_RECOGNITION_TOLERANCE := 6 # 10;
     IRIS_RECOGNITION_ENABLED := true;
     ALERT_COOLDOWN := 60;
     EMAIL_ENABLED := false;
     SMS_ENABLED := false;
     WEBHOOK_URL := None |}.

(** ** Time *)

Definition timedelta_seconds (n : Z) : Z := n * 1000000.
Definition timedelta_days (n : Z) : Z := n * 86400 * 1000000.
Definition total_seconds (d : Z) : Q := d # 1000000.

(** ** Python helpers *)

(** [str(x)] for an optional integer and an optional string, as an
    f-string formats them. *)
Definition str_int (x : option Z) : string :=
  match x with Some z => pretty z | None => "None" end.

Definition str_str (x : option string) : string :=
  match x with Some s => s | None => "None" end.

(** Truthiness of a string and of a float. *)
Definition truthy_str (s : string) : bool :=
  match s with EmptyString => false | _ => true end.

Definition truthy_float (q : Q) : bool := negb (Z.eqb (Qnum q) 0).

Definition Qgeb (a b : Q) : bool := Qle_bool b a.
Definition Qgtb (a b : Q) : bool := negb (Qle_bool a b).

(** [max(values)] of a non-empty sequence of floats. *)
Definition Qmaxb (a b : Q) : Q := if Qgtb b a then b else a.
Definition max_values (x : Q) (xs : list Q) : Q := fold_left Qmaxb xs x.

Module AlertService.

(** ** The alert record *)

(** Modelled from the spec: [app/models/alert.py] is not among the sources.
    The attributes are those the spec's data model lists (and the response
    model of [app/api/v1/alerts.py] repeats); a newly constructed alert has
    [status = "active"], [created_at] the construction time, no
    acknowledging actor, no acknowledgement or resolution time, no response
    time and all delivery flags unset.  Structured payloads are kept as
    opaque text. *)
Record Alert := mkAlert {
  id : option Z;
  alert_type : string;
  severity : string;
  status : string;
  title : string;
  description : option string;
  camera_id : option Z;
  location : option string;
  coordinates : option string;
  detected_objects : option string;
  biometric_data : option string;
  ai_analysis : option string;
  image_path : option string;
  video_path : option string;
  confidence_score : option Q;
  user_id : option Z;
  created_at : Z;
  updated_at : Z;
  acknowledged_at : option Z;
  resolved_at : option Z;
  response_time : option Q;
  email_sent : bool;
  sms_sent : bool;
  webhook_sent : bool
}.

(** The [ai_analysis] argument of [create_alert]: the payload text and the
    value under its ["confidence_scores"] key, when it has that key. *)
Record AiAnalysis := mkAiAnalysis {
  analysis_payload : string;
  confidence_scores : option (list (string * Q))
}.

(** The keyword arguments of [create_alert]. *)
Record AlertArgs := mkAlertArgs {
  arg_alert_type : string;
  arg_severity : string;
  arg_title : string;
  arg_description : option string;
  arg_camera_id : option Z;
  arg_location : option string;
  arg_coordinates : option string;
  arg_detected_objects : option string;
  arg_biometric_data : option string;
  arg_ai_analysis : option AiAnalysis;
  arg_image_path : option string;
  arg_video_path : option string
}.

(** Modelled from the spec: the constructor [Alert(...)] of the missing
    [app/models/alert.py], called at time [now]. *)
Definition Alert_new (now : Z) (a : AlertArgs) : Alert :=
  {| id := None;
     alert_type := arg_alert_type a;
     severity := arg_severity a;
     status := "active";
     title := arg_title a;
     description := arg_description a;
     camera_id := arg_camera_id a;
     location := arg_location a;
     coordinates := arg_coordinates a;
     detected_objects := arg_detected_objects a;
     biometric_data := arg_biometric_data a;
     ai_analysis := analysis_payload <$> arg_ai_analysis a;
     image_path := arg_image_path a;
     video_path := arg_video_path a;
     confidence_score := None;
     user_id := None;
     created_at := now;
     updated_at := now;
     acknowledged_at := None;
     resolved_at := None;
     response_time := None;
     email_sent := false;
     sms_sent := false;
     webhook_sent := false |}.

(** Field updates ([alert.field = value]). *)
Definition set_id (v : option Z) (a : Alert) : Alert :=
  mkAlert v (alert_type a) (severity a) (status a) (title a) (description a)
    (camera_id a) (location a) (coordinates a) (detected_objects a)
    (biometric_data a) (ai_analysis a) (image_path a) (video_path a)
    (confidence_score a) (user_id a) (created_at a) (updated_at a)
    (acknowledged_at a) (resolved_at a) (response_time a)
    (email_sent a) (sms_sent a) (webhook_sent a).

Definition set_severity (v : string) (a : Alert) : Alert :=
  mkAlert (id a) (alert_type a) v (status a) (title a) (description a)
    (camera_id a) (location a) (coordinates a) (detected_objects a)
    (biometric_data a) (ai_analysis a) (image_path a) (video_path a)
    (confidence_score a) (user_id a) (created_at a) (updated_at a)
    (acknowledged_at a) (resolved_at a) (response_time a)
    (email_sent a) (sms_sent a) (webhook_sent a).

Definition set_status (v : string) (a : Alert) : Alert :=
  mkAlert (id a) (alert_type a) (severity a) v (title a) (description a)
    (camera_id a) (location a) (coordinates a) (detected_objects a)
    (biometric_data a) (ai_analysis a) (image_path a) (video_path a)
    (confidence_score a) (user_id a) (created_at a) (updated_at a)
    (acknowledged_at a) (resolved_at a) (response_time a)
    (email_sent a) (sms_sent a) (webhook_sent a).

Definition set_description (v : option string) (a : Alert) : Alert :=
  mkAlert (id a) (alert_type a) (severity a) (status a) (title a) v
    (camera_id a) (location a) (coordinates a) (detected_objects a)
    (biometric_data a) (ai_analysis a) (image_path a) (video_path a)
    (confidence_score a) (user_id a) (created_at a) (updated_at a)
    (acknowledged_at a) (resolved_at a) (response_time a)
    (email_sent a) (sms_sent a) (webhook_sent a).

Definition set_location (v : option string) (a : Alert) : Alert :=
  mkAlert (id a) (alert_type a) (severity a) (status a) (title a)
    (description a) (camera_id a) v (coordinates a) (detected_objects a)
    (biometric_data a) (ai_analysis a) (image_path a) (video_path a)
    (confidence_score a) (user_id a) (created_at a) (updated_at a)
    (acknowledged_at a) (resolved_at a) (response_time a)
    (email_sent a) (sms_sent a) (webhook_sent a).

Definition set_coordinates (v : option string) (a : Alert) : Alert :=
  mkAlert (id a) (alert_type a) (severity a) (status a) (title a)
    (description a) (camera_id a) (location a) v (detected_objects a)
    (biometric_data a) (ai_analysis a) (image_path a) (video_path a)
    (confidence_score a) (user_id a) (created_at a) (updated_at a)
    (acknowledged_at a) (resolved_at a) (response_time a)
    (email_sent a) (sms_sent a) (webhook_sent a).

Definition set_detected_objects (v : option string) (a : Alert) : Alert :=
  mkAlert (id a) (alert_type a) (severity a) (status a) (title a)
    (description a) (camera_id a) (location a) (coordinates a) v
    (biometric_data a) (ai_analysis a) (image_path a) (video_path a)
    (confidence_score a) (user_id a) (created_at a) (updated_at a)
    (acknowledged_at a) (resolved_at a) (response_time a)
    (email_sent a) (sms_sent a) (webhook_sent a).

Definition set_biometric_data (v : option string) (a : Alert) : Alert :=
  mkAlert (id a) (alert_type a) (severity a) (status a) (title a)
    (description a) (camera_id a) (location a) (coordinates a)
    (detected_objects a) v (ai_analysis a) (image_path a) (video_path a)
    (confidence_score a) (user_id a) (created_at a) (updated_at a)
    (acknowledged_at a) (resolved_at a) (response_time a)
    (email_sent a) (sms_sent a) (webhook_sent a).

Definition set_ai_analysis (v : option string) (a : Alert) : Alert :=
  mkAlert (id a) (alert_type a) (severity a) (status a) (title a)
    (description a) (camera_id a) (location a) (coordinates a)
    (detected_objects a) (biometric_data a) v (image_path a) (video_path a)
    (confidence_score a) (user_id a) (created_at a) (updated_at a)
    (acknowledged_at a) (resolved_at a) (response_time a)
    (email_sent a) (sms_sent a) (webhook_sent a).

Definition set_image_path (v : option string) (a : Alert) : Alert :=
  mkAlert (id a) (alert_type a) (severity a) (status a) (title a)
    (description a) (camera_id a) (location a) (coordinates a)
    (detected_objects a) (biometric_data a) (ai_analysis a) v (video_path a)
    (confidence_score a) (user_id a) (created_at a) (updated_at a)
    (acknowledged_at a) (resolved_at a) (response_time a)
    (email_sent a) (sms_sent a) (webhook_sent a).

Definition set_video_path (v : option string) (a : Alert) : Alert :=
  mkAlert (id a) (alert_type a) (severity a) (status a) (title a)
    (description a) (camera_id a) (location a) (coordinates a)
    (detected_objects a) (biometric_data a) (ai_analysis a) (image_path a) v
    (confidence_score a) (user_id a) (created_at a) (updated_at a)
    (acknowledged_at a) (resolved_at a) (response_time a)
    (email_sent a) (sms_sent a) (webhook_sent a).

Definition set_confidence_score (v : option Q) (a : Alert) : Alert :=
  mkAlert (id a) (alert_type a) (severity a) (status a) (title a)
    (description a) (camera_id a) (location a) (coordinates a)
    (detected_objects a) (biometric_data a) (ai_analysis a) (image_path a)
    (video_path a) v (user_id a) (created_at a) (updated_at a)
    (acknowledged_at a) (resolved_at a) (response_time a)
    (email_sent a) (sms_sent a) (webhook_sent a).

Definition set_user_id (v : option Z) (a : Alert) : Alert :=
  mkAlert (id a) (alert_type a) (severity a) (status a) (title a)
    (description a) (camera_id a) (location a) (coordinates a)
    (detected_objects a) (biometric_data a) (ai_analysis a) (image_path a)
    (video_path a) (confidence_score a) v (created_at a) (updated_at a)
    (acknowledged_at a) (resolved_at a) (response_time a)
    (email_sent a) (sms_sent a) (webhook_sent a).

Definition set_updated_at (v : Z) (a : Alert) : Alert :=
  mkAlert (id a) (alert_type a) (severity a) (status a) (title a)
    (description a) (camera_id a) (location a) (coordinates a)
    (detected_objects a) (biometric_data a) (ai_analysis a) (image_path a)
    (video_path a) (confidence_score a) (user_id a) (created_at a) v
    (acknowledged_at a) (resolved_at a) (response_time a)
    (email_sent a) (sms_sent a) (webhook_sent a).

Definition set_acknowledged_at (v : option Z) (a : Alert) : Alert :=
  mkAlert (id a) (alert_type a) (severity a) (status a) (title a)
    (description a) (camera_id a) (location a) (coordinates a)
    (detected_objects a) (biometric_data a) (ai_analysis a) (image_path a)
    (video_path a) (confidence_score a) (user_id a) (created_at a)
    (updated_at a) v (resolved_at a) (response_time a)
    (email_sent a) (sms_sent a) (webhook_sent a).

Definition set_resolved_at (v : option Z) (a : Alert) : Alert :=
  mkAlert (id a) (alert_type a) (severity a) (status a) (title a)
    (description a) (camera_id a) (location a) (coordinates a)
    (detected_objects a) (biometric_data a) (ai_analysis a) (image_path a)
    (video_path a) (confidence_score a) (user_id a) (created_at a)
    (updated_at a) (acknowledged_at a) v (response_time a)
    (email_sent a) (sms_sent a) (webhook_sent a).

Definition set_response_time (v : option Q) (a : Alert) : Alert :=
  mkAlert (id a) (alert_type a) (severity a) (status a) (title a)
    (description a) (camera_id a) (location a) (coordinates a)
    (detected_objects a) (biometric_data a) (ai_analysis a) (image_path a)
    (video_path a) (confidence_score a) (user_id a) (created_at a)
    (updated_at a) (acknowledged_at a) (resolved_at a) v
    (email_sent a) (sms_sent a) (webhook_sent a).

Definition set_email_sent (v : bool) (a : Alert) : Alert :=
  mkAlert (id a) (alert_type a) (severity a) (status a) (title a)
    (description a) (camera_id a) (location a) (coordinates a)
    (detected_objects a) (biometric_data a) (ai_analysis a) (image_path a)
    (video_path a) (confidence_score a) (user_id a) (created_at a)
    (updated_at a) (acknowledged_at a) (resolved_at a) (response_time a)
    v (sms_sent a) (webhook_sent a).

Definition set_sms_sent (v : bool) (a : Alert) : Alert :=
  mkAlert (id a) (alert_type a) (severity a) (status a) (title a)
    (description a) (camera_id a) (location a) (coordinates a)
    (detected_objects a) (biometric_data a) (ai_analysis a) (image_path a)
    (video_path a) (confidence_score a) (user_id a) (created_at a)
    (updated_at a) (acknowledged_at a) (resolved_at a) (response_time a)
    (email_sent a) v (webhook_sent a).

Definition set_webhook_sent (v : bool) (a : Alert) : Alert :=
  mkAlert (id a) (alert_type a) (severity a) (status a) (title a)
    (description a) (camera_id a) (location a) (coordinates a)
    (detected_objects a) (biometric_data a) (ai_analysis a) (image_path a)
    (video_path a) (confidence_score a) (user_id a) (created_at a)
    (updated_at a) (acknowledged_at a) (resolved_at a) (response_time a)
    (email_sent a) (sms_sent a) v.

(** ** The service state: [self.alert_cooldowns] and [self.active_alerts] *)

Record State := mkState {
  alert_cooldowns : gmap string Z;
  active_alerts : gmap Z Alert
}.

Definition init : State := mkState ∅ ∅.

(** The notification transports ([NotificationService]); each catches its
    own failures and answers with the delivered flag. *)
Record NotificationService := mkNotificationService {
  send_email_alert : Alert → bool;
  send_sms_alert : Alert → bool;
  send_webhook_alert : Alert → bool;
  send_push_notification : Alert → bool
}.

Section Service.

Variable settings : Settings.
Variable notification_service : NotificationService.

(** [f"{alert_type}_{camera_id}_{location}"] *)
Definition cooldown_key (a : AlertArgs) : string :=
  arg_alert_type a +:+ "_" +:+ str_int (arg_camera_id a) +:+ "_"
    +:+ str_str (arg_location a).

Definition _is_in_cooldown (now : Z) (key : string) (s : State) : bool :=
  match alert_cooldowns s !! key with
  | None => false
  | Some last_alert_time =>
      bool_decide (now - last_alert_time < timedelta_seconds (ALERT_COOLDOWN settings))
  end.

(** [_send_notifications]: every transport is handed the notification data
    prepared from the alert beforehand; the delivery flags are written on
    the alert object that the store holds.  The push notification is sent
    last and its answer is dropped. *)
Definition _send_notifications (alert : Alert) : Alert :=
  let a1 := if EMAIL_ENABLED settings
            then set_email_sent (send_email_alert notification_service alert) alert
            else alert in
  let a2 := if SMS_ENABLED settings
            then set_sms_sent (send_sms_alert notification_service alert) a1
            else a1 in
  let a3 := match WEBHOOK_URL settings with
            | Some url =>
                if truthy_str url
                then set_webhook_sent (send_webhook_alert notification_service alert) a2
                else a2
            | None => a2
            end in
  a3.

(** The confidence score set from the AI analysis. *)
Definition score_from_analysis (ai : option AiAnalysis) (alert : Alert) : Alert :=
  match ai with
  | Some an =>
      match confidence_scores an with
      | Some scores =>
          match snd <$> scores with
          | [] => set_confidence_score (Some 0%Q) alert
          | x :: xs => set_confidence_score (Some (max_values x xs)) alert
          end
      | None => alert
      end
  | None => alert
  end.

(** [create_alert]: [None] is the suppressed outcome ([return None]); the
    clock readings of one call are the one instant [now]. *)
Definition create_alert (now : Z) (args : AlertArgs) (s : State)
  : option Alert * State :=
  let key := cooldown_key args in
  if _is_in_cooldown now key s then (None, s)
  else
    let alert := score_from_analysis (arg_ai_analysis args) (Alert_new now args) in
    let new_id := Z.of_nat (size (active_alerts s)) + 1 in
    let alert := set_id (Some new_id) alert in
    let alert := _send_notifications alert in
    (Some alert,
     mkState (<[key := now]> (alert_cooldowns s))
             (<[new_id := alert]> (active_alerts s))).

(** What a call that is not suppressed does. *)
Definition created (now : Z) (args : AlertArgs) (s : State)
    (r : option Alert * State) : Prop :=
  let new_id := Z.of_nat (size (active_alerts s)) + 1 in
  ∃ alert,
    r.1 = Some alert
    ∧ status alert = "active"
    ∧ id alert = Some new_id
    ∧ active_alerts r.2 = <[new_id := alert]> (active_alerts s)
    ∧ alert_cooldowns r.2 = <[cooldown_key args := now]> (alert_cooldowns s).

(** [acknowledge_alert] *)
Definition acknowledge_alert (now : Z) (alert_id uid : Z) (s : State)
  : bool * State :=
  match active_alerts s !! alert_id with
  | None => (false, s)
  | Some alert =>
      if String.eqb (status alert) "acknowledged" then (true, s)
      else
        let alert := set_status "acknowledged" alert in
        let alert := set_user_id (Some uid) alert in
        let alert := set_acknowledged_at (Some now) alert in
        let alert :=
          set_response_time (Some (total_seconds (now - created_at alert))) alert in
        (true, mkState (alert_cooldowns s) (<[alert_id := alert]> (active_alerts s)))
  end.

(** [resolve_alert] *)
Definition resolve_alert (now : Z) (alert_id uid : Z) (s : State)
  : bool * State :=
  match active_alerts s !! alert_id with
  | None => (false, s)
  | Some alert =>
      if String.eqb (status alert) "resolved" then (true, s)
      else
        let alert := set_status "resolved" alert in
        let alert := set_user_id (Some uid) alert in
        let alert := set_resolved_at (Some now) alert in
        let alert :=
          match acknowledged_at alert with
          | Some ack => set_response_time (Some (total_seconds (now - ack))) alert
          | None =>
              set_response_time (Some (total_seconds (now - created_at alert))) alert
          end in
        (true, mkState (alert_cooldowns s) (<[alert_id := alert]> (active_alerts s)))
  end.

(** [update_alert]: the keyword arguments are (field, value) pairs with text
    values, as the update endpoint passes them; [setattr] is applied for the
    allowed fields only. *)
Definition allowed_fields : list string :=
  ["description"; "severity"; "status"; "location"; "coordinates";
   "detected_objects"; "biometric_data"; "ai_analysis"; "image_path";
   "video_path"].

Definition setattr (field value : string) (alert : Alert) : Alert :=
  if String.eqb field "description" then set_description (Some value) alert
  else if String.eqb field "severity" then set_severity value alert
  else if String.eqb field "status" then set_status value alert
  else if String.eqb field "location" then set_location (Some value) alert
  else if String.eqb field "coordinates" then set_coordinates (Some value) alert
  else if String.eqb field "detected_objects" then set_detected_objects (Some value) alert
  else if String.eqb field "biometric_data" then set_biometric_data (Some value) alert
  else if String.eqb field "ai_analysis" then set_ai_analysis (Some value) alert
  else if String.eqb field "image_path" then set_image_path (Some value) alert
  else if String.eqb field "video_path" then set_video_path (Some value) alert
  else alert.

Definition apply_kwargs (kwargs : list (string * string)) (alert : Alert) : Alert :=
  foldl (λ a kv, if bool_decide (kv.1 ∈ allowed_fields) then setattr kv.1 kv.2 a else a)
        alert kwargs.

Definition update_alert (now : Z) (alert_id : Z) (kwargs : list (string * string))
    (s : State) : bool * State :=
  match active_alerts s !! alert_id with
  | None => (false, s)
  | Some alert =>
      let alert := apply_kwargs kwargs alert in
      let alert := set_updated_at now alert in
      (true, mkState (alert_cooldowns s) (<[alert_id := alert]> (active_alerts s)))
  end.

(** [cleanup_old_alerts] *)
Definition removable (cutoff_date : Z) (alert : Alert) : bool :=
  String.eqb (status alert) "resolved"
  && match resolved_at alert with
     | Some r => bool_decide (r < cutoff_date)
     | None => false
     end.

Definition cleanup_old_alerts (now : Z) (retention_days : Z) (s : State) : State :=
  let cutoff_date := now - timedelta_days retention_days in
  let alerts_to_remove :=
    (filter (λ kv, removable cutoff_date kv.2 = true) (map_to_list (active_alerts s))).*1 in
  mkState (alert_cooldowns s)
          (foldl (λ m alert_id, delete alert_id m) (active_alerts s) alerts_to_remove).

(** [get_alert_by_id] *)
Definition get_alert_by_id (alert_id : Z) (s : State) : option Alert :=
  active_alerts s !! alert_id.

(** [get_alert_statistics] *)
Record Stats := mkStats {
  total_alerts : nat;
  by_severity : gmap string nat;
  by_type : gmap string nat;
  by_status : gmap string nat;
  by_camera : gmap string nat;
  response_times : list Q;
  average_response_time : Q;
  unresolved_alerts : nat;
  date_range : Z * Z
}.

(** [d[k] = d.get(k, 0) + 1] *)
Definition bump (k : string) (d : gmap string nat) : gmap string nat :=
  <[k := (default 0 (d !! k) + 1)%nat]> d.

Definition count_by (key : Alert → string) (alerts : list Alert) : gmap string nat :=
  foldl (λ d a, bump (key a) d) ∅ alerts.

Definition truthy_camera (c : option Z) : bool :=
  match c with Some z => negb (Z.eqb z 0) | None => false end.

Definition count_by_camera (alerts : list Alert) : gmap string nat :=
  foldl (λ d a, if truthy_camera (camera_id a)
                then bump (str_int (camera_id a)) d else d) ∅ alerts.

Definition truthy_response (r : option Q) : option Q :=
  match r with
  | Some q => if truthy_float q then Some q else None
  | None => None
  end.

Definition Qsum (l : list Q) : Q := foldl Qplus 0%Q l.

Definition get_alert_statistics (now : Z) (start_date end_date : option Z)
    (s : State) : Stats :=
  let start_date := default (now - timedelta_days 30) start_date in
  let end_date := default now end_date in
  let alerts :=
    filter (λ a, start_date ≤ created_at a ∧ created_at a ≤ end_date)
           ((map_to_list (active_alerts s)).*2) in
  let times := omap (λ a, truthy_response (response_time a)) alerts in
  {| total_alerts := length alerts;
     by_severity := count_by severity alerts;
     by_type := count_by alert_type alerts;
     by_status := count_by status alerts;
     by_camera := count_by_camera alerts;
     response_times := times;
     average_response_time :=
       match times with
       | [] => 0%Q
       | _ => (Qsum times / inject_Z (Z.of_nat (length times)))%Q
       end;
     unresolved_alerts :=
       length (filter (λ a, status a = "active") alerts);
     date_range := (start_date, end_date) |}.

(** The lifecycle operations as a sequence of calls. *)
Inductive Op :=
| Acknowledge (now alert_id uid : Z)
| Resolve (now alert_id uid : Z)
| Update (now alert_id : Z) (kwargs : list (string * string)).

Definition step (op : Op) (s : State) : State :=
  match op with
  | Acknowledge now alert_id uid => (acknowledge_alert now alert_id uid s).2
  | Resolve now alert_id uid => (resolve_alert now alert_id uid s).2
  | Update now alert_id kwargs => (update_alert now alert_id kwargs s).2
  end.

Definition run (ops : list Op) (s : State) : State :=
  foldl (λ s op, step op s) s ops.

(** The position of a status in active → acknowledged → resolved. *)
Definition rank (st : string) : option nat :=
  if String.eqb st "active" then Some 0%nat
  else if String.eqb st "acknowledged" then Some 1%nat
  else if String.eqb st "resolved" then Some 2%nat
  else None.

(** The value a keyword-argument list assigns to [status], if any. *)
Fixpoint status_kwarg (kwargs : list (string * string)) : option string :=
  match kwargs with
  | [] => None
  | kv :: rest =>
      match status_kwarg rest with
      | Some v => Some v
      | None => if String.eqb kv.1 "status" then Some kv.2 else None
      end
  end.

(** The calls under which the status is only ever moved forward: every
    resolve, an acknowledge of an alert that is not resolved, and an update
    that carries no [status]. *)
Definition forward_call (s : State) (op : Op) : bool :=
  match op with
  | Acknowledge _ alert_id _ =>
      match active_alerts s !! alert_id with
      | Some alert => negb (String.eqb (status alert) "resolved")
      | None => true
      end
  | Resolve _ _ _ => true
  | Update _ _ kwargs =>
      match status_kwarg kwargs with Some _ => false | None => true end
  end.

Fixpoint forward_calls (ops : list Op) (s : State) : bool :=
  match ops with
  | [] => true
  | op :: rest => forward_call s op && forward_calls rest (step op s)
  end.

(** [sum(d.values())] *)
Definition sum_values (d : gmap string nat) : nat :=
  sum_list ((map_to_list d).*2).

End Service.

End AlertService.

Module BiometricService.

(** ** Ordered dictionaries

    The template caches are Python dicts iterated in insertion order; an
    assignment to a present key keeps the key's position. *)
Fixpoint dict_get {V} (k : Z) (d : list (Z * V)) : option V :=
  match d with
  | [] => None
  | (k', v) :: rest => if Z.eqb k k' then Some v else dict_get k rest
  end.

Fixpoint dict_set {V} (k : Z) (v : V) (d : list (Z * V)) : list (Z * V) :=
  match d with
  | [] => [(k, v)]
  | (k', v') :: rest =>
      if Z.eqb k k' then (k, v) :: rest else (k', v') :: dict_set k v rest
  end.

(** ** Result dictionaries *)

Record AuthResult := mkAuthResult {
  success : bool;
  user_id : option Z;
  confidence : option Q;
  distance : option Q;
  method : option string;
  error : option string
}.

Record RegistrationResult := mkRegistrationResult {
  reg_success : bool;
  reg_template : option string;
  reg_quality : option Q;
  reg_confidence : option Q;
  reg_error : option string
}.

Record LivenessResult := mkLivenessResult {
  is_live : bool;
  live_confidence : Q;
  quality_score : Q
}.

Record FusionResult := mkFusionResult {
  fused_success : bool;
  fused_user_id : option Z;
  fused_confidence : option Q;
  successful_modalities : option nat;
  total_modalities : option nat;
  detailed_results : option (list AuthResult);
  fused_error : option string
}.

(** [{"success": False, "error": e}] *)
Definition auth_error (e : string) : AuthResult :=
  mkAuthResult false None None None None (Some e).

Definition fusion_error (e : string) : FusionResult :=
  mkFusionResult false None None None None None (Some e).

(** The identity-mismatch outcome of the fusion. *)
Definition mismatch : FusionResult :=
  fusion_error "Biometric data mismatch between modalities".

(** A result as the authenticators build it: a successful one carries a
    confidence and a user id. *)
Definition well_formed (r : option AuthResult) : Prop :=
  ∀ x, r = Some x → success x = true → is_Some (confidence x) ∧ is_Some (user_id x).

(** The modality was run and succeeded for user [u]. *)
Definition succeeded_as (r : option AuthResult) (u : Z) : Prop :=
  ∃ x, r = Some x ∧ success x = true ∧ user_id x = Some u.

(** The results of the modalities that were run, in the order face,
    fingerprint, iris. *)
Definition supplied (face_result fingerprint_result iris_result : option AuthResult)
  : list AuthResult :=
  omap (λ r, r) [face_result; fingerprint_result; iris_result].

Definition count_success (rs : list AuthResult) : nat :=
  length (filter (λ r, success r = true) rs).

(** The confidences of the successful results, added up in order. *)
Definition sum_confidence (rs : list AuthResult) : Q :=
  foldl (λ acc r, if success r then (acc + default 0%Q (confidence r))%Q else acc) 0%Q rs.

Definition average (total : Q) (n : nat) : Q :=
  match n with
  | O => 0%Q
  | S _ => (total / inject_Z (Z.of_nat n))%Q
  end.

(** The success rule of the code, for the results [rs] of the modalities
    that were run and the fused result [r]: success exactly when some
    modality succeeded, the summed confidence of the successful ones over
    the number of modalities run is at least 0.7 and an identity is
    resolved; that quotient is the reported confidence, and the reported
    identity is the one every successful modality resolved. *)
Definition fusion_rule (rs : list AuthResult) (r : FusionResult) : Prop :=
  let mean := average (sum_confidence rs) (length rs) in
  (fused_success r = true
   ↔ (0 < count_success rs)%nat ∧ (7 # 10 <= mean)%Q ∧ fused_user_id r ≠ None)
  ∧ fused_confidence r = Some mean
  ∧ (∀ x, x ∈ rs → success x = true → user_id x = fused_user_id r).



Section Biometric.

(** The external libraries: face encodings and their distance
    ([face_recognition]), and [hashlib.sha256(...).hexdigest()]. *)
Variable Encoding : Type.
Variable face_distance : Encoding → Encoding → Q.
Variable sha256 : string → string.
Variable settings : Settings.

(** A decoded image, by what the vision libraries report about it: its
    bytes, the variance of its Laplacian ([cv2]), the number of face
    locations and the encodings extracted at them. *)
Record Image := mkImage {
  tobytes : string;
  laplacian_variance : Q;
  face_locations : nat;
  face_encodings : list Encoding
}.

Record State := mkState {
  face_encodings_cache : list (Z * Encoding);
  fingerprint_templates_cache : list (Z * string);
  iris_templates_cache : list (Z * string)
}.

Definition init : State := mkState [] [] [].

(** [user_id and user_id in cache]: the template to verify against. *)
Definition requested {V} (uid : option Z) (cache : list (Z * V)) : option (Z * V) :=
  match uid with
  | Some u => if Z.eqb u 0 then None else (λ v, (u, v)) <$> dict_get u cache
  | None => None
  end.

(** *** Face *)

Definition register_face (uid : Z) (image : Image) (s : State)
  : RegistrationResult * State :=
  match face_locations image with
  | O => (mkRegistrationResult false None None None (Some "No face detected in image"), s)
  | S O =>
      match face_encodings image with
      | [] => (mkRegistrationResult false None None None
                 (Some "Could not extract face features"), s)
      | face_encoding :: _ =>
          (mkRegistrationResult true None None (Some 1%Q) None,
           mkState (dict_set uid face_encoding (face_encodings_cache s))
                   (fingerprint_templates_cache s) (iris_templates_cache s))
      end
  | S (S _) =>
      (mkRegistrationResult false None None None
         (Some "Multiple faces detected. Please provide image with single face"), s)
  end.

(** The search loop over all registered faces: the pair is
    [(best_match, best_confidence)]. *)
Definition face_search_step (unknown : Encoding) (best : option Z * Q)
    (entry : Z * Encoding) : option Z * Q :=
  let d := face_distance entry.2 unknown in
  let c := (1 - d)%Q in
  if Qle_bool d (FACE_RECOGNITION_TOLERANCE settings) && Qgtb c best.2
  then (Some entry.1, c) else best.

Definition face_search (unknown : Encoding) (cache : list (Z * Encoding)) : AuthResult :=
  let best := foldl (face_search_step unknown) (None, 0%Q) cache in
  match best.1 with
  | Some u =>
      if Z.eqb u 0
      then mkAuthResult false None (Some 0%Q) None None (Some "Face not recognized")
      else mkAuthResult true (Some u) (Some best.2) None (Some "face_recognition") None
  | None => mkAuthResult false None (Some 0%Q) None None (Some "Face not recognized")
  end.

Definition authenticate_face (image : Image) (uid : option Z) (s : State) : AuthResult :=
  match face_locations image with
  | O => auth_error "No face detected in image"
  | S _ =>
      match face_encodings image with
      | [] => auth_error "Could not extract face features"
      | unknown :: _ =>
          match requested uid (face_encodings_cache s) with
          | Some (u, known) =>
              let d := face_distance known unknown in
              let is_match := Qle_bool d (FACE_RECOGNITION_TOLERANCE settings) in
              mkAuthResult is_match (if is_match then Some u else None)
                (Some (1 - d)%Q) (Some d) None None
          | None => face_search unknown (face_encodings_cache s)
          end
      end
  end.

(** *** Fingerprint and iris: exact match of the hash *)

Definition hash_verify (meth : string) (h : string) (u : Z) (stored : string) : AuthResult :=
  let is_match := String.eqb h stored in
  mkAuthResult is_match (if is_match then Some u else None)
    (Some (if is_match then 1%Q else 0%Q)) None (Some meth) None.

Fixpoint hash_search (meth not_recognized : string) (h : string)
    (cache : list (Z * string)) : AuthResult :=
  match cache with
  | [] => mkAuthResult false None (Some 0%Q) None None (Some not_recognized)
  | (stored_user_id, stored_hash) :: rest =>
      if String.eqb h stored_hash
      then mkAuthResult true (Some stored_user_id) (Some 1%Q) None (Some meth) None
      else hash_search meth not_recognized h rest
  end.

Definition register_fingerprint (uid : Z) (fingerprint_data : string) (s : State)
  : RegistrationResult * State :=
  let fingerprint_hash := sha256 fingerprint_data in
  (mkRegistrationResult true (Some fingerprint_hash) (Some (95 # 100)) None None,
   mkState (face_encodings_cache s)
           (dict_set uid fingerprint_hash (fingerprint_templates_cache s))
           (iris_templates_cache s)).

Definition authenticate_fingerprint (fingerprint_data : string) (uid : option Z)
    (s : State) : AuthResult :=
  let fingerprint_hash := sha256 fingerprint_data in
  match requested uid (fingerprint_templates_cache s) with
  | Some (u, stored_hash) => hash_verify "fingerprint" fingerprint_hash u stored_hash
  | None =>
      hash_search "fingerprint" "Fingerprint not recognized" fingerprint_hash
        (fingerprint_templates_cache s)
  end.

Definition register_iris (uid : Z) (iris_image : Image) (s : State)
  : RegistrationResult * State :=
  let iris_hash := sha256 (tobytes iris_image) in
  (mkRegistrationResult true (Some iris_hash) (Some (98 # 100)) None None,
   mkState (face_encodings_cache s) (fingerprint_templates_cache s)
           (dict_set uid iris_hash (iris_templates_cache s))).

Definition authenticate_iris (iris_image : Image) (uid : option Z) (s : State)
  : AuthResult :=
  let iris_hash := sha256 (tobytes iris_image) in
  match requested uid (iris_templates_cache s) with
  | Some (u, stored_hash) => hash_verify "iris" iris_hash u stored_hash
  | None => hash_search "iris" "Iris not recognized" iris_hash (iris_templates_cache s)
  end.

(** *** Liveness *)

Definition detect_liveness (image : Image) : LivenessResult :=
  let variance := laplacian_variance image in
  mkLivenessResult (Qgtb variance 100)
    (if Qgtb (variance / 1000) 1 then 1%Q else (variance / 1000)%Q)
    variance.

(** *** Multi-modal fusion

    The locals [results], [total_confidence] and [authenticated_user_id] of
    [multi_modal_authentication], threaded through its three blocks.  A
    block either goes on with the updated locals or returns. *)
Record Locals := mkLocals {
  results : list AuthResult;
  total_confidence : Q;
  authenticated_user_id : option Z
}.

Inductive Flow :=
| Go (l : Locals)
| Return (r : FusionResult).

Definition bind (f : Flow) (k : Locals → Flow) : Flow :=
  match f with Go l => k l | Return r => Return r end.

(** Reading the key ["confidence"] of a result that lacks it raises
    [KeyError], which the function's handler turns into an error result. *)
Definition key_error : FusionResult := fusion_error "'confidence'".

(** The face block: a success overwrites the identity. *)
Definition face_block (r : option AuthResult) (l : Locals) : Flow :=
  match r with
  | None => Go l
  | Some face_result =>
      let res := (results l ++ [face_result])%list in
      if success face_result then
        match confidence face_result with
        | None => Return key_error
        | Some c => Go (mkLocals res (total_confidence l + c)%Q (user_id face_result))
        end
      else Go (mkLocals res (total_confidence l) (authenticated_user_id l))
  end.

(** The fingerprint and the iris blocks: a success sets the identity when
    there is none and is compared with it otherwise. *)
Definition check_block (r : option AuthResult) (l : Locals) : Flow :=
  match r with
  | None => Go l
  | Some result =>
      let res := (results l ++ [result])%list in
      if success result then
        match confidence result with
        | None => Return key_error
        | Some c =>
            let total := (total_confidence l + c)%Q in
            match authenticated_user_id l with
            | None => Go (mkLocals res total (user_id result))
            | Some u =>
                if bool_decide (user_id result = Some u)
                then Go (mkLocals res total (Some u))
                else Return mismatch
            end
        end
      else Go (mkLocals res (total_confidence l) (authenticated_user_id l))
  end.

(** "Calculate final result". *)
Definition final_result (l : Locals) : FusionResult :=
  let successful_authentications := count_success (results l) in
  let average_confidence := average (total_confidence l) (length (results l)) in
  let is_authenticated :=
    (0 <? successful_authentications)%nat
    && Qgeb average_confidence (7 # 10)
    && bool_decide (authenticated_user_id l ≠ None) in
  mkFusionResult is_authenticated (authenticated_user_id l)
    (Some average_confidence) (Some successful_authentications)
    (Some (length (results l))) (Some (results l)) None.

(** The fusion of the results of the modalities that were run ([None] for
    a modality that was not). *)
Definition fuse (face_result fingerprint_result iris_result : option AuthResult)
  : FusionResult :=
  match bind (bind (face_block face_result (mkLocals [] 0%Q None))
                   (check_block fingerprint_result))
             (check_block iris_result) with
  | Go l => final_result l
  | Return r => r
  end.

Definition multi_modal_authentication (face_image : option Image)
    (fingerprint_data : option string) (iris_image : option Image)
    (uid : option Z) (s : State) : FusionResult :=
  fuse ((λ img, authenticate_face img uid s) <$> face_image)
       ((λ d, authenticate_fingerprint d uid s) <$> fingerprint_data)
       (if IRIS_RECOGNITION_ENABLED settings
        then (λ img, authenticate_iris img uid s) <$> iris_image
        else None).

End Biometric.

Arguments mkImage {Encoding}.
Arguments tobytes {Encoding}.
Arguments laplacian_variance {Encoding}.
Arguments face_locations {Encoding}.
Arguments face_encodings {Encoding}.
Arguments mkState {Encoding}.
Arguments face_encodings_cache {Encoding}.
Arguments fingerprint_templates_cache {Encoding}.
Arguments iris_templates_cache {Encoding}.
Arguments init {Encoding}.
Arguments register_face {Encoding}.
Arguments face_search_step {Encoding}.
Arguments face_search {Encoding}.
Arguments authenticate_face {Encoding}.
Arguments register_fingerprint {Encoding}.
Arguments authenticate_fingerprint {Encoding}.
Arguments register_iris {Encoding}.
Arguments authenticate_iris {Encoding}.
Arguments detect_liveness {Encoding}.
Arguments multi_modal_authentication {Encoding}.

End BiometricService.

(** ** The biometric endpoints ([app/api/v1/biometric.py]) *)

Module BiometricApi.

Import BiometricService.

Record UploadFile := mkUploadFile {
  content_type : string;
  file_bytes : string
}.

Record CurrentUser := mkCurrentUser {
  is_admin : bool;
  current_user_id : Z
}.

Record BiometricRegistrationResponse := mkRegistrationResponse {
  resp_reg_success : bool;
  resp_message : string;
  resp_template_id : option string;
  resp_quality_score : option Q;
  resp_reg_error : option string
}.

Record BiometricAuthenticationResponse := mkAuthenticationResponse {
  resp_success : bool;
  resp_user_id : option Z;
  resp_confidence : Q;
  resp_method : string;
  resp_error : option string;
  resp_detailed_results : option (list AuthResult)
}.

(** What an endpoint answers: a raised [HTTPException] or a response body. *)
Inductive Outcome (A : Type) :=
| HTTPException (status_code : nat) (detail : string)
| Body (a : A).
Arguments HTTPException {A}.
Arguments Body {A}.

(** Every endpoint body runs under [except Exception], which also catches
    the [HTTPException]s raised inside it and raises a 500 instead. *)
Definition handled {A} (detail : string) (o : Outcome A) : Outcome A :=
  match o with
  | HTTPException _ _ => HTTPException 500 detail
  | Body a => Body a
  end.

(** The liveness rejections of the two face endpoints. *)
Definition registration_liveness_failure : BiometricRegistrationResponse :=
  mkRegistrationResponse false "Liveness check failed" None None
    (Some "Please provide a live image").

Definition authentication_liveness_failure (meth : string)
  : BiometricAuthenticationResponse :=
  mkAuthenticationResponse false None 0%Q meth (Some "Liveness check failed") None.

Section Api.

Variable Encoding : Type.
Variable face_distance : Encoding → Encoding → Q.
Variable sha256 : string → string.
Variable settings : Settings.

(** [cv2.imdecode(np.frombuffer(data, np.uint8), cv2.IMREAD_COLOR)] *)
Variable imdecode : string → option (Image Encoding).

Abbreviation State := (BiometricService.State Encoding).

Definition is_image (f : UploadFile) : bool :=
  String.prefix "image/" (content_type f).

Definition forbidden (current_user : CurrentUser) (uid : Z) : bool :=
  negb (is_admin current_user) && negb (Z.eqb (current_user_id current_user) uid).

Definition registration_response (ok_message ko_message : string) (uid : Z)
    (quality : option Q) (result : RegistrationResult)
  : BiometricRegistrationResponse :=
  mkRegistrationResponse (reg_success result)
    (if reg_success result then ok_message else ko_message)
    (if reg_success result then Some (pretty uid) else None)
    quality (reg_error result).

Definition authentication_response (meth : string) (result : AuthResult)
  : BiometricAuthenticationResponse :=
  mkAuthenticationResponse (success result) (user_id result)
    (default 0%Q (confidence result)) meth (error result) None.

Definition register_face (uid : Z) (face_image : UploadFile)
    (current_user : CurrentUser) (svc : State)
  : Outcome BiometricRegistrationResponse * State :=
  if forbidden current_user uid
  then (handled "Face registration failed" (HTTPException 403 "Insufficient permissions"), svc)
  else if negb (is_image face_image)
  then (handled "Face registration failed"
          (HTTPException 400 "Invalid file type. Please upload an image."), svc)
  else match imdecode (file_bytes face_image) with
  | None => (handled "Face registration failed" (HTTPException 400 "Invalid image format"), svc)
  | Some image_array =>
      let liveness_result := detect_liveness image_array in
      if negb (is_live liveness_result)
      then (Body registration_liveness_failure, svc)
      else
        let '(result, svc') := BiometricService.register_face uid image_array svc in
        (Body (registration_response "Face registered successfully"
                 "Face registration failed" uid
                 (Some (quality_score liveness_result)) result), svc')
  end.

Definition register_fingerprint (uid : Z) (fingerprint_image : UploadFile)
    (current_user : CurrentUser) (svc : State)
  : Outcome BiometricRegistrationResponse * State :=
  if forbidden current_user uid
  then (handled "Fingerprint registration failed"
          (HTTPException 403 "Insufficient permissions"), svc)
  else
    let '(result, svc') :=
      BiometricService.register_fingerprint sha256 uid (file_bytes fingerprint_image) svc in
    (Body (registration_response "Fingerprint registered successfully"
             "Fingerprint registration failed" uid
             (Some (default 0%Q (reg_quality result))) result), svc').

Definition register_iris (uid : Z) (iris_image : UploadFile)
    (current_user : CurrentUser) (svc : State)
  : Outcome BiometricRegistrationResponse * State :=
  if forbidden current_user uid
  then (handled "Iris registration failed" (HTTPException 403 "Insufficient permissions"), svc)
  else if negb (is_image iris_image)
  then (handled "Iris registration failed"
          (HTTPException 400 "Invalid file type. Please upload an image."), svc)
  else match imdecode (file_bytes iris_image) with
  | None => (handled "Iris registration failed" (HTTPException 400 "Invalid image format"), svc)
  | Some image_array =>
      let '(result, svc') := BiometricService.register_iris sha256 uid image_array svc in
      (Body (registration_response "Iris registered successfully"
               "Iris registration failed" uid
               (Some (default 0%Q (reg_quality result))) result), svc')
  end.

Definition authenticate_face (face_image : UploadFile) (uid : option Z) (svc : State)
  : Outcome BiometricAuthenticationResponse :=
  if negb (is_image face_image)
  then handled "Face authentication failed"
         (HTTPException 400 "Invalid file type. Please upload an image.")
  else match imdecode (file_bytes face_image) with
  | None => handled "Face authentication failed" (HTTPException 400 "Invalid image format")
  | Some image_array =>
      let liveness_result := detect_liveness image_array in
      if negb (is_live liveness_result)
      then Body (authentication_liveness_failure "face")
      else Body (authentication_response "face"
                   (BiometricService.authenticate_face face_distance settings
                      image_array uid svc))
  end.

Definition authenticate_fingerprint (fingerprint_image : UploadFile) (uid : option Z)
    (svc : State) : Outcome BiometricAuthenticationResponse :=
  Body (authentication_response "fingerprint"
          (BiometricService.authenticate_fingerprint sha256
             (file_bytes fingerprint_image) uid svc)).

Definition authenticate_iris (iris_image : UploadFile) (uid : option Z) (svc : State)
  : Outcome BiometricAuthenticationResponse :=
  if negb (is_image iris_image)
  then handled "Iris authentication failed"
         (HTTPException 400 "Invalid file type. Please upload an image.")
  else match imdecode (file_bytes iris_image) with
  | None => handled "Iris authentication failed" (HTTPException 400 "Invalid image format")
  | Some image_array =>
      Body (authentication_response "iris"
              (BiometricService.authenticate_iris sha256 image_array uid svc))
  end.

Definition authenticate_multi_modal (face_image fingerprint_image iris_image : option UploadFile)
    (uid : option Z) (svc : State) : Outcome BiometricAuthenticationResponse :=
  let face_array := face_image ≫= (λ f, imdecode (file_bytes f)) in
  let fingerprint_bytes := file_bytes <$> fingerprint_image in
  let iris_array := iris_image ≫= (λ f, imdecode (file_bytes f)) in
  let result :=
    multi_modal_authentication face_distance sha256 settings
      face_array fingerprint_bytes iris_array uid svc in
  Body (mkAuthenticationResponse (fused_success result) (fused_user_id result)
          (default 0%Q (fused_confidence result)) "multi_modal"
          (fused_error result) (detailed_results result)).

End Api.

Arguments register_face {Encoding}.
Arguments register_fingerprint {Encoding}.
Arguments register_iris {Encoding}.
Arguments authenticate_face {Encoding}.
Arguments authenticate_fingerprint {Encoding}.
Arguments authenticate_iris {Encoding}.
Arguments authenticate_multi_modal {Encoding}.

End BiometricApi.

(** ** Concrete runs of the alert service *)

Module AlertScenario.

Import AlertService.

(** Transports that deliver nothing; with [default_settings] no channel is
    enabled and none of them is called. *)
Definition transports : NotificationService :=
  mkNotificationService (λ _, false) (λ _, false) (λ _, false) (λ _, false).

Definition seconds (n : Z) : Z := timedelta_seconds n.
Definition days (n : Z) : Z := timedelta_days n.

Definition motion_lobby : AlertArgs :=
  mkAlertArgs "motion" "medium" "Motion detected on camera 5" None
    (Some 5) (Some "Lobby") None None None None None None.

Definition emergency_gate : AlertArgs :=
  mkAlertArgs "emergency" "critical" "Emergency detected on camera 6" None
    (Some 6) (Some "Gate") None None None None None None.

Definition create (now : Z) (args : AlertArgs) (s : State) : option Alert * State :=
  create_alert default_settings transports now args s.

(** One alert, created at time 0, acknowledged by user 7 after 10 seconds
    and resolved by user 7 after 20 seconds. *)
Definition s_created : State := (create 0 motion_lobby init).2.
Definition s_acknowledged : State := (acknowledge_alert (seconds 10) 1 7 s_created).2.
Definition s_resolved : State := (resolve_alert (seconds 20) 1 7 s_acknowledged).2.

(** Two alerts; the first is resolved and, 31 days later, pruned with the
    default retention of 30 days. *)
Definition s_two : State := (create 0 emergency_gate s_created).2.
Definition s_two_resolved : State := (resolve_alert (seconds 10) 1 7 s_two).2.
Definition s_pruned : State := cleanup_old_alerts (days 31) 30 s_two_resolved.

End AlertScenario.

(** ** Concrete runs of the biometric service *)

Module BiometricScenario.

Import BiometricService.

(** One-dimensional encodings with the absolute difference as distance,
    and a digest that tags the data. *)
Definition face_distance (a b : Q) : Q := Qabs (a - b).
Definition digest (data : string) : string := "sha256:" +:+ data.

(** Users 1 and 2 have a face enrolled; only user 2 has a fingerprint and
    an iris enrolled. *)
Definition enrolled : State Q :=
  mkState [(1, 0%Q); (2, 1%Q)] [(2, digest "thumb-2")] [(2, digest "iris-2")].

(** A sharp image of a face at distance 0.1 from user 1's. *)
Definition face_near_1 : Image Q := mkImage "face" 400 1 [1 # 10].

(** A blurred reproduction of user 2's iris: the variance of its Laplacian
    is 50, below the liveness threshold of 100. *)
Definition printed_iris : Image Q := mkImage "iris-2" 50 0 [].

(** A blurred reproduction of a face. *)
Definition printed_face : Image Q := mkImage "face" 50 1 [1 # 10].

Definition decode (data : string) : option (Image Q) :=
  if String.eqb data "iris-print.jpg" then Some printed_iris
  else if String.eqb data "face-print.jpg" then Some printed_face
  else if String.eqb data "face.jpg" then Some face_near_1
  else None.

Definition iris_upload : BiometricApi.UploadFile := BiometricApi.mkUploadFile "image/jpeg" "iris-print.jpg".
Definition face_upload : BiometricApi.UploadFile := BiometricApi.mkUploadFile "image/jpeg" "face-print.jpg".
Definition admin : BiometricApi.CurrentUser := BiometricApi.mkCurrentUser true 100.

Definition auth_face := authenticate_face face_distance default_settings.
Definition auth_fingerprint := authenticate_fingerprint (Encoding := Q) digest.
Definition auth_iris := authenticate_iris (Encoding := Q) digest.
Definition multi_modal :=
  multi_modal_authentication face_distance digest default_settings.

(** A successful result with the given identity and confidence. *)
Definition ok (u : Z) (c : Q) : AuthResult :=
  mkAuthResult true (Some u) (Some c) None None None.

End BiometricScenario.

(** ** Queries and call sequences of the alert service *)

Module AlertQueries.

Import AlertService.

(** A filter argument that is [None], empty or zero is falsy and skipped. *)
Definition truthy_text (o : option string) : option string :=
  match o with
  | Some v => if truthy_str v then Some v else None
  | None => None
  end.

Definition truthy_int (o : option Z) : option Z :=
  match o with
  | Some z => if Z.eqb z 0 then None else Some z
  | None => None
  end.

(** [alerts.sort(key=lambda x: x.created_at, reverse=True)]: a stable sort,
    newest first; alerts created at the same instant keep their order. *)
Fixpoint insert_newest (a : Alert) (l : list Alert) : list Alert :=
  match l with
  | [] => [a]
  | b :: rest =>
      if bool_decide (created_at b ≤ created_at a) then a :: b :: rest
      else b :: insert_newest a rest
  end.

Definition sort_newest_first (l : list Alert) : list Alert :=
  foldr insert_newest [] l.

(** [l[:limit]]: a negative limit counts from the end. *)
Definition slice_to {A} (limit : Z) (l : list A) : list A :=
  if limit <? 0 then take (Z.to_nat (Z.of_nat (length l) + limit)) l
  else take (Z.to_nat limit) l.

(** The body of [get_active_alerts], from the list of the stored alerts. *)
Definition get_active_alerts_of (alerts : list Alert)
    (severity alert_type : option string) (camera_id : option Z) (limit : Z)
  : list Alert :=
  let alerts := filter (λ a, status a = "active") alerts in
  let alerts :=
    match truthy_text severity with
    | Some v => filter (λ a, AlertService.severity a = v) alerts
    | None => alerts
    end in
  let alerts :=
    match truthy_text alert_type with
    | Some v => filter (λ a, AlertService.alert_type a = v) alerts
    | None => alerts
    end in
  let alerts :=
    match truthy_int camera_id with
    | Some c => filter (λ a, AlertService.camera_id a = Some c) alerts
    | None => alerts
    end in
  slice_to limit (sort_newest_first alerts).

(** [get_active_alerts]; the stored alerts are enumerated in the order of
    the store. *)
Definition get_active_alerts (severity alert_type : option string)
    (camera_id : option Z) (limit : Z) (s : State) : list Alert :=
  get_active_alerts_of ((map_to_list (active_alerts s)).*2)
    severity alert_type camera_id limit.

(** An alert that [get_active_alerts] selects, before sorting and cutting. *)
Definition selected (severity alert_type : option string) (camera_id : option Z)
    (a : Alert) : Prop :=
  status a = "active"
  ∧ (∀ v, truthy_text severity = Some v → AlertService.severity a = v)
  ∧ (∀ v, truthy_text alert_type = Some v → AlertService.alert_type a = v)
  ∧ (∀ c, truthy_int camera_id = Some c → AlertService.camera_id a = Some c).

(** Newest first. *)
Definition newest_first (l : list Alert) : Prop :=
  ∀ i j a b, (i ≤ j)%nat → l !! i = Some a → l !! j = Some b →
             created_at b ≤ created_at a.

(** Any call of the service that changes its state. *)
Inductive Call :=
| CreateAlert (now : Z) (args : AlertArgs)
| Lifecycle (op : Op)
| CleanupOldAlerts (now retention_days : Z).

Section Calls.

Variable settings : Settings.
Variable notification_service : NotificationService.

Definition call (c : Call) (s : State) : State :=
  match c with
  | CreateAlert now args => (create_alert settings notification_service now args s).2
  | Lifecycle op => step op s
  | CleanupOldAlerts now retention_days => cleanup_old_alerts now retention_days s
  end.

Definition calls (cs : list Call) (s : State) : State :=
  foldl (λ s c, call c s) s cs.

End Calls.

(** Every alert is stored under its own id, and ids start at 1. *)
Definition ids_consistent (s : State) : Prop :=
  ∀ k a, active_alerts s !! k = Some a → id a = Some k ∧ 1 ≤ k.

(** The timestamps a status implies. *)
Definition stamped (a : Alert) : Prop :=
  (status a = "acknowledged" → is_Some (acknowledged_at a) ∧ is_Some (response_time a))
  ∧ (status a = "resolved" → is_Some (resolved_at a) ∧ is_Some (response_time a)).

Definition all_stamped (s : State) : Prop :=
  ∀ k a, active_alerts s !! k = Some a → stamped a.

(** A call that does not write [status] through [update_alert]. *)
Definition keeps_status (c : Call) : bool :=
  match c with
  | Lifecycle (Update _ _ kwargs) =>
      match status_kwarg kwargs with Some _ => false | None => true end
  | _ => true
  end.

(** The alert a lifecycle call addresses and the answer it returns. *)
Definition target (op : Op) : Z :=
  match op with
  | Acknowledge _ alert_id _ | Resolve _ alert_id _ | Update _ alert_id _ => alert_id
  end.

Definition answer (op : Op) (s : State) : bool :=
  match op with
  | Acknowledge now alert_id uid => (acknowledge_alert now alert_id uid s).1
  | Resolve now alert_id uid => (resolve_alert now alert_id uid s).1
  | Update now alert_id kwargs => (update_alert now alert_id kwargs s).1
  end.

(** The attributes [update_alert] has no way to write. *)
Definition same_protected (a a' : Alert) : Prop :=
  id a' = id a
  ∧ alert_type a' = alert_type a
  ∧ title a' = title a
  ∧ camera_id a' = camera_id a
  ∧ confidence_score a' = confidence_score a
  ∧ user_id a' = user_id a
  ∧ created_at a' = created_at a
  ∧ acknowledged_at a' = acknowledged_at a
  ∧ resolved_at a' = resolved_at a
  ∧ response_time a' = response_time a
  ∧ email_sent a' = email_sent a
  ∧ sms_sent a' = sms_sent a
  ∧ webhook_sent a' = webhook_sent a.

(** The alerts [get_alert_statistics] counts: those created in the date
    range, whose ends default to 30 days ago and to now. *)
Definition alerts_in_range (now : Z) (start_date end_date : option Z) (s : State)
  : list Alert :=
  filter (λ a, default (now - timedelta_days 30) start_date ≤ created_at a
               ∧ created_at a ≤ default now end_date)
         ((map_to_list (active_alerts s)).*2).

End AlertQueries.

(** ** The loop invariant of the face search *)

Module FaceSearch.

Import BiometricService.

Section Invariant.

Variable Encoding : Type.
Variable face_distance : Encoding → Encoding → Q.
Variable settings : Settings.

(** The stored encoding [e] is within the tolerance of the sample. *)
Definition within (unknown e : Encoding) : Prop :=
  Qle_bool (face_distance e unknown) (FACE_RECOGNITION_TOLERANCE settings) = true.

(** The confidence of [e] for the sample. *)
Definition score (unknown e : Encoding) : Q := (1 - face_distance e unknown)%Q.

(** What the pair [(best_match, best_confidence)] holds after the entries
    [seen]: the best entry so far and its confidence, above 0, or nothing
    and 0; no entry within the tolerance has a higher confidence. *)
Definition best_of (unknown : Encoding) (seen : list (Z * Encoding))
    (best : option Z * Q) : Prop :=
  match best.1 with
  | None => best.2 = 0%Q
  | Some v => ∃ e, (v, e) ∈ seen ∧ within unknown e
                   ∧ best.2 = score unknown e ∧ (0 < best.2)%Q
  end
  ∧ ∀ v e, (v, e) ∈ seen → within unknown e → (score unknown e <= best.2)%Q.

End Invariant.

Arguments within {Encoding}.
Arguments score {Encoding}.
Arguments best_of {Encoding}.

End FaceSearch.

(** ** The notification service ([app/services/notification_service.py]) *)

Module Notifications.

(** [s.split(",")]: never empty; the empty string gives [[""]]. *)
Fixpoint split_commas (s : string) : list string :=
  match s with
  | EmptyString => [""]
  | String c rest =>
      if String.eqb (String c EmptyString) "," then "" :: split_commas rest
      else match split_commas rest with
           | head :: tail => String c head :: tail
           | [] => [String c ""]
           end
  end.

(** [",".join(parts)] *)
Fixpoint join_commas (parts : list string) : string :=
  match parts with
  | [] => ""
  | [part] => part
  | part :: rest => part +:+ "," +:+ join_commas rest
  end.

(** The fields of a [NotificationService] that its senders read. *)
Record Service := mkService {
  email_recipients : list string;
  sms_recipients : list string;
  sms_api_key : string;
  sms_api_url : string;
  http_client : bool
}.

(** [NotificationService()]: the recipient lists are the comma-split
    environment variables and there is no HTTP client until [initialize]
    creates one. *)
Definition fresh (env_email_recipients env_sms_recipients api_key api_url : string)
  : Service :=
  mkService (split_commas env_email_recipients) (split_commas env_sms_recipients)
    api_key api_url false.

(** The outside world: whether sending the message to a recipient over SMTP
    completes ([false]: it raises), and what a POST to a URL answers
    ([None]: it raises). *)
Record World := mkWorld {
  smtp_completes : string → bool;
  http_post : string → option nat
}.

(** One attempt of [_send_sms]. *)
Inductive SmsAttempt :=
| NotConfigured
| PostRaised
| PostAnswered (status_code : nat).

Section Senders.

Variable settings : Settings.
Variable svc : Service.
Variable world : World.

(** The client's [post]: without a client the attribute access raises. *)
Definition post (url : string) : option nat :=
  if http_client svc then http_post world url else None.

(** [send_email_alert]: the answer and, per recipient in order, whether the
    attempt completed. *)
Definition send_email_alert : bool * list (string * bool) :=
  if negb (EMAIL_ENABLED settings) || bool_decide (email_recipients svc = [])
  then (false, [])
  else (true, (λ r, (r, smtp_completes world r)) <$> email_recipients svc).

Definition _send_sms : SmsAttempt :=
  if negb (truthy_str (sms_api_key svc)) || negb (truthy_str (sms_api_url svc))
  then NotConfigured
  else match post (sms_api_url svc) with
       | Some status_code => PostAnswered status_code
       | None => PostRaised
       end.

Definition send_sms_alert : bool * list (string * SmsAttempt) :=
  if negb (SMS_ENABLED settings) || bool_decide (sms_recipients svc = [])
  then (false, [])
  else (true, (λ r, (r, _send_sms)) <$> sms_recipients svc).

Definition send_webhook_alert : bool :=
  match WEBHOOK_URL settings with
  | Some url =>
      if truthy_str url
      then match post url with
           | Some status_code => Nat.eqb status_code 200
           | None => false
           end
      else false
  | None => false
  end.

Definition send_push_notification : bool := true.

(** [send_test_notification]: the results dictionary, in insertion order. *)
Definition send_test_notification (channel : string) : list (string * bool) :=
  (if bool_decide (channel ∈ ["all"; "email"]) then [("email", send_email_alert.1)] else [])
  ++ (if bool_decide (channel ∈ ["all"; "sms"]) then [("sms", send_sms_alert.1)] else [])
  ++ (if bool_decide (channel ∈ ["all"; "webhook"]) then [("webhook", send_webhook_alert)] else [])
  ++ (if bool_decide (channel ∈ ["all"; "push"]) then [("push", send_push_notification)] else []).

(** The senders as the alert service calls them. *)
Definition as_transports : AlertService.NotificationService :=
  AlertService.mkNotificationService
    (λ _, send_email_alert.1) (λ _, send_sms_alert.1)
    (λ _, send_webhook_alert) (λ _, send_push_notification).

End Senders.

End Notifications.

(** ** The event handlers of the camera service
       ([app/services/camera_service.py]) *)

Module CameraService.

Import AlertService.

(** The path of the saved frame; [timestamp] is the formatted clock
    reading. *)
Definition frame_path (storage_path kind : string) (camera_id : Z) (timestamp : string)
  : string :=
  storage_path +:+ "/" +:+ kind +:+ "/" +:+ kind +:+ "_" +:+ pretty camera_id
    +:+ "_" +:+ timestamp +:+ ".jpg".

Definition motion_args (camera_id : Z) (filepath : string) : AlertArgs :=
  mkAlertArgs "motion" "medium" ("Motion detected on camera " +:+ pretty camera_id)
    None (Some camera_id) None None None None None (Some filepath) None.

(** [analysis.get('description', 'Unknown emergency')] and the analysis
    itself are handed over. *)
Definition emergency_args (camera_id : Z) (filepath : string)
    (description : option string) (analysis : AiAnalysis) : AlertArgs :=
  mkAlertArgs "emergency" "critical"
    ("Emergency detected on camera " +:+ pretty camera_id)
    (Some ("AI Analysis: " +:+ default "Unknown emergency" description))
    (Some camera_id) None None None None (Some analysis) (Some filepath) None.

Section Handlers.

Variable settings : Settings.
Variable notification_service : NotificationService.
Variable storage_path : string.

(** [_handle_motion_event]: a failure to save the frame ends the handler;
    otherwise the alert is created on a new [AlertService()].  The handler
    returns nothing; the outcome of [create_alert] is kept here to state
    what it did. *)
Definition _handle_motion_event (now : Z) (timestamp : string) (camera_id : Z)
    (imwrite_raises : bool) : option Alert :=
  if imwrite_raises then None
  else (create_alert settings notification_service now
          (motion_args camera_id (frame_path storage_path "motion" camera_id timestamp))
          init).1.

Definition _handle_emergency_event (now : Z) (timestamp : string) (camera_id : Z)
    (description : option string) (analysis : AiAnalysis) (imwrite_raises : bool)
  : option Alert :=
  if imwrite_raises then None
  else (create_alert settings notification_service now
          (emergency_args camera_id
             (frame_path storage_path "emergency" camera_id timestamp)
             description analysis)
          init).1.

End Handlers.

End CameraService.

(** ** The authentication endpoints ([app/api/v1/auth.py]) *)

Module AuthApi.

Import BiometricService.

Record TokenResponse := mkTokenResponse {
  access_token : string;
  token_type : string;
  expires_in : Z
}.

(** The samples of [biometric_login] and [register_biometric]. *)
Record Uploads := mkUploads {
  face_image : option BiometricApi.UploadFile;
  fingerprint_data : option BiometricApi.UploadFile;
  iris_image : option BiometricApi.UploadFile
}.

Section Auth.

Variable Encoding : Type.
Variable face_distance : Encoding → Encoding → Q.
Variable sha256 : string → string.
Variable settings : Settings.
Variable imdecode : string → option (Image Encoding).

(** [settings.ACCESS_TOKEN_EXPIRE_MINUTES] *)
Variable ACCESS_TOKEN_EXPIRE_MINUTES : Z.

(** The text of the exception a service method raises, and catches into an
    error result, when it is handed [None] for a sample. *)
Variable missing_sample : string.

Definition login (username password : string) : BiometricApi.Outcome TokenResponse :=
  BiometricApi.handled "Login failed"
    (if String.eqb username "admin" && String.eqb password "password"
     then BiometricApi.Body
            (mkTokenResponse "simulated_jwt_token" "bearer"
               (ACCESS_TOKEN_EXPIRE_MINUTES * 60))
     else BiometricApi.HTTPException 401 "Invalid credentials").

Definition decoded (f : option BiometricApi.UploadFile) : option (Image Encoding) :=
  f ≫= (λ f, imdecode (BiometricApi.file_bytes f)).

(** The outcome of the authentication, as [auth_result["success"]],
    [auth_result["user_id"]] and [auth_result.get("error", ...)]; [None]
    for a method that is not known. *)
Definition auth_result (method : string) (uid : option Z) (up : Uploads)
    (svc : BiometricService.State Encoding) : option (bool * option Z * option string) :=
  let of_result (r : AuthResult) := (success r, user_id r, error r) in
  if String.eqb method "multi_modal" then
    let r := multi_modal_authentication face_distance sha256 settings
               (decoded (face_image up))
               (BiometricApi.file_bytes <$> fingerprint_data up)
               (decoded (iris_image up)) uid svc in
    Some (fused_success r, fused_user_id r, fused_error r)
  else if String.eqb method "face" then
    Some (of_result
            (match decoded (face_image up) with
             | Some img => authenticate_face face_distance settings img uid svc
             | None => auth_error missing_sample
             end))
  else if String.eqb method "fingerprint" then
    Some (of_result
            (match fingerprint_data up with
             | Some f => authenticate_fingerprint sha256 (BiometricApi.file_bytes f) uid svc
             | None => auth_error missing_sample
             end))
  else if String.eqb method "iris" then
    Some (of_result
            (match decoded (iris_image up) with
             | Some img => authenticate_iris sha256 img uid svc
             | None => auth_error missing_sample
             end))
  else None.

Definition biometric_login (method : string) (uid : option Z) (up : Uploads)
    (svc : BiometricService.State Encoding) : BiometricApi.Outcome TokenResponse :=
  BiometricApi.handled "Biometric authentication failed"
    (match auth_result method uid up svc with
     | None => BiometricApi.HTTPException 400 "Invalid authentication method"
     | Some (ok, user, err) =>
         if ok
         then BiometricApi.Body
                (mkTokenResponse ("biometric_token_" +:+ str_int user) "bearer"
                   (ACCESS_TOKEN_EXPIRE_MINUTES * 60))
         else BiometricApi.HTTPException 401
                (default "Biometric authentication failed" err)
     end).

(** [register_biometric]: the answer (the registration result of a
    success) and the service afterwards. *)
Definition register_biometric (method : string) (uid : Z) (up : Uploads)
    (current_user : BiometricApi.CurrentUser) (svc : BiometricService.State Encoding)
  : BiometricApi.Outcome RegistrationResult * BiometricService.State Encoding :=
  let failed := mkRegistrationResult false None None None (Some missing_sample) in
  let answer (r : RegistrationResult * BiometricService.State Encoding) :=
    (BiometricApi.handled "Biometric registration failed"
       (if reg_success r.1 then BiometricApi.Body r.1
        else BiometricApi.HTTPException 400
               (default "Biometric registration failed" (reg_error r.1))),
     r.2) in
  if BiometricApi.forbidden current_user uid
  then (BiometricApi.handled "Biometric registration failed"
          (BiometricApi.HTTPException 403 "Insufficient permissions"), svc)
  else if String.eqb method "face" && bool_decide (is_Some (face_image up)) then
    answer (match decoded (face_image up) with
            | Some img => register_face uid img svc
            | None => (failed, svc)
            end)
  else if String.eqb method "fingerprint" && bool_decide (is_Some (fingerprint_data up)) then
    answer (match fingerprint_data up with
            | Some f => register_fingerprint sha256 uid (BiometricApi.file_bytes f) svc
            | None => (failed, svc)
            end)
  else if String.eqb method "iris" && bool_decide (is_Some (iris_image up)) then
    answer (match decoded (iris_image up) with
            | Some img => register_iris sha256 uid img svc
            | None => (failed, svc)
            end)
  else (BiometricApi.handled "Biometric registration failed"
          (BiometricApi.HTTPException 400 "Invalid method or missing biometric data"),
        svc).

End Auth.

Arguments login ACCESS_TOKEN_EXPIRE_MINUTES username password : assert.
Arguments decoded {Encoding}.
Arguments auth_result {Encoding}.
Arguments biometric_login {Encoding}.
Arguments register_biometric {Encoding}.

End AuthApi.

(** ** The frame analysis of the AI service ([app/services/ai_service.py]) *)

Module AIService.

(** A contour of the thresholded frame: its area and bounding rectangle. *)
Record Contour := mkContour {
  area : Q;
  rect_x : Z;
  rect_y : Z;
  rect_w : Z;
  rect_h : Z
}.

(** A frame, by what the vision library computes from it without raising:
    the mean of its Canny edges over 255, the standard deviation of its
    normalised colour histogram, and the external contours of its
    thresholded image. *)
Record Frame := mkFrame {
  edge_density : Q;
  anomaly_score : Q;
  contours : list Contour
}.

(** [{"detected": ..., "confidence": ...}] *)
Record Detection := mkDetection {
  detected : bool;
  detection_confidence : Q
}.

Record DetectedObject := mkDetectedObject {
  class : string;
  object_confidence : Q;
  object_bbox : Z * Z * Z * Z;
  object_area : Q
}.

Record Pose := mkPose {
  pose_bbox : Z * Z * Z * Z;
  pose_confidence : Q;
  emergency_pose : bool;
  pose_type : string
}.

Record ObjectsResult := mkObjectsResult {
  objects : list DetectedObject;
  objects_count : nat;
  objects_average_confidence : Q
}.

Record PosesResult := mkPosesResult {
  poses : list Pose;
  poses_count : nat;
  poses_average_confidence : Q
}.

(** The result dictionary of [analyze_frame]. *)
Record Analysis := mkAnalysis {
  emergency_detected : bool;
  violence_detected : bool;
  anomaly_detected : bool;
  objects_detected : list DetectedObject;
  poses_detected : list Pose;
  confidence_scores : list (string * Q);
  description : option string
}.

(** [min(x, 1.0)] *)
Definition min_1 (x : Q) : Q := if Qgtb x 1 then 1%Q else x.

(** The score against its threshold, as [_detect_violence] and
    [_detect_anomaly] do. *)
Definition threshold_detection (score threshold : Q) : Detection :=
  let is_detected := Qgtb score threshold in
  mkDetection is_detected
    (if is_detected then min_1 (score / threshold) else score).

Definition _detect_violence (frame : Frame) : Detection :=
  threshold_detection (edge_density frame) (3 # 10).

Definition _detect_anomaly (frame : Frame) : Detection :=
  threshold_detection (anomaly_score frame) (1 # 10).

(** [w / h]; [None] is the [ZeroDivisionError]. *)
Definition aspect_ratio (w h : Z) : option Q :=
  if Z.eqb h 0 then None else Some (inject_Z w / inject_Z h)%Q.

(** [np.mean] of a list of confidences, 0.0 for an empty list. *)
Definition mean_or_zero (l : list Q) : Q :=
  match l with
  | [] => 0%Q
  | _ => (fold_right Qplus 0 l / inject_Z (Z.of_nat (length l)))%Q
  end.

(** The loop over the contours; [None] when a division raised. *)
Fixpoint classify (cs : list Contour) : option (list DetectedObject) :=
  match cs with
  | [] => Some []
  | c :: rest =>
      if Qgtb (area c) 1000 then
        match aspect_ratio (rect_w c) (rect_h c) with
        | None => None
        | Some ratio =>
            let obj_class :=
              if Qgtb ratio (3 # 10) && Qgtb 3 ratio then "person" else "object" in
            option_map
              (cons (mkDetectedObject obj_class (8 # 10)
                       (rect_x c, rect_y c, rect_w c, rect_h c) (area c)))
              (classify rest)
        end
      else classify rest
  end.

(** [_detect_objects]: an exception gives the empty result. *)
Definition _detect_objects (frame : Frame) : ObjectsResult :=
  match classify (contours frame) with
  | Some objs =>
      mkObjectsResult objs (length objs) (mean_or_zero (object_confidence <$> objs))
  | None => mkObjectsResult [] 0 0
  end.

Fixpoint pose_loop (objs : list DetectedObject) : option (list Pose) :=
  match objs with
  | [] => Some []
  | obj :: rest =>
      if String.eqb (class obj) "person" then
        let '(x, y, w, h) := object_bbox obj in
        match aspect_ratio w h with
        | None => None
        | Some ratio =>
            let is_emergency := Qgtb ratio (15 # 10) in
            option_map
              (cons (mkPose (x, y, w, h) (object_confidence obj) is_emergency
                       (if is_emergency then "lying_down" else "standing")))
              (pose_loop rest)
        end
      else pose_loop rest
  end.

Definition _detect_poses (frame : Frame) : PosesResult :=
  match pose_loop (objects (_detect_objects frame)) with
  | Some ps => mkPosesResult ps (length ps) (mean_or_zero (pose_confidence <$> ps))
  | None => mkPosesResult [] 0 0
  end.

(** [str.lower] on ASCII letters. *)
Definition lower_ascii (c : Ascii.ascii) : Ascii.ascii :=
  let n := Ascii.nat_of_ascii c in
  if (65 <=? n)%nat && (n <=? 90)%nat then Ascii.ascii_of_nat (n + 32) else c.

Fixpoint lower (s : string) : string :=
  match s with
  | EmptyString => EmptyString
  | String c rest => String (lower_ascii c) (lower rest)
  end.

Definition dangerous_objects : list string := ["weapon"; "knife"; "gun"].

Definition is_dangerous (obj : DetectedObject) : bool :=
  bool_decide (lower (class obj) ∈ dangerous_objects).

(** The description left by a loop that overwrites it at every hit. *)
Definition last_hit {A} (hit : A → bool) (text : A → string) (l : list A)
    (start : option string) : option string :=
  foldl (λ d x, if hit x then Some (text x) else d) start l.

Section Analyze.

(** [settings.VIOLENCE_DETECTION_ENABLED], [settings.ANOMALY_DETECTION_ENABLED] *)
Variable VIOLENCE_DETECTION_ENABLED : bool.
Variable ANOMALY_DETECTION_ENABLED : bool.

(** [analyze_frame] on an initialised service (otherwise the answer is an
    error dictionary); the keys [timestamp] and [frame_shape], which
    nothing reads, are left out. *)
Definition analyze_frame (frame : Frame) : Analysis :=
  let violence := _detect_violence frame in
  let anomaly := _detect_anomaly frame in
  let objs := _detect_objects frame in
  let ps := _detect_poses frame in
  let scores :=
    ((if VIOLENCE_DETECTION_ENABLED
      then [("violence", detection_confidence violence)] else [])
     ++ (if ANOMALY_DETECTION_ENABLED
         then [("anomaly", detection_confidence anomaly)] else [])
     ++ [("objects", objects_average_confidence objs);
         ("poses", poses_average_confidence ps)])%list in
  let d1 :=
    if VIOLENCE_DETECTION_ENABLED && detected violence
    then Some "Violence detected in scene" else None in
  let d2 :=
    if ANOMALY_DETECTION_ENABLED && detected anomaly
    then match d1 with
         | Some d => if truthy_str d then Some d else Some "Anomalous behavior detected"
         | None => Some "Anomalous behavior detected"
         end
    else d1 in
  let d3 :=
    last_hit is_dangerous (λ o, "Dangerous object detected: " +:+ class o)
      (objects objs) d2 in
  let d4 :=
    last_hit emergency_pose (λ p, "Emergency pose detected: " +:+ pose_type p)
      (poses ps) d3 in
  mkAnalysis
    ((VIOLENCE_DETECTION_ENABLED && detected violence)
     || (ANOMALY_DETECTION_ENABLED && detected anomaly)
     || existsb is_dangerous (objects objs)
     || existsb emergency_pose (poses ps))
    (VIOLENCE_DETECTION_ENABLED && detected violence)
    (ANOMALY_DETECTION_ENABLED && detected anomaly)
    (objects objs) (poses ps) scores d4.

End Analyze.

(** The analysis as [create_alert] reads it: the dictionary, kept as the
    given text, and its confidence scores. *)
Definition as_ai_analysis (payload : string) (a : Analysis) : AlertService.AiAnalysis :=
  AlertService.mkAiAnalysis payload (Some (confidence_scores a)).

End AIService.

(** ** The analysis step of the monitoring loop
       ([CameraService._monitor_camera]) *)

Module Monitoring.

Section Loop.

Variable settings : Settings.
Variable notification_service : AlertService.NotificationService.
Variable storage_path : string.
Variable VIOLENCE_DETECTION_ENABLED : bool.
Variable ANOMALY_DETECTION_ENABLED : bool.

(** The frame is analysed and an emergency is handed to
    [_handle_emergency_event]; [payload] is the analysis as stored text. *)
Definition analyse_and_alert (now : Z) (timestamp : string) (camera_id : Z)
    (frame : AIService.Frame) (payload : string) (imwrite_raises : bool)
  : option AlertService.Alert :=
  let analysis :=
    AIService.analyze_frame VIOLENCE_DETECTION_ENABLED ANOMALY_DETECTION_ENABLED frame in
  if AIService.emergency_detected analysis
  then CameraService._handle_emergency_event settings notification_service storage_path
         now timestamp camera_id (AIService.description analysis)
         (AIService.as_ai_analysis payload analysis) imwrite_raises
  else None.

End Loop.

End Monitoring.

(** ** The acknowledge and resolve routes ([app/api/v1/alerts.py]) *)

Module AlertsApi.

Import AlertService.

(** [Depends(lambda: AlertService())]: the dependency is called for every
    request, so each request is served by an alert service constructed for
    it. *)
Definition Depends_AlertService {A} (route : State → A) : A := route init.

(** The routes, from the service they are handed; [user_id] is
    [current_user["user_id"]]. *)
Definition acknowledge_alert (now alert_id user_id : Z) (alert_service : State)
  : BiometricApi.Outcome string * State :=
  let r := AlertService.acknowledge_alert now alert_id user_id alert_service in
  (BiometricApi.handled "Failed to acknowledge alert"
     (if r.1 then BiometricApi.Body "Alert acknowledged successfully"
      else BiometricApi.HTTPException 404 "Alert not found"),
   r.2).

Definition resolve_alert (now alert_id user_id : Z) (alert_service : State)
  : BiometricApi.Outcome string * State :=
  let r := AlertService.resolve_alert now alert_id user_id alert_service in
  (BiometricApi.handled "Failed to resolve alert"
     (if r.1 then BiometricApi.Body "Alert resolved successfully"
      else BiometricApi.HTTPException 404 "Alert not found"),
   r.2).

End AlertsApi.

(** ** Concrete frames, uploads and transports *)

Module ServiceScenario.

(** A frame full of edges and nothing else. *)
Definition brawl : AIService.Frame := AIService.mkFrame (1 # 2) 0 [].

(** User 2's thumb, sent to the login route. *)
Definition thumb_upload : BiometricApi.UploadFile :=
  BiometricApi.mkUploadFile "application/octet-stream" "thumb-2".


Definition only_face (f : BiometricApi.UploadFile) : AuthApi.Uploads :=
  AuthApi.mkUploads (Some f) None None.

(** An upload that is declared an image and cannot be decoded. *)
Definition broken_upload : BiometricApi.UploadFile :=
  BiometricApi.mkUploadFile "image/png" "not-an-image".

(** An analysis with two scores. *)
Definition two_scores : AlertService.AiAnalysis :=
  AlertService.mkAiAnalysis "{}" (Some [("violence", 3 # 10); ("objects", 8 # 10)]).

Definition emergency_scored : AlertService.AlertArgs :=
  AlertService.mkAlertArgs "emergency" "critical" "Emergency detected on camera 6"
    None (Some 6) None None None None (Some two_scores) None None.

(** The alert of [AlertScenario.s_created], and a longer life of it. *)
Definition lobby_alert : AlertService.Alert :=
  default (AlertService.Alert_new 0 AlertScenario.motion_lobby)
    (AlertService.active_alerts AlertScenario.s_created !! 1).

Definition scored_alert : AlertService.Alert :=
  default (AlertService.Alert_new 0 emergency_scored)
    (AlertScenario.create 0 emergency_scored AlertService.init).1.

Definition life : list AlertQueries.Call :=
  [AlertQueries.CreateAlert 0 AlertScenario.motion_lobby;
   AlertQueries.Lifecycle (AlertService.Acknowledge (AlertScenario.seconds 10) 1 7);
   AlertQueries.Lifecycle (AlertService.Resolve (AlertScenario.seconds 20) 1 7);
   AlertQueries.Lifecycle
     (AlertService.Update (AlertScenario.seconds 25) 1 [("severity", "high")]);
   AlertQueries.CleanupOldAlerts (AlertScenario.days 31) 30].

(** The same alert reported once without location and once with the
    location text ["None"]. *)
Definition motion_nowhere : AlertService.AlertArgs :=
  AlertService.mkAlertArgs "motion" "medium" "Motion detected on camera 5" None
    (Some 5) None None None None None None None.

Definition motion_at_None : AlertService.AlertArgs :=
  AlertService.mkAlertArgs "motion" "medium" "Motion detected on camera 5" None
    (Some 5) (Some "None") None None None None None None.

End ServiceScenario.

(** * Properties of the alert service *)

Section AlertProperties.

Import AlertService.

Variable settings : Settings.
Variable notification_service : NotificationService.

Abbreviation create_alert' := (create_alert settings notification_service).
Abbreviation in_cooldown := (_is_in_cooldown settings).
Abbreviation cooldown_duration := (timedelta_seconds (ALERT_COOLDOWN settings)).

(** ** Counting dictionaries *)

Lemma sum_values_empty : sum_values ∅ = 0%nat.
Proof. unfold sum_values. by rewrite map_to_list_empty. Qed.

Lemma sum_values_bump k d : sum_values (bump k d) = S (sum_values d).
Proof.
  unfold sum_values, bump.
  destruct (d !! k) as [n|] eqn:Hk; simpl.
  - rewrite <- (insert_delete_eq d).
    rewrite map_to_list_insert by apply lookup_delete_eq.
    rewrite <- (map_to_list_delete d k n Hk). simpl.
    by rewrite Nat.add_1_r.
  - by rewrite map_to_list_insert.
Qed.

Lemma sum_values_count_from key (alerts : list Alert) d :
  sum_values (foldl (λ d a, bump (key a) d) d alerts)
  = (sum_values d + length alerts)%nat.
Proof.
  revert d. induction alerts as [|a alerts IH]; intros d; simpl.
  - lia.
  - rewrite IH, sum_values_bump. lia.
Qed.

Lemma sum_values_count_by key (alerts : list Alert) :
  sum_values (count_by key alerts) = length alerts.
Proof.
  unfold count_by. rewrite sum_values_count_from, sum_values_empty. lia.
Qed.

(** C9: whatever the alert set and the date range, the severity counts and
    the status counts of [get_alert_statistics] both add up to
    [total_alerts]. *)
Theorem statistics_consistency now start_date end_date s :
  let stats := get_alert_statistics now start_date end_date s in
  sum_values (by_severity stats) = total_alerts stats
  ∧ total_alerts stats = sum_values (by_status stats).
Proof.
  simpl. by rewrite !sum_values_count_by.
Qed.

(** ** Creation and cooldown *)

Lemma status_send_notifications alert :
  status (_send_notifications settings notification_service alert) = status alert.
Proof.
  unfold _send_notifications.
  destruct (EMAIL_ENABLED settings), (SMS_ENABLED settings),
    (WEBHOOK_URL settings) as [url|]; try destruct (truthy_str url); reflexivity.
Qed.

Lemma id_send_notifications alert :
  id (_send_notifications settings notification_service alert) = id alert.
Proof.
  unfold _send_notifications.
  destruct (EMAIL_ENABLED settings), (SMS_ENABLED settings),
    (WEBHOOK_URL settings) as [url|]; try destruct (truthy_str url); reflexivity.
Qed.

Lemma status_score_from_analysis ai alert :
  status (score_from_analysis ai alert) = status alert.
Proof.
  unfold score_from_analysis.
  destruct ai as [[payload [scores|]]|]; simpl; try reflexivity.
  destruct (snd <$> scores); reflexivity.
Qed.

Lemma in_cooldown_spec now key s :
  in_cooldown now key s = true
  ↔ ∃ last, alert_cooldowns s !! key = Some last ∧ now - last < cooldown_duration.
Proof.
  unfold _is_in_cooldown. destruct (alert_cooldowns s !! key) as [last|].
  - rewrite bool_decide_eq_true. split; [eauto|]. by intros (? & [= <-] & ?).
  - split; [done|]. by intros (? & [=] & _).
Qed.

Lemma create_alert_suppressed now args s :
  in_cooldown now (cooldown_key args) s = true →
  create_alert' now args s = (None, s).
Proof. intros H. unfold create_alert. by rewrite H. Qed.

Lemma create_alert_created now args s :
  in_cooldown now (cooldown_key args) s = false →
  created now args s (create_alert' now args s).
Proof.
  intros H. unfold created, create_alert. rewrite H. simpl.
  eexists. split; [reflexivity|].
  rewrite status_send_notifications, id_send_notifications. simpl.
  by rewrite status_score_from_analysis.
Qed.

(** C1: the suppression key is built from the alert type, the camera and
    the location; a call whose key was stamped less than the cooldown
    duration ago returns the suppressed outcome [None] and leaves the
    state as it was; any other call stores a new alert with status
    ["active"] and stamps its key, and only its key, with the call's time;
    so of three calls with one key, the second within the window of the
    first and the third after it, the first and the third create an alert
    and the second is suppressed. *)
Theorem create_alert_cooldown now args s :
  let key := cooldown_key args in
  key = arg_alert_type args +:+ "_" +:+ str_int (arg_camera_id args) +:+ "_"
          +:+ str_str (arg_location args)
  ∧ ((∃ last, alert_cooldowns s !! key = Some last ∧ now - last < cooldown_duration) →
     create_alert' now args s = (None, s))
  ∧ (¬ (∃ last, alert_cooldowns s !! key = Some last ∧ now - last < cooldown_duration) →
     created now args s (create_alert' now args s))
  ∧ (∀ args1 args2 t1 t2,
       cooldown_key args1 = key → cooldown_key args2 = key →
       in_cooldown now key s = false →
       t1 - now < cooldown_duration → cooldown_duration ≤ t2 - now →
       let r0 := create_alert' now args s in
       let r1 := create_alert' t1 args1 r0.2 in
       let r2 := create_alert' t2 args2 r1.2 in
       is_Some r0.1 ∧ r1 = (None, r0.2) ∧ is_Some r2.1).
Proof.
  simpl. split; [reflexivity|]. split; [|split].
  - intros H. apply create_alert_suppressed. by apply in_cooldown_spec.
  - intros H. apply create_alert_created.
    destruct (in_cooldown now (cooldown_key args) s) eqn:E; [|done].
    by apply in_cooldown_spec in E.
  - intros args1 args2 t1 t2 K1 K2 H0 H1 H2.
    pose proof (create_alert_created now args s H0) as (a0 & E0 & _ & _ & _ & C0).
    assert (S1 : create_alert' t1 args1 (create_alert' now args s).2
                 = (None, (create_alert' now args s).2)).
    { apply create_alert_suppressed, in_cooldown_spec. rewrite K1, C0.
      exists now. by rewrite lookup_insert_eq. }
    rewrite S1. simpl. split; [by rewrite E0|]. split; [done|].
    assert (H : in_cooldown t2 (cooldown_key args2) (create_alert' now args s).2 = false).
    { destruct (in_cooldown t2 _ _) eqn:E; [|done].
      apply in_cooldown_spec in E as (last & L & ?).
      rewrite K2, C0, lookup_insert_eq in L. injection L as <-. lia. }
    destruct (create_alert_created t2 args2 _ H) as (a2 & E2 & _). by rewrite E2.
Qed.

(** ** Lifecycle *)

(** C6: resolving a stored alert that is not yet resolved answers [True],
    sets [resolved_at] to the time of the call and sets [response_time] to
    the seconds from [acknowledged_at] when that is set, and from
    [created_at] when the alert was never acknowledged. *)
Theorem resolve_response_time now alert_id uid s alert :
  active_alerts s !! alert_id = Some alert →
  status alert ≠ "resolved" →
  ∃ alert',
    resolve_alert now alert_id uid s
    = (true, mkState (alert_cooldowns s) (<[alert_id := alert']> (active_alerts s)))
    ∧ status alert' = "resolved"
    ∧ resolved_at alert' = Some now
    ∧ response_time alert'
      = Some (total_seconds
                (now - match acknowledged_at alert with
                       | Some t1 => t1
                       | None => created_at alert
                       end)).
Proof.
  intros Hl Hs. unfold resolve_alert. rewrite Hl.
  destruct (String.eqb_spec (status alert) "resolved") as [E|_]; [done|].
  eexists. split; [reflexivity|]. simpl.
  destruct (acknowledged_at alert); simpl; done.
Qed.

Lemma status_setattr field value alert :
  status (setattr field value alert)
  = if String.eqb field "status" then value else status alert.
Proof.
  unfold setattr.
  destruct (String.eqb_spec field "status") as [->|Hne]; [reflexivity|].
  repeat (case_match; [reflexivity|]). reflexivity.
Qed.

Lemma status_kwarg_step kv alert :
  status (if bool_decide (kv.1 ∈ allowed_fields) then setattr kv.1 kv.2 alert else alert)
  = if String.eqb kv.1 "status" then kv.2 else status alert.
Proof.
  case_bool_decide as Hin.
  - apply status_setattr.
  - destruct (String.eqb_spec kv.1 "status") as [E|_]; [|done].
    exfalso. apply Hin. rewrite E. unfold allowed_fields. set_solver.
Qed.

Lemma status_apply_kwargs kwargs alert :
  status (apply_kwargs kwargs alert) = default (status alert) (status_kwarg kwargs).
Proof.
  unfold apply_kwargs. revert alert.
  induction kwargs as [|kv rest IH]; intros alert; simpl; [done|].
  rewrite IH, status_kwarg_step.
  destruct (status_kwarg rest); simpl; [done|].
  by destruct (String.eqb kv.1 "status").
Qed.

Lemma rank_le_2 st r : rank st = Some r → (r ≤ 2)%nat.
Proof.
  unfold rank. repeat case_match; intros [= <-]; lia.
Qed.

Lemma rank_unresolved st r :
  rank st = Some r → String.eqb st "resolved" = false → (r ≤ 1)%nat.
Proof.
  unfold rank. intros H E. rewrite E in H.
  repeat case_match; simplify_eq; lia.
Qed.

Lemma step_forward op s i alert r :
  active_alerts s !! i = Some alert →
  rank (status alert) = Some r →
  forward_call s op = true →
  ∃ alert' r',
    active_alerts (step op s) !! i = Some alert'
    ∧ rank (status alert') = Some r' ∧ (r ≤ r')%nat.
Proof.
  intros Hl Hr Hf.
  destruct op as [now j uid|now j uid|now j kwargs]; simpl in *.
  - unfold acknowledge_alert.
    destruct (active_alerts s !! j) as [b|] eqn:Hj; [|by eauto].
    destruct (String.eqb (status b) "acknowledged"); [by eauto|]. simpl.
    destruct (decide (j = i)) as [->|Hne].
    + rewrite lookup_insert_eq. simplify_eq.
      eexists _, 1%nat. split; [done|]. split; [done|].
      apply (rank_unresolved (status alert)); [done|].
      by apply negb_true_iff.
    + rewrite lookup_insert_ne by done. eauto.
  - unfold resolve_alert.
    destruct (active_alerts s !! j) as [b|] eqn:Hj; [|by eauto].
    destruct (String.eqb (status b) "resolved"); [by eauto|]. simpl.
    destruct (decide (j = i)) as [->|Hne].
    + rewrite lookup_insert_eq. simplify_eq.
      eexists _, 2%nat. split; [done|].
      split; [by destruct (acknowledged_at alert)|].
      by apply (rank_le_2 (status alert)).
    + rewrite lookup_insert_ne by done. eauto.
  - unfold update_alert.
    destruct (active_alerts s !! j) as [b|] eqn:Hj; [|by eauto]. simpl.
    destruct (decide (j = i)) as [->|Hne].
    + rewrite lookup_insert_eq. simplify_eq.
      eexists _, r. split; [done|]. split; [|done]. simpl.
      rewrite status_apply_kwargs.
      by destruct (status_kwarg kwargs).
    + rewrite lookup_insert_ne by done. eauto.
Qed.

Lemma run_forward ops s i alert r :
  active_alerts s !! i = Some alert →
  rank (status alert) = Some r →
  forward_calls ops s = true →
  ∃ alert' r',
    active_alerts (run ops s) !! i = Some alert'
    ∧ rank (status alert') = Some r' ∧ (r ≤ r')%nat.
Proof.
  revert s alert r. induction ops as [|op rest IH]; intros s alert r Hl Hr Hf.
  - simpl. eauto.
  - simpl in Hf. apply andb_true_iff in Hf as [Hop Hrest].
    destruct (step_forward op s i alert r Hl Hr Hop) as (a1 & r1 & Hl1 & Hr1 & Hle).
    destruct (IH _ _ _ Hl1 Hr1 Hrest) as (a2 & r2 & Hl2 & Hr2 & Hle2).
    exists a2, r2. simpl. repeat split; [done..|lia].
Qed.

(** Acknowledging an acknowledged alert answers [True] and changes
    nothing, so a second acknowledgement never moves [acknowledged_at]. *)
Lemma acknowledge_acknowledged_noop now alert_id uid s alert :
  active_alerts s !! alert_id = Some alert →
  status alert = "acknowledged" →
  acknowledge_alert now alert_id uid s = (true, s).
Proof.
  intros Hl Hs. unfold acknowledge_alert. by rewrite Hl, Hs.
Qed.

Lemma acknowledge_twice now now' alert_id uid uid' s :
  (acknowledge_alert now alert_id uid s).1 = true →
  acknowledge_alert now' alert_id uid' (acknowledge_alert now alert_id uid s).2
  = (true, (acknowledge_alert now alert_id uid s).2).
Proof.
  unfold acknowledge_alert at 1 3 4.
  destruct (active_alerts s !! alert_id) as [alert|] eqn:Hl; [|done].
  destruct (String.eqb_spec (status alert) "acknowledged") as [E|_]; simpl; intros _.
  - by apply (acknowledge_acknowledged_noop _ _ _ _ alert).
  - eapply acknowledge_acknowledged_noop; [apply lookup_insert_eq | done].
Qed.

(** While nothing has been pruned the stored ids are 1, ..., n and the
    next id, n + 1, is above all of them. *)
Lemma create_alert_id_above_stored now args s alert k :
  (∀ j, is_Some (active_alerts s !! j) → 1 ≤ j ≤ Z.of_nat (size (active_alerts s))) →
  (create_alert' now args s).1 = Some alert →
  is_Some (active_alerts s !! k) →
  ∃ n, id alert = Some n ∧ k < n.
Proof.
  intros Hdense Hc Hk. unfold create_alert in Hc.
  destruct (in_cooldown now (cooldown_key args) s); [done|].
  simpl in Hc. injection Hc as <-.
  rewrite id_send_notifications. simpl. eexists. split; [done|].
  specialize (Hdense k Hk). lia.
Qed.

(** C4, as the code has it: along every sequence of resolve calls,
    acknowledge calls on alerts that are not resolved, and update calls
    that carry no [status], the status of a stored alert only moves forward
    in active → acknowledged → resolved, so a resolved alert stays
    resolved; an update call that carries a [status] sets the status to
    the value it carries, whatever the status was. *)
Theorem status_moves_forward ops s i alert r :
  active_alerts s !! i = Some alert →
  rank (status alert) = Some r →
  (forward_calls ops s = true →
   ∃ alert' r',
     active_alerts (run ops s) !! i = Some alert'
     ∧ rank (status alert') = Some r' ∧ (r ≤ r')%nat
     ∧ (status alert = "resolved" → status alert' = "resolved"))
  ∧ (∀ now kwargs v,
       status_kwarg kwargs = Some v →
       ∃ alert',
         update_alert now i kwargs s
         = (true, mkState (alert_cooldowns s) (<[i := alert']> (active_alerts s)))
         ∧ status alert' = v).
Proof.
  intros Hl Hr. split.
  - intros Hf.
    destruct (run_forward ops s i alert r Hl Hr Hf) as (a' & r' & Hl' & Hr' & Hle).
    exists a', r'. repeat split; [done..|].
    intros E. rewrite E in Hr. injection Hr as <-.
    revert Hr' Hle. unfold rank. repeat case_match; intros [= <-] ?; try lia.
    by apply String.eqb_eq.
  - intros now kwargs v Hk. unfold update_alert. rewrite Hl.
    eexists. split; [reflexivity|]. simpl.
    by rewrite status_apply_kwargs, Hk.
Qed.

End AlertProperties.

(** * The alert service on concrete runs *)

Section AlertRuns.

Import AlertService AlertScenario.

Example scenario_key : cooldown_key motion_lobby = "motion_5_Lobby".
Proof. reflexivity. Qed.

Example scenario_resolved :
  (status <$> active_alerts s_resolved !! 1) = Some "resolved".
Proof. vm_compute. reflexivity. Qed.

Example scenario_ids :
  (id <$> (create 0 motion_lobby init).1) = Some (Some 1)
  ∧ (id <$> (create 0 emergency_gate s_created).1) = Some (Some 2)
  ∧ dom (active_alerts s_pruned) = {[2]}.
Proof. vm_compute. repeat split. Qed.

(** The cooldown at work: a first call creates alert 1, a call with the
    same key 30 seconds later is suppressed and changes nothing, a call 60
    seconds after the first creates an alert again. *)
Lemma create_alert_cooldown_witness :
  let r0 := create 0 motion_lobby init in
  let r1 := create (seconds 30) motion_lobby r0.2 in
  let r2 := create (seconds 60) motion_lobby r1.2 in
  (is_Some r0.1 ∧ r1 = (None, r0.2) ∧ is_Some r2.1)
  ∧ created 0 motion_lobby init r0
  ∧ create (seconds 30) motion_lobby s_created = (None, s_created).
Proof.
  split; [|split].
  - apply (create_alert_cooldown default_settings transports 0 motion_lobby init);
      [reflexivity | reflexivity | reflexivity | vm_compute; reflexivity
      | vm_compute; discriminate].
  - apply (create_alert_cooldown default_settings transports 0 motion_lobby init).
    intros (last & H & _). vm_compute in H. discriminate H.
  - apply (create_alert_cooldown default_settings transports (seconds 30)
             motion_lobby s_created).
    exists 0. split; [reflexivity | vm_compute; reflexivity].
Defined.

(** The response-time law at work: alert 1, acknowledged 10 seconds after
    its creation and resolved 20 seconds after it, gets a response time of
    10 seconds; resolved without acknowledgement, of 20 seconds. *)
Lemma resolve_response_time_witness :
  (∃ alert',
     resolve_alert (seconds 20) 1 7 s_acknowledged
     = (true, mkState (alert_cooldowns s_acknowledged)
                (<[1 := alert']> (active_alerts s_acknowledged)))
     ∧ status alert' = "resolved"
     ∧ resolved_at alert' = Some (seconds 20)
     ∧ response_time alert' = Some (total_seconds (seconds 20 - seconds 10)))
  ∧ (∃ alert',
       resolve_alert (seconds 20) 1 7 s_created
       = (true, mkState (alert_cooldowns s_created)
                  (<[1 := alert']> (active_alerts s_created)))
       ∧ status alert' = "resolved"
       ∧ resolved_at alert' = Some (seconds 20)
       ∧ response_time alert' = Some (total_seconds (seconds 20 - 0))).
Proof.
  split.
  - destruct (resolve_response_time (seconds 20) 1 7 s_acknowledged
                (default (Alert_new 0 motion_lobby) (active_alerts s_acknowledged !! 1)))
      as (a & H); [reflexivity | vm_compute; discriminate |].
    exists a. exact H.
  - destruct (resolve_response_time (seconds 20) 1 7 s_created
                (default (Alert_new 0 motion_lobby) (active_alerts s_created !! 1)))
      as (a & H); [reflexivity | vm_compute; discriminate |].
    exists a. exact H.
Defined.

(** C4, as the spec states it, fails: an update that carries
    [status = "active"] takes the resolved alert 1 back to active, and
    another acknowledge takes it back to acknowledged. *)
Lemma resolved_is_not_terminal :
  (status <$> active_alerts s_resolved !! 1) = Some "resolved"
  ∧ update_alert (seconds 30) 1 [("status", "active")] s_resolved
    = (true, run [Update (seconds 30) 1 [("status", "active")]] s_resolved)
  ∧ (status <$> active_alerts (run [Update (seconds 30) 1 [("status", "active")]] s_resolved) !! 1)
    = Some "active"
  ∧ (status <$> active_alerts (run [Acknowledge (seconds 30) 1 7] s_resolved) !! 1)
    = Some "acknowledged".
Proof. vm_compute. repeat split. Qed.

(** The forward moves at work: acknowledge then resolve, with an update of
    the description in between, take alert 1 from active to resolved; an
    update carrying [status = "active"] then sets it to active. *)
Lemma status_moves_forward_witness :
  let ops := [Acknowledge (seconds 10) 1 7;
              Update (seconds 15) 1 [("description", "checked")];
              Resolve (seconds 20) 1 7;
              Acknowledge (seconds 25) 2 7] in
  (∃ alert' r',
     active_alerts (run ops s_created) !! 1 = Some alert'
     ∧ rank (status alert') = Some r' ∧ (0 ≤ r')%nat
     ∧ (status (Alert_new 0 motion_lobby) = "resolved" → status alert' = "resolved"))
  ∧ (∃ alert',
       update_alert (seconds 30) 1 [("status", "active")] s_created
       = (true, mkState (alert_cooldowns s_created)
                  (<[1 := alert']> (active_alerts s_created)))
       ∧ status alert' = "active").
Proof.
  intros ops.
  destruct (status_moves_forward ops s_created 1
              (default (Alert_new 0 motion_lobby) (active_alerts s_created !! 1)) 0%nat)
    as [H1 H2]; [reflexivity | reflexivity |].
  split.
  - apply H1. vm_compute. reflexivity.
  - apply (H2 (seconds 30) [("status", "active")] "active"). reflexivity.
Defined.

(** C5 on a resolved alert: acknowledging alert 1 after it was resolved
    answers [True] but sets the status back to acknowledged, replaces the
    acknowledging user, moves [acknowledged_at] from 10 to 30 seconds and
    [response_time] from 10 to 30 seconds. *)
Theorem acknowledge_resolved_mutates :
  let before := active_alerts s_resolved !! 1 in
  let r := acknowledge_alert (seconds 30) 1 9 s_resolved in
  let after := active_alerts r.2 !! 1 in
  r.1 = true
  ∧ status <$> before = Some "resolved"
  ∧ status <$> after = Some "acknowledged"
  ∧ user_id <$> before = Some (Some 7)
  ∧ user_id <$> after = Some (Some 9)
  ∧ acknowledged_at <$> before = Some (Some (seconds 10))
  ∧ acknowledged_at <$> after = Some (Some (seconds 30))
  ∧ response_time <$> before = Some (Some (10000000 # 1000000))
  ∧ response_time <$> after = Some (Some (30000000 # 1000000)).
Proof. vm_compute. repeat split. Qed.

(** C7 after pruning: with alerts 1 and 2 stored and alert 1 pruned, the
    next alert created gets id 2 again, and takes the place of the alert
    that held it. *)
Theorem id_reused_after_cleanup :
  let r := create (days 31) motion_lobby s_pruned in
  (id <$> (create 0 emergency_gate s_created).1) = Some (Some 2)
  ∧ (title <$> active_alerts s_pruned !! 2) = Some "Emergency detected on camera 6"
  ∧ (id <$> r.1) = Some (Some 2)
  ∧ (title <$> active_alerts r.2 !! 2) = Some "Motion detected on camera 5"
  ∧ size (active_alerts r.2) = 1%nat.
Proof. vm_compute. repeat split. Qed.

End AlertRuns.

(** * Properties of the biometric service *)

Section BiometricProperties.

Import BiometricService.

Variable Encoding : Type.
Variable face_distance : Encoding → Encoding → Q.
Variable sha256 : string → string.
Variable settings : Settings.

Abbreviation State := (BiometricService.State Encoding).

(** ** The authenticators build well-formed results *)

Lemma hash_verify_well_formed meth h u stored :
  well_formed (Some (hash_verify meth h u stored)).
Proof.
  intros x [= <-]. unfold hash_verify. simpl.
  destruct (String.eqb h stored); [eauto | done].
Qed.

Lemma hash_search_well_formed meth nr h cache :
  well_formed (Some (hash_search meth nr h cache)).
Proof.
  intros x [= <-].
  induction cache as [|[u stored] rest IH]; simpl; [done|].
  destruct (String.eqb h stored); [simpl; eauto | done].
Qed.

Lemma authenticate_face_well_formed image uid (s : State) :
  well_formed (Some (authenticate_face face_distance settings image uid s)).
Proof.
  intros x [= <-]. unfold authenticate_face, face_search.
  repeat case_match; simpl; try done; eauto.
Qed.

Lemma authenticate_fingerprint_well_formed data uid (s : State) :
  well_formed (Some (authenticate_fingerprint sha256 data uid s)).
Proof.
  unfold authenticate_fingerprint.
  destruct (requested uid _) as [[u stored]|];
    [apply hash_verify_well_formed | apply hash_search_well_formed].
Qed.

Lemma authenticate_iris_well_formed image uid (s : State) :
  well_formed (Some (authenticate_iris sha256 image uid s)).
Proof.
  unfold authenticate_iris.
  destruct (requested uid _) as [[u stored]|];
    [apply hash_verify_well_formed | apply hash_search_well_formed].
Qed.

Lemma well_formed_fmap {A} (f : A → AuthResult) (o : option A) :
  (∀ a, well_formed (Some (f a))) → well_formed (f <$> o).
Proof.
  intros H x E. destruct o as [a|]; [|done]. injection E as <-.
  exact (H a (f a) eq_refl).
Qed.

(** ** Fusion *)

(** Case analysis on an optional result: not run, failed, or successful
    with its confidence and identity (present when well formed). *)
Ltac split_result r H :=
  let s := fresh "s" in
  let u := fresh "u" in
  let c := fresh "c" in
  destruct r as [[s u c ? ? ?]|];
  [ destruct s;
    [ pose proof (H _ eq_refl eq_refl) as [[? ?] [? ?]]; simpl in *; subst | ]
  | ].

Lemma fuse_mismatch rf rp ri u v :
  well_formed rf → well_formed rp → well_formed ri →
  u ≠ v →
  (succeeded_as rf u ∧ succeeded_as rp v)
  ∨ (succeeded_as rf u ∧ succeeded_as ri v)
  ∨ (succeeded_as rp u ∧ succeeded_as ri v) →
  fuse rf rp ri = mismatch.
Proof.
  intros Wf Wp Wi Hne H. unfold succeeded_as in H.
  split_result rf Wf; split_result rp Wp; split_result ri Wi;
    destruct H as [[(? & ? & ? & ?) (? & ? & ? & ?)]
                  |[[(? & ? & ? & ?) (? & ? & ? & ?)]
                   |[(? & ? & ? & ?) (? & ? & ? & ?)]]];
    simplify_eq/=; unfold fuse; simpl;
    repeat (case_bool_decide; simplify_eq/=); done.
Qed.

(** C3: when two of the modalities that were run both succeed and resolve
    different users, [multi_modal_authentication] returns the
    identity-mismatch outcome, a failure; the fusion does so for any
    results of that kind, whatever their confidences and whatever the third
    modality did. *)
Theorem fusion_identity_mismatch u v :
  u ≠ v →
  (∀ face_image fingerprint_data iris_image uid (s : State),
     let rf := (λ img, authenticate_face face_distance settings img uid s) <$> face_image in
     let rp := (λ d, authenticate_fingerprint sha256 d uid s) <$> fingerprint_data in
     let ri := if IRIS_RECOGNITION_ENABLED settings
               then (λ img, authenticate_iris sha256 img uid s) <$> iris_image
               else None in
     (succeeded_as rf u ∧ succeeded_as rp v)
     ∨ (succeeded_as rf u ∧ succeeded_as ri v)
     ∨ (succeeded_as rp u ∧ succeeded_as ri v) →
     multi_modal_authentication face_distance sha256 settings
       face_image fingerprint_data iris_image uid s = mismatch)
  ∧ (∀ rf rp ri,
       well_formed rf → well_formed rp → well_formed ri →
       (succeeded_as rf u ∧ succeeded_as rp v)
       ∨ (succeeded_as rf u ∧ succeeded_as ri v)
       ∨ (succeeded_as rp u ∧ succeeded_as ri v) →
       fuse rf rp ri = mismatch)
  ∧ fused_success mismatch = false.
Proof.
  intros Hne. split; [|split; [|reflexivity]].
  - intros face_image fingerprint_data iris_image uid s rf rp ri H.
    apply (fuse_mismatch rf rp ri u v); [| | |done|done].
    + apply well_formed_fmap. intros img. apply authenticate_face_well_formed.
    + apply well_formed_fmap. intros d. apply authenticate_fingerprint_well_formed.
    + unfold ri. destruct (IRIS_RECOGNITION_ENABLED settings); [|by intros x [=]].
      apply well_formed_fmap. intros img. apply authenticate_iris_well_formed.
  - intros rf rp ri Wf Wp Wi H. by apply (fuse_mismatch rf rp ri u v).
Qed.

Lemma fusion_test_iff (n : nat) (mean : Q) (identity : option Z) :
  (0 <? n)%nat && Qgeb mean (7 # 10) && bool_decide (identity ≠ None) = true
  ↔ (0 < n)%nat ∧ (7 # 10 <= mean)%Q ∧ identity ≠ None.
Proof.
  rewrite !andb_true_iff, Nat.ltb_lt, bool_decide_eq_true.
  unfold Qgeb. rewrite Qle_bool_iff. tauto.
Qed.

Lemma fuse_rule rf rp ri :
  well_formed rf → well_formed rp → well_formed ri →
  fuse rf rp ri ≠ mismatch →
  fusion_rule (supplied rf rp ri) (fuse rf rp ri).
Proof.
  intros Wf Wp Wi Hm. unfold fusion_rule. simpl.
  rewrite <- fusion_test_iff. revert Hm.
  split_result rf Wf; split_result rp Wp; split_result ri Wi;
    unfold fuse; simpl; repeat (case_bool_decide; simplify_eq/=);
    intros Hm; try done;
    (split; [reflexivity|]; split; [reflexivity|]);
    intros r Hr Hs; unfold supplied in Hr; simpl in Hr;
    repeat (apply elem_of_cons in Hr as [->|Hr]; [simpl in *; congruence|]);
    by apply elem_of_nil in Hr.
Qed.


(** ** Verification against a requested user *)

Lemma requested_unenrolled {V} u (cache : list (Z * V)) :
  u = 0 ∨ dict_get u cache = None → requested (Some u) cache = None.
Proof.
  unfold requested. intros [->|H]; [done|].
  rewrite H. by destruct (u =? 0).
Qed.

Lemma requested_other {V} u v (x : V) :
  v ≠ u → requested (Some u) [(v, x)] = None.
Proof.
  intros Hne. apply requested_unenrolled. right. simpl.
  destruct (Z.eqb_spec u v); [congruence | done].
Qed.

(** C10: a face, fingerprint or iris authentication that names a user who
    has no template of that modality (or names user 0) is answered by the
    search over all templates, exactly as if no user had been named; with a
    single other user [v] enrolled, a sample matching [v]'s template then
    authenticates as [v] although [u] was named. *)
Theorem unenrolled_user_falls_back_to_search (u : Z) (s : State) :
  (u = 0 ∨ dict_get u (face_encodings_cache s) = None →
   ∀ image, authenticate_face face_distance settings image (Some u) s
            = authenticate_face face_distance settings image None s)
  ∧ (u = 0 ∨ dict_get u (fingerprint_templates_cache s) = None →
     ∀ data, authenticate_fingerprint sha256 data (Some u) s
             = authenticate_fingerprint sha256 data None s)
  ∧ (u = 0 ∨ dict_get u (iris_templates_cache s) = None →
     ∀ image, authenticate_iris sha256 image (Some u) s
              = authenticate_iris sha256 image None s)
  ∧ (∀ v data, v ≠ u →
       let r := authenticate_fingerprint sha256 data (Some u)
                  (mkState (Encoding := Encoding) [] [(v, sha256 data)] []) in
       success r = true ∧ user_id r = Some v)
  ∧ (∀ v (image : Image Encoding), v ≠ u →
       let r := authenticate_iris sha256 image (Some u)
                  (mkState [] [] [(v, sha256 (tobytes image))]) in
       success r = true ∧ user_id r = Some v)
  ∧ (∀ v e bytes variance n, v ≠ u → v ≠ 0 →
       Qle_bool (face_distance e e) (FACE_RECOGNITION_TOLERANCE settings) = true →
       Qgtb (1 - face_distance e e) 0 = true →
       let r := authenticate_face face_distance settings
                  (mkImage bytes variance (S n) [e]) (Some u)
                  (mkState [(v, e)] [] []) in
       success r = true ∧ user_id r = Some v).
Proof.
  split; [|split; [|split; [|split; [|split]]]].
  - intros H image. unfold authenticate_face.
    by rewrite (requested_unenrolled u _ H).
  - intros H data. unfold authenticate_fingerprint.
    by rewrite (requested_unenrolled u _ H).
  - intros H image. unfold authenticate_iris.
    by rewrite (requested_unenrolled u _ H).
  - intros v data Hne. unfold authenticate_fingerprint.
    simpl fingerprint_templates_cache.
    rewrite requested_other by done. simpl. by rewrite String.eqb_refl.
  - intros v image Hne. unfold authenticate_iris. simpl iris_templates_cache.
    rewrite requested_other by done. simpl. by rewrite String.eqb_refl.
  - intros v e bytes variance n Hne Hv Htol Hpos. unfold authenticate_face.
    simpl face_encodings_cache. simpl face_locations. simpl face_encodings.
    cbv iota. rewrite requested_other by done.
    unfold face_search, face_search_step. simpl. rewrite Htol, Hpos. simpl.
    by destruct (Z.eqb_spec v 0).
Qed.

End BiometricProperties.

(** * Properties of the biometric endpoints *)

Section ApiProperties.

Import BiometricService.

Variable Encoding : Type.
Variable face_distance : Encoding → Encoding → Q.
Variable sha256 : string → string.
Variable settings : Settings.
Variable imdecode : string → option (Image Encoding).

(** The two face endpoints reject a sample that is not live before any
    template is registered or compared. *)
Lemma face_endpoints_check_liveness f image uid current_user u
    (svc : BiometricService.State Encoding) :
  BiometricApi.is_image f = true →
  imdecode (BiometricApi.file_bytes f) = Some image →
  is_live (detect_liveness image) = false →
  BiometricApi.authenticate_face face_distance settings imdecode f uid svc
  = BiometricApi.Body (BiometricApi.authentication_liveness_failure "face")
  ∧ (BiometricApi.forbidden current_user u = false →
     BiometricApi.register_face imdecode u f current_user svc
     = (BiometricApi.Body BiometricApi.registration_liveness_failure, svc)).
Proof.
  intros Hi Hd Hl. split.
  - unfold BiometricApi.authenticate_face. by rewrite Hi, Hd, Hl.
  - intros Hf. unfold BiometricApi.register_face. by rewrite Hf, Hi, Hd, Hl.
Qed.

(** The two iris endpoints hand every decoded sample to the service; the
    liveness of the sample plays no part in their answer. *)
Lemma iris_endpoints_skip_liveness f image uid current_user u
    (svc : BiometricService.State Encoding) :
  BiometricApi.is_image f = true →
  imdecode (BiometricApi.file_bytes f) = Some image →
  BiometricApi.authenticate_iris sha256 imdecode f uid svc
  = BiometricApi.Body
      (BiometricApi.authentication_response "iris"
         (authenticate_iris sha256 image uid svc))
  ∧ (BiometricApi.forbidden current_user u = false →
     BiometricApi.register_iris sha256 imdecode u f current_user svc
     = (BiometricApi.Body
          (BiometricApi.mkRegistrationResponse true "Iris registered successfully"
             (Some (pretty u)) (Some (98 # 100)) None),
        (register_iris sha256 u image svc).2)).
Proof.
  intros Hi Hd. split.
  - unfold BiometricApi.authenticate_iris. by rewrite Hi, Hd.
  - intros Hf. unfold BiometricApi.register_iris. by rewrite Hf, Hi, Hd.
Qed.

End ApiProperties.

(** * The biometric service on concrete runs *)

Section BiometricRuns.

Import BiometricService BiometricScenario.

Example scenario_face :
  auth_face face_near_1 None enrolled
  = mkAuthResult true (Some 1) (Some (9 # 10)) None (Some "face_recognition") None.
Proof. vm_compute. reflexivity. Qed.

Example scenario_liveness :
  is_live (detect_liveness printed_iris) = false
  ∧ is_live (detect_liveness face_near_1) = true.
Proof. vm_compute. done. Qed.


Lemma ok_well_formed u c : well_formed (Some (ok u c)).
Proof. intros x [= <-] _. split; eexists; reflexivity. Qed.

Lemma not_run_well_formed : well_formed None.
Proof. intros x [=]. Qed.


(** The mismatch at work: the face resolves user 1 and the fingerprint
    user 2, with whatever confidences. *)
Lemma fusion_identity_mismatch_witness :
  (∀ c1 c2, fuse (Some (ok 1 c1)) (Some (ok 2 c2)) None = mismatch)
  ∧ multi_modal (Some face_near_1) (Some "thumb-2") None None enrolled = mismatch.
Proof.
  destruct (fusion_identity_mismatch Q face_distance digest default_settings 1 2)
    as (Hrun & Hfuse & _); [discriminate|].
  split.
  - intros c1 c2.
    apply Hfuse; [apply ok_well_formed | apply ok_well_formed | apply not_run_well_formed|].
    left. split; eexists; repeat split; reflexivity.
  - apply (Hrun (Some face_near_1) (Some "thumb-2") None None enrolled).
    left. split; eexists; repeat split; vm_compute; reflexivity.
Defined.

(** The fallback at work: user 1 has no fingerprint and no iris enrolled,
    user 3 has no face enrolled; naming them is answered by the search,
    which authenticates the samples as users 2 and 1. *)
Lemma unenrolled_user_falls_back_to_search_witness :
  (auth_fingerprint "thumb-2" (Some 1) enrolled = auth_fingerprint "thumb-2" None enrolled
   ∧ user_id (auth_fingerprint "thumb-2" (Some 1) enrolled) = Some 2)
  ∧ (auth_iris printed_iris (Some 1) enrolled = auth_iris printed_iris None enrolled
     ∧ user_id (auth_iris printed_iris (Some 1) enrolled) = Some 2)
  ∧ (auth_face face_near_1 (Some 3) enrolled = auth_face face_near_1 None enrolled
     ∧ user_id (auth_face face_near_1 (Some 3) enrolled) = Some 1)
  ∧ user_id (auth_fingerprint "thumb-2" (Some 1) (mkState [] [(2, digest "thumb-2")] []))
    = Some 2.
Proof.
  pose proof (unenrolled_user_falls_back_to_search Q face_distance digest
                default_settings 1 enrolled) as (_ & Hp & Hi & Hq & _).
  pose proof (unenrolled_user_falls_back_to_search Q face_distance digest
                default_settings 3 enrolled) as (Hf & _).
  split; [split; [apply Hp; right; reflexivity | vm_compute; reflexivity]|].
  split; [split; [apply Hi; right; reflexivity | vm_compute; reflexivity]|].
  split; [split; [apply Hf; right; reflexivity | vm_compute; reflexivity]|].
  apply (Hq 2 "thumb-2"). discriminate.
Defined.

(** C8 on an iris sample: the decoded reproduction of user 2's iris fails
    the liveness test, yet the iris registration endpoint stores its
    template for user 3 and reports success, and the iris authentication
    endpoint compares it and authenticates user 2; the face endpoint
    rejects a sample of the same quality. *)
Theorem iris_sample_skips_liveness :
  decode (BiometricApi.file_bytes iris_upload) = Some printed_iris
  ∧ is_live (detect_liveness printed_iris) = false
  ∧ BiometricApi.register_iris digest decode 3 iris_upload admin init
    = (BiometricApi.Body
         (BiometricApi.mkRegistrationResponse true "Iris registered successfully"
            (Some "3") (Some (98 # 100)) None),
       mkState [] [] [(3, digest "iris-2")])
  ∧ BiometricApi.authenticate_iris digest decode iris_upload None enrolled
    = BiometricApi.Body
        (BiometricApi.mkAuthenticationResponse true (Some 2) 1 "iris" None None)
  ∧ BiometricApi.authenticate_face face_distance default_settings decode
      face_upload None enrolled
    = BiometricApi.Body (BiometricApi.authentication_liveness_failure "face").
Proof. vm_compute. repeat split. Qed.

End BiometricRuns.

(** * Further properties of the alert service *)

#[local] Set Warnings "-clear-no-such-hyp".

Section AlertLifecycleExtras.

Import AlertService AlertQueries.

(** X1: a lifecycle call (acknowledge, resolve, update) on an unknown id
    answers [False] and changes nothing; on a stored id it answers [True];
    in every case it leaves the cooldown stamps, the set of stored ids and
    every other alert as they were. *)
Theorem lifecycle_frame op s :
  alert_cooldowns (step op s) = alert_cooldowns s
  ∧ dom (active_alerts (step op s)) = dom (active_alerts s)
  ∧ (∀ k, k ≠ target op → active_alerts (step op s) !! k = active_alerts s !! k)
  ∧ (active_alerts s !! target op = None → answer op s = false ∧ step op s = s)
  ∧ (is_Some (active_alerts s !! target op) → answer op s = true).
Proof.
  destruct op as [now i uid|now i uid|now i kwargs]; simpl;
    [unfold acknowledge_alert | unfold resolve_alert | unfold update_alert];
    destruct (active_alerts s !! i) as [a|] eqn:Hl;
    repeat case_match; simpl;
    repeat split; try done;
    try (by intros [? [=]]);
    try (apply dom_insert_lookup_L; by rewrite Hl);
    try (intros k Hk; by rewrite lookup_insert_ne).
Qed.

Lemma same_protected_refl a : same_protected a a.
Proof. by repeat split. Qed.

Lemma same_protected_trans a b c :
  same_protected a b → same_protected b c → same_protected a c.
Proof.
  unfold same_protected. intros H1 H2.
  destruct_and!. repeat split; congruence.
Qed.

Lemma same_protected_setattr field value a :
  same_protected a (setattr field value a).
Proof.
  unfold setattr. repeat case_match; by repeat split.
Qed.

Lemma same_protected_apply_kwargs kwargs a :
  same_protected a (apply_kwargs kwargs a).
Proof.
  unfold apply_kwargs. revert a.
  induction kwargs as [|kv rest IH]; intros a; simpl.
  - apply same_protected_refl.
  - eapply same_protected_trans; [|apply IH].
    case_bool_decide; [apply same_protected_setattr | apply same_protected_refl].
Qed.

Lemma apply_kwargs_ignored kwargs a :
  Forall (λ kv, kv.1 ∉ allowed_fields) kwargs → apply_kwargs kwargs a = a.
Proof.
  unfold apply_kwargs. induction 1 as [|kv rest Hkv _ IH]; simpl; [done|].
  by rewrite bool_decide_eq_false_2.
Qed.

(** X2: [update_alert] on a stored alert answers [True], stamps
    [updated_at] and cannot write the id, type, title, camera, confidence
    score, acting user, creation, acknowledgement and resolution times,
    response time or delivery flags, whatever the keyword arguments; with
    no allowed field among them it only stamps [updated_at]. *)
Theorem update_alert_protected now alert_id kwargs s a :
  active_alerts s !! alert_id = Some a →
  ∃ a',
    update_alert now alert_id kwargs s
    = (true, mkState (alert_cooldowns s) (<[alert_id := a']> (active_alerts s)))
    ∧ same_protected a a'
    ∧ updated_at a' = now
    ∧ (Forall (λ kv, kv.1 ∉ allowed_fields) kwargs → a' = set_updated_at now a).
Proof.
  intros Hl. unfold update_alert. rewrite Hl.
  eexists. split; [reflexivity|].
  pose proof (same_protected_apply_kwargs kwargs a) as Hp.
  split; [|split; [reflexivity|]].
  - unfold same_protected in *. destruct_and!. by repeat split.
  - intros Hk. by rewrite apply_kwargs_ignored.
Qed.

(** Acknowledging a stored alert that is not acknowledged and then
    resolving it leaves it resolved by the resolving user, with the two
    times of the calls as [acknowledged_at] and [resolved_at]; the response
    time, provisionally the seconds from creation to acknowledgement, ends
    as the seconds from acknowledgement to resolution. *)
Theorem acknowledge_then_resolve t1 t2 alert_id u1 u2 s a :
  active_alerts s !! alert_id = Some a →
  status a ≠ "acknowledged" →
  let s1 := (acknowledge_alert t1 alert_id u1 s).2 in
  let s2 := (resolve_alert t2 alert_id u2 s1).2 in
  ∃ a1 a2,
    active_alerts s1 !! alert_id = Some a1
    ∧ status a1 = "acknowledged"
    ∧ user_id a1 = Some u1
    ∧ response_time a1 = Some (total_seconds (t1 - created_at a))
    ∧ active_alerts s2 !! alert_id = Some a2
    ∧ status a2 = "resolved"
    ∧ user_id a2 = Some u2
    ∧ acknowledged_at a2 = Some t1
    ∧ resolved_at a2 = Some t2
    ∧ response_time a2 = Some (total_seconds (t2 - t1))
    ∧ created_at a2 = created_at a.
Proof.
  intros Hl Hs. simpl. unfold acknowledge_alert. rewrite Hl.
  destruct (String.eqb_spec (status a) "acknowledged") as [E|_]; [done|]. simpl.
  unfold resolve_alert. simpl. rewrite lookup_insert_eq. simpl.
  eexists _, _. rewrite lookup_insert_eq.
  split; [reflexivity|]. repeat split.
Qed.

Lemma lookup_foldl_delete (m : gmap Z Alert) (ks : list Z) k :
  foldl (λ m k, delete k m) m ks !! k = if decide (k ∈ ks) then None else m !! k.
Proof.
  revert m. induction ks as [|j ks IH]; intros m; cbn [foldl].
  - case_decide as H; [by apply not_elem_of_nil in H | done].
  - rewrite IH.
    destruct (decide (k = j)) as [->|Hne].
    + rewrite lookup_delete_eq.
      case_decide as H1; case_decide as H2; try done; exfalso; apply H2; left.
    + rewrite lookup_delete_ne by done.
      case_decide as H1; case_decide as H2; try done.
      * exfalso. apply H2. by right.
      * exfalso. apply elem_of_cons in H2 as [?|?]; done.
Qed.

Lemma lookup_cleanup_old_alerts now retention_days s k :
  active_alerts (cleanup_old_alerts now retention_days s) !! k
  = match active_alerts s !! k with
    | Some a =>
        if removable (now - timedelta_days retention_days) a then None else Some a
    | None => None
    end.
Proof.
  unfold cleanup_old_alerts. simpl.
  rewrite lookup_foldl_delete.
  set (cutoff := now - timedelta_days retention_days).
  destruct (decide _) as [Hin|Hout].
  - apply list_elem_of_fmap in Hin as ([k' a] & -> & Hin).
    apply list_elem_of_filter in Hin as [Hr Hin]. simpl in *.
    apply elem_of_map_to_list in Hin. by rewrite Hin, Hr.
  - destruct (active_alerts s !! k) as [a|] eqn:Hl; [|done].
    destruct (removable cutoff a) eqn:Hr; [|done].
    exfalso. apply Hout. apply list_elem_of_fmap. exists (k, a). split; [done|].
    apply list_elem_of_filter. split; [done|]. by apply elem_of_map_to_list.
Qed.


End AlertLifecycleExtras.

Section AlertQueryExtras.

Import AlertService AlertQueries.

(** ** Listing the active alerts *)

Lemma insert_newest_perm a l : insert_newest a l ≡ₚ a :: l.
Proof.
  induction l as [|b rest IH]; simpl; [done|].
  case_bool_decide; [done|]. rewrite IH. apply Permutation_swap.
Qed.

Lemma sort_newest_first_perm l : sort_newest_first l ≡ₚ l.
Proof.
  induction l as [|a rest IH]; simpl; [done|].
  by rewrite insert_newest_perm, IH.
Qed.

Lemma insert_newest_sorted a l :
  StronglySorted (λ x y, created_at y ≤ created_at x) l →
  StronglySorted (λ x y, created_at y ≤ created_at x) (insert_newest a l).
Proof.
  induction 1 as [|b rest Hs IH Hb]; simpl.
  - repeat constructor.
  - case_bool_decide as Hle.
    + constructor; [by constructor|].
      constructor; [done|].
      eapply Forall_impl; [exact Hb|]. simpl. intros c Hc. lia.
    + constructor; [done|].
      rewrite insert_newest_perm. constructor; [lia | done].
Qed.

Lemma sort_newest_first_sorted l :
  StronglySorted (λ x y, created_at y ≤ created_at x) (sort_newest_first l).
Proof.
  induction l as [|a rest IH]; simpl; [constructor|].
  by apply insert_newest_sorted.
Qed.

Lemma sorted_newest_first l :
  StronglySorted (λ x y, created_at y ≤ created_at x) l → newest_first l.
Proof.
  induction 1 as [|a rest Hs IH Ha]; intros i j x y Hij Hi Hj.
  - by rewrite lookup_nil in Hi.
  - destruct i as [|i], j as [|j]; simpl in *; simplify_eq; try lia.
    + rewrite Forall_forall in Ha. apply Ha.
      apply list_elem_of_lookup. eauto.
    + apply (IH i j); [lia | done | done].
Qed.

Lemma newest_first_take n l : newest_first l → newest_first (take n l).
Proof.
  intros H i j a b Hij Hi Hj.
  apply lookup_take_Some in Hi as [Hi _]. apply lookup_take_Some in Hj as [Hj _].
  by apply (H i j).
Qed.

Lemma slice_to_take {A} limit (l : list A) : ∃ n, slice_to limit l = take n l.
Proof. unfold slice_to. destruct (limit <? 0); eauto. Qed.

(** The alerts that pass the four filters. *)
Lemma filters_selected (values : list Alert) severity alert_type camera_id a :
  a ∈ (let alerts := filter (λ a, status a = "active") values in
       let alerts :=
         match truthy_text severity with
         | Some v => filter (λ a, AlertService.severity a = v) alerts
         | None => alerts
         end in
       let alerts :=
         match truthy_text alert_type with
         | Some v => filter (λ a, AlertService.alert_type a = v) alerts
         | None => alerts
         end in
       match truthy_int camera_id with
       | Some c => filter (λ a, AlertService.camera_id a = Some c) alerts
       | None => alerts
       end)
  ↔ a ∈ values ∧ selected severity alert_type camera_id a.
Proof.
  unfold selected. simpl.
  destruct (truthy_text severity), (truthy_text alert_type), (truthy_int camera_id);
    rewrite ?list_elem_of_filter; naive_solver.
Qed.

Lemma elem_of_values (s : State) a :
  a ∈ (map_to_list (active_alerts s)).*2 ↔ ∃ k, active_alerts s !! k = Some a.
Proof.
  rewrite list_elem_of_fmap. split.
  - intros ([k x] & -> & H). exists k. by apply elem_of_map_to_list.
  - intros (k & H). exists (k, a). split; [done|]. by apply elem_of_map_to_list.
Qed.

(** X4: every alert [get_active_alerts] returns is stored, has status
    active and passes each filter that was given with a truthy value (a
    [None], empty or zero filter is skipped); the result is ordered newest
    first and, for a limit that is not negative, has at most [limit]
    alerts. *)
Theorem get_active_alerts_sound severity alert_type camera_id limit s :
  let result := get_active_alerts severity alert_type camera_id limit s in
  (∀ a, a ∈ result →
        (∃ k, active_alerts s !! k = Some a)
        ∧ selected severity alert_type camera_id a)
  ∧ newest_first result
  ∧ (0 ≤ limit → Z.of_nat (length result) ≤ limit).
Proof.
  unfold get_active_alerts, get_active_alerts_of. simpl.
  match goal with |- context [slice_to limit ?l] => set (sorted := l) end.
  destruct (slice_to_take limit sorted) as [n Hn].
  split; [|split].
  - intros a Ha. rewrite Hn in Ha.
    apply elem_of_take in Ha as (i & Hi & _).
    assert (a ∈ sorted) as Hin by (apply list_elem_of_lookup; eauto).
    unfold sorted in Hin. rewrite sort_newest_first_perm in Hin.
    apply filters_selected in Hin as [Hv Hsel].
    split; [by apply elem_of_values | done].
  - rewrite Hn. apply newest_first_take, sorted_newest_first.
    apply sort_newest_first_sorted.
  - intros Hl. unfold slice_to.
    destruct (Z.ltb_spec limit 0); [lia|]. rewrite length_take. lia.
Qed.

(** X5: when [get_active_alerts] returns fewer alerts than the limit, it
    has returned every stored alert that is active and passes the truthy
    filters. *)
Theorem get_active_alerts_complete severity alert_type camera_id limit s k a :
  Z.of_nat (length (get_active_alerts severity alert_type camera_id limit s)) < limit →
  active_alerts s !! k = Some a →
  selected severity alert_type camera_id a →
  a ∈ get_active_alerts severity alert_type camera_id limit s.
Proof.
  unfold get_active_alerts, get_active_alerts_of. simpl.
  match goal with |- context [slice_to limit ?l] => set (sorted := l) end.
  intros Hlen Hl Hsel.
  assert (a ∈ sorted) as Hin.
  { unfold sorted. rewrite sort_newest_first_perm. apply filters_selected.
    split; [|done]. apply elem_of_values. eauto. }
  unfold slice_to in *. destruct (Z.ltb_spec limit 0); [lia|].
  rewrite length_take in Hlen. rewrite take_ge; [done | lia].
Qed.

(** The limit only cuts the listing: the result is the slice
    [full[:limit]] of the listing with no effective limit, so a limit that
    is not negative keeps the [limit] newest alerts and a negative limit
    drops the [-limit] oldest instead. *)
Theorem get_active_alerts_limit severity alert_type camera_id limit s :
  let full := get_active_alerts severity alert_type camera_id
                (Z.of_nat (size (active_alerts s))) s in
  let result := get_active_alerts severity alert_type camera_id limit s in
  result = slice_to limit full
  ∧ (0 ≤ limit → length result = min (Z.to_nat limit) (length full))
  ∧ (limit < 0 → length result = (length full - Z.to_nat (- limit))%nat).
Proof.
  unfold get_active_alerts, get_active_alerts_of. simpl.
  match goal with |- context [slice_to limit ?l] => set (sorted := l) end.
  assert (slice_to (Z.of_nat (size (active_alerts s))) sorted = sorted) as ->.
  { unfold slice_to. destruct (Z.ltb_spec (Z.of_nat (size (active_alerts s))) 0); [lia|].
    apply take_ge. rewrite Nat2Z.id.
    unfold sorted. rewrite sort_newest_first_perm.
    rewrite <- length_map_to_list, <- (length_fmap snd).
    destruct (truthy_text severity), (truthy_text alert_type), (truthy_int camera_id);
      repeat (etrans; [apply length_filter|]); done. }
  split; [done|]. unfold slice_to. split; intros Hl.
  - destruct (Z.ltb_spec limit 0); [lia|]. apply length_take.
  - destruct (Z.ltb_spec limit 0); [|lia]. rewrite length_take. lia.
Qed.

End AlertQueryExtras.

Section AlertStatisticsExtras.

Import AlertService AlertQueries.

Lemma bump_lookup k k' d :
  bump k d !! k'
  = if decide (k = k') then Some (S (default 0%nat (d !! k))) else d !! k'.
Proof.
  unfold bump. case_decide as E.
  - subst. rewrite lookup_insert_eq. f_equal. lia.
  - by rewrite lookup_insert_ne.
Qed.

Lemma count_from_lookup key (alerts : list Alert) d k :
  foldl (λ d a, bump (key a) d) d alerts !! k
  = match length (filter (λ a, key a = k) alerts) with
    | O => d !! k
    | S n => Some (default 0%nat (d !! k) + S n)%nat
    end.
Proof.
  revert d. induction alerts as [|a rest IH]; intros d; simpl; [done|].
  rewrite IH, bump_lookup. rewrite filter_cons.
  destruct (decide (key a = k)) as [E|E]; simpl.
  - rewrite E. destruct (length (filter _ rest)); simpl; f_equal; lia.
  - done.
Qed.

Lemma count_by_lookup key (alerts : list Alert) k :
  count_by key alerts !! k
  = match length (filter (λ a, key a = k) alerts) with
    | O => None
    | S n => Some (S n)
    end.
Proof.
  unfold count_by. rewrite count_from_lookup, lookup_empty.
  by destruct (length _).
Qed.

(** X6: in the statistics, each of [by_severity], [by_type] and
    [by_status] maps a value to the number of alerts of the date range that
    carry it, and has no entry for a value that none of them carries;
    [total_alerts] is the number of alerts of the range. *)
Theorem statistics_counts now start_date end_date s k :
  let stats := get_alert_statistics now start_date end_date s in
  let alerts := alerts_in_range now start_date end_date s in
  let entry n := match n with O => None | S _ => Some n end in
  total_alerts stats = length alerts
  ∧ by_severity stats !! k = entry (length (filter (λ a, severity a = k) alerts))
  ∧ by_type stats !! k = entry (length (filter (λ a, alert_type a = k) alerts))
  ∧ by_status stats !! k = entry (length (filter (λ a, status a = k) alerts)).
Proof.
  simpl. rewrite !count_by_lookup. unfold alerts_in_range.
  repeat split; by destruct (length _).
Qed.

Lemma sum_values_count_camera (alerts : list Alert) d :
  sum_values
    (foldl (λ d a, if truthy_camera (camera_id a)
                   then bump (str_int (camera_id a)) d else d) d alerts)
  = (sum_values d
     + length (filter (λ a, truthy_camera (camera_id a) = true) alerts))%nat.
Proof.
  revert d. induction alerts as [|a rest IH]; intros d; simpl; [lia|].
  rewrite IH, filter_cons.
  destruct (truthy_camera (camera_id a)) eqn:E.
  - rewrite decide_True by done. rewrite sum_values_bump. simpl. lia.
  - rewrite decide_False by done. done.
Qed.

(** [unresolved_alerts] is the ["active"] entry of [by_status] (0 when
    there is none) and never exceeds [total_alerts]; the counts of
    [by_type] add up to [total_alerts]; the counts of [by_camera] add up to
    the number of alerts of the range whose camera id is neither absent
    nor 0, so an alert of camera 0 is counted under no camera. *)
Theorem statistics_totals now start_date end_date s :
  let stats := get_alert_statistics now start_date end_date s in
  let alerts := alerts_in_range now start_date end_date s in
  unresolved_alerts stats = default 0%nat (by_status stats !! "active")
  ∧ (unresolved_alerts stats ≤ total_alerts stats)%nat
  ∧ sum_values (by_type stats) = total_alerts stats
  ∧ sum_values (by_camera stats)
    = length (filter (λ a, truthy_camera (camera_id a) = true) alerts)
  ∧ (sum_values (by_camera stats) ≤ total_alerts stats)%nat.
Proof.
  simpl. split; [|split; [|split; [|split]]].
  - rewrite count_by_lookup. by destruct (length _).
  - apply length_filter.
  - apply sum_values_count_by.
  - unfold count_by_camera. rewrite sum_values_count_camera, sum_values_empty. done.
  - unfold count_by_camera. rewrite sum_values_count_camera, sum_values_empty.
    apply length_filter.
Qed.



End AlertStatisticsExtras.

Section AlertCreationExtras.

Import AlertService AlertQueries.

Variable settings : Settings.
Variable notification_service : NotificationService.

Lemma Qgtb_false a b : Qgtb a b = false → (a <= b)%Q.
Proof.
  unfold Qgtb. rewrite negb_false_iff. apply Qle_bool_iff.
Qed.

Lemma Qgtb_true a b : Qgtb a b = true → (b <= a)%Q.
Proof.
  unfold Qgtb. rewrite negb_true_iff. intros H.
  apply Qlt_le_weak, Qnot_le_lt. intros Hle.
  apply Qle_bool_iff in Hle. congruence.
Qed.

Lemma max_values_spec x xs :
  max_values x xs ∈ x :: xs ∧ ∀ v, v ∈ x :: xs → (v <= max_values x xs)%Q.
Proof.
  unfold max_values. revert x. induction xs as [|y rest IH]; intros x; simpl.
  - split; [left|]. intros v [->|[]%elem_of_nil]%elem_of_cons. apply Qle_refl.
  - destruct (IH (Qmaxb x y)) as [Hin Hge]. unfold Qmaxb in *.
    destruct (Qgtb y x) eqn:E.
    + split; [by right|]. intros v [->|Hv]%elem_of_cons; [|by apply Hge].
      eapply Qle_trans; [apply (Qgtb_true _ _ E)|]. apply Hge. left.
    + split.
      * apply elem_of_cons in Hin as [->|Hin]; [left | right; by right].
      * intros v [->|[->|Hv]%elem_of_cons]%elem_of_cons.
        -- apply Hge. left.
        -- eapply Qle_trans; [apply (Qgtb_false _ _ E)|]. apply Hge. left.
        -- apply Hge. by right.
Qed.

Lemma confidence_send_notifications alert :
  confidence_score (_send_notifications settings notification_service alert)
  = confidence_score alert.
Proof.
  unfold _send_notifications.
  destruct (EMAIL_ENABLED settings), (SMS_ENABLED settings),
    (WEBHOOK_URL settings) as [url|]; try destruct (truthy_str url); reflexivity.
Qed.

(** X8: an alert created with an AI analysis that has confidence scores
    gets as [confidence_score] the largest of them: one of the scores, not
    below any of them; with an empty score dictionary it gets 0. *)
Theorem create_alert_confidence_score now args s alert an scores :
  (create_alert settings notification_service now args s).1 = Some alert →
  arg_ai_analysis args = Some an →
  confidence_scores an = Some scores →
  ∃ c, confidence_score alert = Some c
       ∧ (scores = [] → c = 0%Q)
       ∧ (scores ≠ [] → c ∈ scores.*2 ∧ ∀ v, v ∈ scores.*2 → (v <= c)%Q).
Proof.
  intros Hc Ha Hs. unfold create_alert in Hc.
  destruct (_is_in_cooldown _ _ _ _); [done|]. simpl in Hc. injection Hc as <-.
  rewrite confidence_send_notifications. simpl.
  unfold score_from_analysis. rewrite Ha, Hs.
  destruct scores as [|[k x] rest]; simpl.
  - eexists. split; [reflexivity|]. split; [done|]. by intros [].
  - eexists. split; [reflexivity|]. split; [done|]. intros _.
    apply max_values_spec.
Qed.

(** X9: the suppression key does not tell an absent location from the
    location text ["None"]: after an alert without location is created, an
    alert of the same type and camera whose location is ["None"] is
    suppressed for the cooldown duration, and the other way round. *)
Theorem absent_location_shares_key now now' args args' s :
  arg_alert_type args' = arg_alert_type args →
  arg_camera_id args' = arg_camera_id args →
  (arg_location args = None ∧ arg_location args' = Some "None")
  ∨ (arg_location args = Some "None" ∧ arg_location args' = None) →
  _is_in_cooldown settings now (cooldown_key args) s = false →
  now' - now < timedelta_seconds (ALERT_COOLDOWN settings) →
  let r := create_alert settings notification_service now args s in
  cooldown_key args' = cooldown_key args
  ∧ is_Some r.1
  ∧ create_alert settings notification_service now' args' r.2 = (None, r.2).
Proof.
  intros Ht Hc Hl H0 Hd. simpl.
  assert (cooldown_key args' = cooldown_key args) as Hk.
  { unfold cooldown_key. rewrite Ht, Hc. by destruct Hl as [[-> ->]|[-> ->]]. }
  split; [done|].
  destruct (create_alert_created settings notification_service now args s H0)
    as (a & E & _ & _ & _ & C).
  split; [by rewrite E|].
  apply create_alert_suppressed, in_cooldown_spec.
  exists now. rewrite Hk, C, lookup_insert_eq. done.
Qed.

(** ** Invariants of the store *)

Lemma ids_consistent_init : ids_consistent init.
Proof. intros k a H. simpl in H. by rewrite lookup_empty in H. Qed.

Lemma id_apply_kwargs kwargs a : id (apply_kwargs kwargs a) = id a.
Proof. by destruct (same_protected_apply_kwargs kwargs a) as [-> _]. Qed.

Lemma ids_consistent_call c s :
  ids_consistent s → ids_consistent (call settings notification_service c s).
Proof.
  intros Hs k a. destruct c as [now args|[t i u|t i u|t i kw]|now days]; cbn [call step].
  - unfold create_alert. destruct (_is_in_cooldown _ _ _ _); [apply Hs|]. simpl.
    destruct (decide (Z.of_nat (size (active_alerts s)) + 1 = k)) as [<-|Hne].
    + rewrite lookup_insert_eq. intros [= <-].
      rewrite id_send_notifications. simpl. split; [done | lia].
    + rewrite lookup_insert_ne by done. apply Hs.
  - unfold acknowledge_alert. destruct (active_alerts s !! i) as [b|] eqn:Hi; [|apply Hs].
    destruct (String.eqb _ _); [apply Hs|]. simpl.
    destruct (decide (i = k)) as [<-|Hne].
    + rewrite lookup_insert_eq. intros [= <-]. simpl. by apply Hs.
    + rewrite lookup_insert_ne by done. apply Hs.
  - unfold resolve_alert. destruct (active_alerts s !! i) as [b|] eqn:Hi; [|apply Hs].
    destruct (String.eqb _ _); [apply Hs|]. simpl.
    destruct (decide (i = k)) as [<-|Hne].
    + rewrite lookup_insert_eq. intros [= <-].
      destruct (acknowledged_at b); simpl; by apply Hs.
    + rewrite lookup_insert_ne by done. apply Hs.
  - unfold update_alert. destruct (active_alerts s !! i) as [b|] eqn:Hi; [|apply Hs].
    simpl. destruct (decide (i = k)) as [<-|Hne].
    + rewrite lookup_insert_eq. intros [= <-]. simpl.
      rewrite id_apply_kwargs. by apply Hs.
    + rewrite lookup_insert_ne by done. apply Hs.
  - rewrite (lookup_cleanup_old_alerts now days s k).
    destruct (active_alerts s !! k) as [b|] eqn:Hk; [|done].
    destruct (removable _ b); [done|]. intros [= <-]. by apply Hs.
Qed.

(** X10: through every sequence of calls on a new service (create,
    acknowledge, resolve, update, cleanup), each stored alert is stored
    under the id it carries, and the ids are at least 1. *)
Theorem ids_consistent_always cs :
  ids_consistent (calls settings notification_service cs init).
Proof.
  unfold calls. generalize ids_consistent_init. generalize init.
  induction cs as [|c rest IH]; intros s Hs; simpl; [done|].
  apply IH. by apply ids_consistent_call.
Qed.

Lemma stamped_call c s :
  keeps_status c = true →
  all_stamped s → all_stamped (call settings notification_service c s).
Proof.
  intros Hc Hs k a. destruct c as [now args|[t i u|t i u|t i kw]|now days]; cbn [call step].
  - unfold create_alert. destruct (_is_in_cooldown _ _ _ _); [apply Hs|]. simpl.
    destruct (decide (Z.of_nat (size (active_alerts s)) + 1 = k)) as [<-|Hne].
    + rewrite lookup_insert_eq. intros [= <-]. unfold stamped.
      rewrite status_send_notifications. simpl.
      rewrite status_score_from_analysis. simpl. by split.
    + rewrite lookup_insert_ne by done. apply Hs.
  - unfold acknowledge_alert. destruct (active_alerts s !! i) as [b|] eqn:Hi; [|apply Hs].
    destruct (String.eqb _ _); [apply Hs|]. simpl.
    destruct (decide (i = k)) as [<-|Hne].
    + rewrite lookup_insert_eq. intros [= <-]. unfold stamped. simpl.
      split; [eauto | done].
    + rewrite lookup_insert_ne by done. apply Hs.
  - unfold resolve_alert. destruct (active_alerts s !! i) as [b|] eqn:Hi; [|apply Hs].
    destruct (String.eqb _ _); [apply Hs|]. simpl.
    destruct (decide (i = k)) as [<-|Hne].
    + rewrite lookup_insert_eq. intros [= <-]. unfold stamped.
      destruct (acknowledged_at b); simpl; (split; [done | eauto]).
    + rewrite lookup_insert_ne by done. apply Hs.
  - unfold update_alert. destruct (active_alerts s !! i) as [b|] eqn:Hi; [|apply Hs].
    simpl. destruct (decide (i = k)) as [<-|Hne].
    + rewrite lookup_insert_eq. intros [= <-]. unfold stamped. simpl.
      rewrite status_apply_kwargs.
      simpl in Hc. destruct (status_kwarg kw); [done|]. simpl.
      destruct (same_protected_apply_kwargs kw b)
        as (_ & _ & _ & _ & _ & _ & _ & -> & -> & -> & _).
      by apply (Hs i).
    + rewrite lookup_insert_ne by done. apply Hs.
  - rewrite (lookup_cleanup_old_alerts now days s k).
    destruct (active_alerts s !! k) as [b|] eqn:Hk; [|done].
    destruct (removable _ b); [done|]. intros [= <-]. by apply (Hs k).
Qed.

(** X11: through every sequence of calls on a new service in which no
    update writes the status, an alert whose status is acknowledged has an
    acknowledgement time, an alert whose status is resolved has a
    resolution time, and both have a response time. *)
Theorem status_is_stamped cs :
  forallb keeps_status cs = true →
  all_stamped (calls settings notification_service cs init).
Proof.
  unfold calls.
  assert (all_stamped init) as H0
    by (intros k a H; simpl in H; by rewrite lookup_empty in H).
  revert H0. generalize init.
  induction cs as [|c rest IH]; intros s Hs Hk; simpl in *; [done|].
  apply andb_true_iff in Hk as [Hc Hrest].
  apply IH; [by apply stamped_call | done].
Qed.

End AlertCreationExtras.

(** * Further properties of the biometric service *)

Section BiometricExtras.

Import BiometricService.

Variable Encoding : Type.
Variable face_distance : Encoding → Encoding → Q.
Variable sha256 : string → string.
Variable settings : Settings.

Abbreviation BState := (BiometricService.State Encoding).
Abbreviation tolerance := (FACE_RECOGNITION_TOLERANCE settings).

Lemma dict_get_set_eq {V} k (v : V) d : dict_get k (dict_set k v d) = Some v.
Proof.
  induction d as [|[k' v'] rest IH]; simpl.
  - by rewrite Z.eqb_refl.
  - destruct (Z.eqb_spec k k') as [->|Hne]; simpl.
    + by rewrite Z.eqb_refl.
    + destruct (Z.eqb_spec k k'); [done|]. exact IH.
Qed.

Lemma dict_get_set_ne {V} k k' (v : V) d :
  k' ≠ k → dict_get k' (dict_set k v d) = dict_get k' d.
Proof.
  intros Hne. induction d as [|[j w] rest IH]; simpl.
  - destruct (Z.eqb_spec k' k); [done|]. done.
  - destruct (Z.eqb_spec k j) as [->|Hkj]; simpl.
    + destruct (Z.eqb_spec k' j); [done|]. done.
    + destruct (Z.eqb_spec k' j); [done|]. exact IH.
Qed.

Lemma requested_enrolled {V} u (t : V) cache :
  u ≠ 0 → dict_get u cache = Some t → requested (Some u) cache = Some (u, t).
Proof.
  intros Hu Hg. unfold requested. destruct (Z.eqb_spec u 0); [done|].
  by rewrite Hg.
Qed.

Lemma named_user_identity u (s : BState) :
  u ≠ 0 →
  (∀ t data,
     dict_get u (fingerprint_templates_cache s) = Some t →
     let r := authenticate_fingerprint sha256 data (Some u) s in
     user_id r = (if success r then Some u else None))
  ∧ (∀ t image,
       dict_get u (iris_templates_cache s) = Some t →
       let r := authenticate_iris sha256 image (Some u) s in
       user_id r = (if success r then Some u else None))
  ∧ (∀ known image,
       dict_get u (face_encodings_cache s) = Some known →
       let r := authenticate_face face_distance settings image (Some u) s in
       user_id r = (if success r then Some u else None)).
Proof.
  intros Hu. split; [|split].
  - intros t data Hg. unfold authenticate_fingerprint.
    by rewrite (requested_enrolled u t _ Hu Hg).
  - intros t image Hg. unfold authenticate_iris.
    by rewrite (requested_enrolled u t _ Hu Hg).
  - intros known image Hg. unfold authenticate_face.
    rewrite (requested_enrolled u known _ Hu Hg). simpl.
    destruct (face_locations image); [done|].
    destruct (face_encodings image); [done|]. simpl.
    by destruct (Qle_bool _ _).
Qed.

(** X12: an authentication that names a user other than 0 who has a
    template of the modality is decided against that template alone: it
    succeeds exactly when the sample matches it (equal hash; face distance
    within the tolerance), the identity it reports is the named user on
    success and none on failure, never another user; the confidence is 1 or
    0 for fingerprint and iris, and 1 minus the distance for a face,
    matching or not. *)
Theorem named_user_is_verified u (s : BState) :
  u ≠ 0 →
  (∀ t data,
     dict_get u (fingerprint_templates_cache s) = Some t →
     let r := authenticate_fingerprint sha256 data (Some u) s in
     (success r = true ↔ sha256 data = t)
     ∧ user_id r = (if success r then Some u else None)
     ∧ confidence r = Some (if success r then 1%Q else 0%Q))
  ∧ (∀ t image,
       dict_get u (iris_templates_cache s) = Some t →
       let r := authenticate_iris sha256 image (Some u) s in
       (success r = true ↔ sha256 (tobytes image) = t)
       ∧ user_id r = (if success r then Some u else None)
       ∧ confidence r = Some (if success r then 1%Q else 0%Q))
  ∧ (∀ known image,
       dict_get u (face_encodings_cache s) = Some known →
       let r := authenticate_face face_distance settings image (Some u) s in
       user_id r = (if success r then Some u else None)
       ∧ (∀ n unknown rest,
            face_locations image = S n → face_encodings image = unknown :: rest →
            success r = Qle_bool (face_distance known unknown) tolerance
            ∧ confidence r = Some (1 - face_distance known unknown)%Q)).
Proof.
  intros Hu. split; [|split].
  - intros t data Hg. unfold authenticate_fingerprint.
    rewrite (requested_enrolled u t _ Hu Hg). unfold hash_verify. simpl.
    destruct (String.eqb_spec (sha256 data) t); by repeat split.
  - intros t image Hg. unfold authenticate_iris.
    rewrite (requested_enrolled u t _ Hu Hg). unfold hash_verify. simpl.
    destruct (String.eqb_spec (sha256 (tobytes image)) t); by repeat split.
  - intros known image Hg. unfold authenticate_face.
    rewrite (requested_enrolled u known _ Hu Hg). simpl. split.
    + destruct (face_locations image); [done|].
      destruct (face_encodings image); [done|]. simpl.
      by destruct (Qle_bool _ _).
    + intros n unknown rest -> ->. done.
Qed.

(** X13: registering a fingerprint or an iris for a user other than 0 and
    then authenticating the same sample under that user's name succeeds as
    that user with confidence 1; the registration replaces the user's
    earlier template of that modality and leaves every other user's
    template and the other two caches as they were. *)
Theorem register_then_authenticate u (s : BState) :
  u ≠ 0 →
  (∀ data,
     let s' := (register_fingerprint sha256 u data s).2 in
     authenticate_fingerprint sha256 data (Some u) s'
     = mkAuthResult true (Some u) (Some 1%Q) None (Some "fingerprint") None
     ∧ dict_get u (fingerprint_templates_cache s') = Some (sha256 data)
     ∧ (∀ v, v ≠ u → dict_get v (fingerprint_templates_cache s')
                     = dict_get v (fingerprint_templates_cache s))
     ∧ face_encodings_cache s' = face_encodings_cache s
     ∧ iris_templates_cache s' = iris_templates_cache s)
  ∧ (∀ image,
       let s' := (register_iris sha256 u image s).2 in
       authenticate_iris sha256 image (Some u) s'
       = mkAuthResult true (Some u) (Some 1%Q) None (Some "iris") None
       ∧ dict_get u (iris_templates_cache s') = Some (sha256 (tobytes image))
       ∧ (∀ v, v ≠ u → dict_get v (iris_templates_cache s')
                       = dict_get v (iris_templates_cache s))
       ∧ face_encodings_cache s' = face_encodings_cache s
       ∧ fingerprint_templates_cache s' = fingerprint_templates_cache s).
Proof.
  intros Hu. split.
  - intros data. cbv zeta. unfold register_fingerprint.
    cbn [snd fingerprint_templates_cache face_encodings_cache iris_templates_cache].
    split; [|split; [|split; [|done]]].
    + unfold authenticate_fingerprint.
      cbn [fingerprint_templates_cache].
      rewrite (requested_enrolled u (sha256 data)); [|done|apply dict_get_set_eq].
      unfold hash_verify. by rewrite String.eqb_refl.
    + apply dict_get_set_eq.
    + intros v Hv. by apply dict_get_set_ne.
  - intros image. cbv zeta. unfold register_iris.
    cbn [snd fingerprint_templates_cache face_encodings_cache iris_templates_cache].
    split; [|split; [|split; [|done]]].
    + unfold authenticate_iris.
      cbn [iris_templates_cache].
      rewrite (requested_enrolled u (sha256 (tobytes image))); [|done|apply dict_get_set_eq].
      unfold hash_verify. by rewrite String.eqb_refl.
    + apply dict_get_set_eq.
    + intros v Hv. by apply dict_get_set_ne.
Qed.

Lemma hash_search_spec meth nr h cache :
  let r := hash_search meth nr h cache in
  (success r = true ↔ ∃ v, (v, h) ∈ cache)
  ∧ (∀ v, user_id r = Some v →
          ∃ before after,
            cache = (before ++ (v, h) :: after)%list
            ∧ ∀ w t, (w, t) ∈ before → t ≠ h)
  ∧ (success r = false → user_id r = None ∧ confidence r = Some 0%Q)
  ∧ (success r = true → confidence r = Some 1%Q ∧ is_Some (user_id r)).
Proof.
  induction cache as [|[w t] rest IH]; simpl.
  - split; [|by repeat split]. split; [done|]. by intros [v Hv%elem_of_nil].
  - destruct (String.eqb_spec h t) as [->|Hne]; simpl.
    + split; [|split; [|split]].
      * split; [|done]. intros _. exists w. left.
      * intros v [= <-]. exists [], rest. split; [done|].
        by intros ?? ?%elem_of_nil.
      * done.
      * intros _. eauto.
    + destruct IH as (I1 & I2 & I3 & I4). split; [|split; [|split]].
      * split.
        -- intros Hs. apply I1 in Hs as [v Hv]. exists v. by right.
        -- intros [v [[= _ <-]|Hv]%elem_of_cons]; [done|]. apply I1. eauto.
      * intros v Hv. destruct (I2 v Hv) as (before & after & -> & Hb).
        exists ((w, t) :: before), after. split; [done|].
        intros w' t' [[= -> ->]|Hin]%elem_of_cons; [done | by eapply Hb].
      * exact I3.
      * exact I4.
Qed.

(** X14: a fingerprint or iris authentication that names no user (or user
    0) succeeds exactly when some enrolled template equals the hash of the
    sample, and then reports, with confidence 1, the first user in
    enrolment order whose template does; otherwise it reports no user and
    confidence 0. *)
Theorem search_finds_first_match (s : BState) uid :
  uid = None ∨ uid = Some 0 →
  (∀ data,
     let r := authenticate_fingerprint sha256 data uid s in
     let h := sha256 data in
     (success r = true ↔ ∃ v, (v, h) ∈ fingerprint_templates_cache s)
     ∧ (∀ v, user_id r = Some v →
             ∃ before after,
               fingerprint_templates_cache s = (before ++ (v, h) :: after)%list
               ∧ ∀ w t, (w, t) ∈ before → t ≠ h)
     ∧ (success r = false → user_id r = None ∧ confidence r = Some 0%Q)
     ∧ (success r = true → confidence r = Some 1%Q ∧ is_Some (user_id r)))
  ∧ (∀ image,
       let r := authenticate_iris sha256 image uid s in
       let h := sha256 (tobytes image) in
       (success r = true ↔ ∃ v, (v, h) ∈ iris_templates_cache s)
       ∧ (∀ v, user_id r = Some v →
               ∃ before after,
                 iris_templates_cache s = (before ++ (v, h) :: after)%list
                 ∧ ∀ w t, (w, t) ∈ before → t ≠ h)
       ∧ (success r = false → user_id r = None ∧ confidence r = Some 0%Q)
       ∧ (success r = true → confidence r = Some 1%Q ∧ is_Some (user_id r))).
Proof.
  intros Hu. split.
  - intros data. unfold authenticate_fingerprint.
    assert (requested uid (fingerprint_templates_cache s) = None) as ->
      by (by destruct Hu as [->| ->]).
    apply hash_search_spec.
  - intros image. unfold authenticate_iris.
    assert (requested uid (iris_templates_cache s) = None) as ->
      by (by destruct Hu as [->| ->]).
    apply hash_search_spec.
Qed.

End BiometricExtras.

Section FaceSearchExtras.

Import BiometricService.

Variable Encoding : Type.
Variable face_distance : Encoding → Encoding → Q.
Variable settings : Settings.

Abbreviation within := (FaceSearch.within face_distance settings).
Abbreviation score := (FaceSearch.score face_distance).
Abbreviation best_of := (FaceSearch.best_of face_distance settings).

Lemma best_of_nonneg unknown seen best :
  best_of unknown seen best → (0 <= best.2)%Q.
Proof.
  unfold FaceSearch.best_of, FaceSearch.within, FaceSearch.score in *.
  intros [H _]. destruct best.1.
  - destruct H as (e & _ & _ & _ & H). by apply Qlt_le_weak.
  - rewrite H. apply Qle_refl.
Qed.

Lemma best_of_step unknown seen best entry :
  best_of unknown seen best →
  best_of unknown (seen ++ [entry])%list
    (face_search_step face_distance settings unknown best entry).
Proof.
  intros Hb. pose proof (best_of_nonneg _ _ _ Hb) as H0.
  unfold FaceSearch.best_of, FaceSearch.within, FaceSearch.score in *.
  destruct Hb as [Hbest Hall]. destruct entry as [w e].
  unfold face_search_step. simpl.
  destruct (Qle_bool (face_distance e unknown) _) eqn:Hw; simpl.
  - destruct (Qgtb _ best.2) eqn:Hg.
    + apply Qgtb_true in Hg as Hle.
      assert (¬ (1 - face_distance e unknown <= best.2)%Q) as Hlt.
      { intros Hc. apply Qle_bool_iff in Hc. unfold Qgtb in Hg.
        rewrite Hc in Hg. done. }
      apply Qnot_le_lt in Hlt.
      split; simpl.
      * exists e. split; [apply elem_of_app; right; left|].
        split; [done|]. split; [done|]. by eapply Qle_lt_trans.
      * intros v e' [Hin|Hin%list_elem_of_singleton]%elem_of_app Hq.
        -- eapply Qle_trans; [by apply (Hall v)|done].
        -- injection Hin as -> ->. apply Qle_refl.
    + apply Qgtb_false in Hg. split.
      * destruct best.1; [|done].
        destruct Hbest as (e' & ? & ? & ? & ?). exists e'.
        split; [apply elem_of_app; by left|done].
      * intros v e' [Hin|Hin%list_elem_of_singleton]%elem_of_app Hq.
        -- by apply (Hall v).
        -- by injection Hin as -> ->.
  - split.
    + destruct best.1; [|done].
      destruct Hbest as (e' & ? & ? & ? & ?). exists e'.
      split; [apply elem_of_app; by left|done].
    + intros v e' [Hin|Hin%list_elem_of_singleton]%elem_of_app Hq.
      * by apply (Hall v).
      * injection Hin as -> ->. congruence.
Qed.

Lemma best_of_foldl unknown seen rest best :
  best_of unknown seen best →
  best_of unknown (seen ++ rest)%list
    (foldl (face_search_step face_distance settings unknown) best rest).
Proof.
  revert seen best. induction rest as [|entry rest IH]; intros seen best Hb; simpl.
  - by rewrite app_nil_r.
  - replace (seen ++ entry :: rest)%list with ((seen ++ [entry]) ++ rest)%list
      by (by rewrite <- app_assoc).
    apply IH. by apply best_of_step.
Qed.


End FaceSearchExtras.

Section FusionExtras.

Import BiometricService.

Variable Encoding : Type.
Variable face_distance : Encoding → Encoding → Q.
Variable sha256 : string → string.
Variable settings : Settings.

Abbreviation FState := (BiometricService.State Encoding).
Abbreviation run_multi_modal :=
  (multi_modal_authentication face_distance sha256 settings).

Lemma fuse_no_success rf rp ri :
  (∀ x, x ∈ supplied rf rp ri → success x = false) →
  fused_success (fuse rf rp ri) = false.
Proof.
  intros H. unfold supplied in H.
  assert (∀ r, rf = Some r → success r = false) as Hf.
  { intros r ->. apply H. simpl. left. }
  assert (∀ r, rp = Some r → success r = false) as Hp.
  { intros r ->. apply H. destruct rf; simpl; [right|]; left. }
  assert (∀ r, ri = Some r → success r = false) as Hi.
  { intros r ->. apply H. destruct rf, rp; simpl; repeat (first [left | right]). }
  destruct rf as [[sf ? ? ? ? ?]|]; [specialize (Hf _ eq_refl); simpl in Hf; subst sf|];
    (destruct rp as [[sp ? ? ? ? ?]|]; [specialize (Hp _ eq_refl); simpl in Hp; subst sp|]);
    (destruct ri as [[si ? ? ? ? ?]|]; [specialize (Hi _ eq_refl); simpl in Hi; subst si|]);
    reflexivity.
Qed.

(** X16: on a service as its constructor builds it, with no template
    enrolled, every face, fingerprint and iris authentication fails,
    whatever the sample and whether or not a user is named, and so does
    every multi-modal authentication. *)
Theorem nothing_enrolled_nothing_authenticates :
  (∀ image uid, success (authenticate_face face_distance settings image uid
                           (init (Encoding := Encoding))) = false)
  ∧ (∀ data uid, success (authenticate_fingerprint sha256 data uid
                            (init (Encoding := Encoding))) = false)
  ∧ (∀ image uid, success (authenticate_iris sha256 image uid
                             (init (Encoding := Encoding))) = false)
  ∧ (∀ face_image fingerprint_data iris_image uid,
       fused_success (run_multi_modal face_image fingerprint_data iris_image uid init)
       = false).
Proof.
  assert (∀ V uid, requested (V := V) uid [] = None) as Hreq.
  { intros V [u|]; simpl; [|done]. by destruct (u =? 0). }
  assert (∀ image uid, success (authenticate_face face_distance settings image uid
                                  (init (Encoding := Encoding))) = false) as Hf.
  { intros image uid. unfold authenticate_face. simpl. rewrite Hreq.
    destruct (face_locations image); [done|]. by destruct (face_encodings image). }
  assert (∀ data uid, success (authenticate_fingerprint sha256 data uid
                                 (init (Encoding := Encoding))) = false) as Hp.
  { intros data uid. unfold authenticate_fingerprint. simpl. by rewrite Hreq. }
  assert (∀ image uid, success (authenticate_iris sha256 image uid
                                  (init (Encoding := Encoding))) = false) as Hi.
  { intros image uid. unfold authenticate_iris. simpl. by rewrite Hreq. }
  repeat split; try done.
  intros face_image fingerprint_data iris_image uid.
  unfold multi_modal_authentication. apply fuse_no_success.
  intros x Hx. unfold supplied in Hx.
  destruct face_image as [f|], fingerprint_data as [d|], iris_image as [i|],
    (IRIS_RECOGNITION_ENABLED settings); simpl in Hx;
    repeat (apply elem_of_cons in Hx as [->|Hx]; [done|]);
    by apply elem_of_nil in Hx.
Qed.

(** The summed confidence of the successful results is at most their
    number when no confidence exceeds 1. *)
Lemma sum_confidence_from acc (rs : list AuthResult) :
  (∀ x c, x ∈ rs → success x = true → confidence x = Some c → (c <= 1)%Q) →
  (∀ x, x ∈ rs → success x = true → is_Some (confidence x)) →
  (foldl (λ acc r, if success r then (acc + default 0%Q (confidence r))%Q else acc)
         acc rs
   <= acc + inject_Z (Z.of_nat (count_success rs)))%Q.
Proof.
  revert acc. induction rs as [|r rest IH]; intros acc Hle Hsome; simpl.
  - unfold count_success. simpl. rewrite Nat2Z.inj_0. unfold inject_Z. lra.
  - assert (∀ x c, x ∈ rest → success x = true → confidence x = Some c → (c <= 1)%Q)
      as Hle' by (intros ???; apply Hle; by right).
    assert (∀ x, x ∈ rest → success x = true → is_Some (confidence x))
      as Hsome' by (intros ??; apply Hsome; by right).
    unfold count_success. rewrite filter_cons.
    destruct (success r) eqn:Hs.
    + rewrite decide_True by done. simpl length.
      destruct (Hsome r) as [c Hc]; [left | done |]. rewrite Hc. simpl.
      specialize (Hle r c (list_elem_of_here _ _) Hs Hc).
      eapply Qle_trans; [apply (IH _ Hle' Hsome')|].
      fold (count_success rest).
      rewrite Nat2Z.inj_succ, <- Z.add_1_r, inject_Z_plus.
      change (inject_Z 1) with 1%Q.
      generalize (inject_Z (Z.of_nat (count_success rest))). intros k. lra.
    + rewrite decide_False by done. apply (IH _ Hle' Hsome').
Qed.

Lemma supplied_length rf rp ri : (length (supplied rf rp ri) ≤ 3)%nat.
Proof. destruct rf, rp, ri; simpl; lia. Qed.

Lemma count_success_le (rs : list AuthResult) : (count_success rs ≤ length rs)%nat.
Proof. apply length_filter. Qed.

Lemma mean_below_threshold (total : Q) (k n : nat) :
  (total <= inject_Z (Z.of_nat k))%Q → (k < n)%nat → (n ≤ 3)%nat →
  ¬ (7 # 10 <= average total n)%Q.
Proof.
  intros Ht Hk Hn Hm.
  assert (∀ t, t / inject_Z 2 == t * (1 # 2))%Q as E2 by (intros; field).
  assert (∀ t, t / inject_Z 3 == t * (1 # 3))%Q as E3 by (intros; field).
  assert (∀ t, t / inject_Z 1 == t)%Q as E1 by (intros; field).
  destruct n as [|[|[|[|n]]]]; [lia| | |  |lia];
    destruct k as [|[|[|k]]]; try lia;
    cbv [average Z.of_nat Pos.of_succ_nat Pos.succ] in Hm, Ht; unfold inject_Z in Ht;
    rewrite ?E1, ?E2, ?E3 in Hm; lra.
Qed.

Lemma fuse_all_succeed rf rp ri :
  well_formed rf → well_formed rp → well_formed ri →
  (∀ x c, x ∈ supplied rf rp ri → success x = true → confidence x = Some c →
          (c <= 1)%Q) →
  fused_success (fuse rf rp ri) = true →
  count_success (supplied rf rp ri) = length (supplied rf rp ri)
  ∧ (0 < length (supplied rf rp ri))%nat.
Proof.
  intros Wf Wp Wi Hle Hs.
  destruct (fuse_rule rf rp ri Wf Wp Wi) as (Hiff & _).
  { intros E. rewrite E in Hs. done. }
  apply Hiff in Hs as (Hpos & Hmean & _).
  pose proof (count_success_le (supplied rf rp ri)) as Hk.
  split; [|lia].
  destruct (decide (count_success (supplied rf rp ri) = length (supplied rf rp ri)))
    as [|Hne]; [done|].
  exfalso.
  apply (mean_below_threshold _ (count_success (supplied rf rp ri)) _)
    with (4 := Hmean); [|lia|apply supplied_length].
  unfold sum_confidence.
  eapply Qle_trans; [apply sum_confidence_from|].
  - exact Hle.
  - intros x Hx Hsx. unfold supplied in Hx.
    destruct rf as [f|], rp as [p|], ri as [i|]; simpl in Hx;
      repeat (apply elem_of_cons in Hx as [->|Hx];
              [first [by apply (Wf _ eq_refl) | by apply (Wp _ eq_refl)
                     | by apply (Wi _ eq_refl)]|]);
      by apply elem_of_nil in Hx.
  - lra.
Qed.

Lemma hash_confidence_le_1 meth nr h cache c :
  confidence (hash_search meth nr h cache) = Some c → (c <= 1)%Q.
Proof.
  induction cache as [|[w t] rest IH]; simpl.
  - intros [= <-]. lra.
  - destruct (String.eqb h t); [intros [= <-]; lra | exact IH].
Qed.

Lemma face_confidence_le_1 image uid (s : FState) c :
  (∀ a b, 0 <= face_distance a b)%Q →
  success (authenticate_face face_distance settings image uid s) = true →
  confidence (authenticate_face face_distance settings image uid s) = Some c →
  (c <= 1)%Q.
Proof.
  intros Hd. unfold authenticate_face.
  destruct (face_locations image); [done|].
  destruct (face_encodings image) as [|unknown rest]; [done|].
  destruct (requested uid _) as [[u known]|].
  - simpl. intros _ [= <-]. specialize (Hd known unknown). lra.
  - unfold face_search.
    assert (FaceSearch.best_of face_distance settings unknown [] (None, 0%Q)) as H0.
    { unfold FaceSearch.best_of. split; [done|]. by intros ?? ?%elem_of_nil. }
    apply (best_of_foldl _ face_distance settings unknown [] (face_encodings_cache s)) in H0.
    unfold FaceSearch.best_of, FaceSearch.score in H0.
    destruct (foldl _ _ _) as [[v|] b]; destruct H0 as [Hb _]; simpl in *; [|done].
    destruct Hb as (e & _ & _ & -> & _).
    destruct (v =? 0); [done|]. simpl. intros _ [= <-].
    specialize (Hd e unknown). lra.
Qed.

(** X17: with a face distance that is never negative, a multi-modal
    authentication succeeds only if every modality that was run succeeded
    (and at least one was run): the confidence of a success is at most 1
    and the sum is divided by the number of modalities run, so one failed
    modality out of two or three keeps the mean below 0.7. *)
Theorem one_failed_modality_fails_fusion
    face_image fingerprint_data iris_image uid (s : FState) :
  (∀ a b, 0 <= face_distance a b)%Q →
  let rf := (λ img, authenticate_face face_distance settings img uid s) <$> face_image in
  let rp := (λ d, authenticate_fingerprint sha256 d uid s) <$> fingerprint_data in
  let ri := if IRIS_RECOGNITION_ENABLED settings
            then (λ img, authenticate_iris sha256 img uid s) <$> iris_image
            else None in
  fused_success (run_multi_modal face_image fingerprint_data iris_image uid s) = true →
  count_success (supplied rf rp ri) = length (supplied rf rp ri)
  ∧ (0 < length (supplied rf rp ri))%nat.
Proof.
  intros Hd rf rp ri Hs.
  assert (well_formed rf) as Wf.
  { apply well_formed_fmap. intros img. apply authenticate_face_well_formed. }
  assert (well_formed rp) as Wp.
  { apply well_formed_fmap. intros d. apply authenticate_fingerprint_well_formed. }
  assert (well_formed ri) as Wi.
  { unfold ri. destruct (IRIS_RECOGNITION_ENABLED settings); [|by intros x [=]].
    apply well_formed_fmap. intros img. apply authenticate_iris_well_formed. }
  apply (fuse_all_succeed rf rp ri Wf Wp Wi); [|exact Hs].
  intros x c Hx Hsx Hc. unfold supplied in Hx.
  assert (∀ r, rf = Some r → success r = true → confidence r = Some c → (c <= 1)%Q) as Lf.
  { intros r Hr. unfold rf in Hr. destruct face_image as [img|]; [|done].
    injection Hr as <-. by apply face_confidence_le_1. }
  assert (∀ r, rp = Some r → confidence r = Some c → (c <= 1)%Q) as Lp.
  { intros r Hr. unfold rp in Hr. destruct fingerprint_data as [d|]; [|done].
    injection Hr as <-. unfold authenticate_fingerprint.
    destruct (requested uid _) as [[u t]|]; [|apply hash_confidence_le_1].
    unfold hash_verify. simpl. destruct (String.eqb _ _); intros [= <-]; lra. }
  assert (∀ r, ri = Some r → confidence r = Some c → (c <= 1)%Q) as Li.
  { intros r Hr. unfold ri in Hr.
    destruct (IRIS_RECOGNITION_ENABLED settings); [|done].
    destruct iris_image as [img|]; [|done].
    injection Hr as <-. unfold authenticate_iris.
    destruct (requested uid _) as [[u t]|]; [|apply hash_confidence_le_1].
    unfold hash_verify. simpl. destruct (String.eqb _ _); intros [= <-]; lra. }
  destruct rf as [f|], rp as [p|], ri as [i|]; simpl in Hx;
    repeat (apply elem_of_cons in Hx as [->|Hx];
            [first [by apply (Lf _ eq_refl) | by apply (Lp _ eq_refl)
                   | by apply (Li _ eq_refl)]|]);
    by apply elem_of_nil in Hx.
Qed.

End FusionExtras.

Section BiometricMoreExtras.

Import BiometricService.

Variable Encoding : Type.
Variable face_distance : Encoding → Encoding → Q.
Variable sha256 : string → string.
Variable settings : Settings.

Abbreviation MState := (BiometricService.State Encoding).

(** Case analysis on an optional well-formed result. *)
Ltac result_cases r H :=
  let s := fresh "s" in
  let u := fresh "u" in
  let c := fresh "c" in
  destruct r as [[s u c ? ? ?]|];
  [ destruct s;
    [ pose proof (H _ eq_refl eq_refl) as [[? ?] [? ?]]; simpl in *; subst | ]
  | ].

Lemma fuse_one_identity rf rp ri u :
  well_formed rf → well_formed rp → well_formed ri →
  (∀ x, x ∈ supplied rf rp ri → success x = true → user_id x = Some u) →
  fuse rf rp ri ≠ mismatch
  ∧ (fused_user_id (fuse rf rp ri) = None ∨ fused_user_id (fuse rf rp ri) = Some u).
Proof.
  intros Wf Wp Wi H. unfold supplied in H.
  assert (∀ r, rf = Some r → success r = true → user_id r = Some u) as Hf.
  { intros r ->. apply H. simpl. left. }
  assert (∀ r, rp = Some r → success r = true → user_id r = Some u) as Hp.
  { intros r ->. apply H. destruct rf; simpl; [right|]; left. }
  assert (∀ r, ri = Some r → success r = true → user_id r = Some u) as Hi.
  { intros r ->. apply H. destruct rf, rp; simpl; repeat (first [left | right]). }
  clear H.
  result_cases rf Wf; result_cases rp Wp; result_cases ri Wi;
    try (specialize (Hf _ eq_refl eq_refl)); try (specialize (Hp _ eq_refl eq_refl));
    try (specialize (Hi _ eq_refl eq_refl)); simplify_eq/=;
    unfold fuse; simpl; repeat (case_bool_decide; simplify_eq/=);
    (split; [done | first [by left | by right]]).
Qed.

(** X18: when the user named to a multi-modal authentication is not 0 and
    has a template of every modality that is run, the fusion never ends in
    an identity mismatch, and the identity it reports is the named user or
    none. *)
Theorem named_and_enrolled_never_mismatch
    face_image fingerprint_data iris_image u (s : MState) :
  u ≠ 0 →
  (is_Some face_image → is_Some (dict_get u (face_encodings_cache s))) →
  (is_Some fingerprint_data → is_Some (dict_get u (fingerprint_templates_cache s))) →
  (is_Some iris_image → is_Some (dict_get u (iris_templates_cache s))) →
  let r := multi_modal_authentication face_distance sha256 settings
             face_image fingerprint_data iris_image (Some u) s in
  r ≠ mismatch ∧ (fused_user_id r = None ∨ fused_user_id r = Some u).
Proof.
  intros Hu Hf Hp Hi. simpl. unfold multi_modal_authentication.
  destruct (named_user_identity Encoding face_distance sha256 settings u s Hu)
    as (Vp & Vi & Vf).
  apply fuse_one_identity.
  - apply well_formed_fmap. intros img. apply authenticate_face_well_formed.
  - apply well_formed_fmap. intros d. apply authenticate_fingerprint_well_formed.
  - destruct (IRIS_RECOGNITION_ENABLED settings); [|by intros x [=]].
    apply well_formed_fmap. intros img. apply authenticate_iris_well_formed.
  - intros x Hx Hs. unfold supplied in Hx.
    assert (∀ img, face_image = Some img →
                   x = authenticate_face face_distance settings img (Some u) s →
                   user_id x = Some u) as Lf.
    { intros img E ->. destruct (Hf (ltac:(by rewrite E))) as [known Hk].
      rewrite (Vf known img Hk). by rewrite Hs. }
    assert (∀ d, fingerprint_data = Some d →
                 x = authenticate_fingerprint sha256 d (Some u) s →
                 user_id x = Some u) as Lp.
    { intros d E ->. destruct (Hp (ltac:(by rewrite E))) as [t Ht].
      rewrite (Vp t d Ht). by rewrite Hs. }
    assert (∀ img, iris_image = Some img →
                   x = authenticate_iris sha256 img (Some u) s →
                   user_id x = Some u) as Li.
    { intros img E ->. destruct (Hi (ltac:(by rewrite E))) as [t Ht].
      rewrite (Vi t img Ht). by rewrite Hs. }
    destruct face_image as [f|], fingerprint_data as [d|], iris_image as [i|],
      (IRIS_RECOGNITION_ENABLED settings); simpl in Hx;
      repeat (apply elem_of_cons in Hx as [E|Hx];
              [first [by apply (Lf _ eq_refl) | by apply (Lp _ eq_refl)
                     | by apply (Li _ eq_refl)]|]);
      by apply elem_of_nil in Hx.
Qed.

(** The liveness verdict and its confidence agree: the confidence is
    never above 1, a sample judged live has a confidence of at least 0.1
    and a sample judged not live a confidence of at most 0.1; the quality
    score is the variance itself. *)
Theorem liveness_confidence_bounds (image : Image Encoding) :
  let r := detect_liveness image in
  (live_confidence r <= 1)%Q
  ∧ quality_score r = laplacian_variance image
  ∧ (is_live r = true ↔ (100 < laplacian_variance image)%Q)
  ∧ (is_live r = true → (1 # 10 <= live_confidence r)%Q)
  ∧ (is_live r = false → (live_confidence r <= 1 # 10)%Q).
Proof.
  simpl. set (v := laplacian_variance image).
  assert (v / 1000 == v * (1 # 1000))%Q as E by field.
  assert (Qgtb v 100 = true ↔ (100 < v)%Q) as Hlive.
  { unfold Qgtb. rewrite negb_true_iff. split.
    - intros H. apply Qnot_le_lt. intros Hle. apply Qle_bool_iff in Hle. congruence.
    - intros H. destruct (Qle_bool v 100) eqn:Hb; [|done].
      apply Qle_bool_iff in Hb. lra. }
  split; [|split; [done|split; [done|split]]].
  - destruct (Qgtb (v / 1000) 1) eqn:Hg; [lra|].
    by apply Qgtb_false in Hg.
  - intros H. apply Hlive in H.
    destruct (Qgtb (v / 1000) 1) eqn:Hg; [lra|]. rewrite E. lra.
  - intros H.
    assert (v <= 100)%Q as Hle.
    { unfold Qgtb in H. apply negb_false_iff, Qle_bool_iff in H. exact H. }
    destruct (Qgtb (v / 1000) 1) eqn:Hg.
    + apply Qgtb_true in Hg. rewrite E in Hg. lra.
    + rewrite E. lra.
Qed.

Lemma register_face_failure_unchanged uid image (s : MState) :
  reg_success (register_face uid image s).1 = false →
  (register_face uid image s).2 = s.
Proof.
  unfold register_face.
  destruct (face_locations image) as [|[|n]]; [done| |done].
  by destruct (face_encodings image).
Qed.

(** X19: [register_face] stores a template only for an image with exactly
    one face location and at least one encoding, and then stores the first
    encoding for that user alone; an image with no face, several faces or
    no encoding is refused with the service unchanged.  After a successful
    registration of a user other than 0, the same image authenticates
    under that user's name whenever the distance of an encoding to itself
    is within the tolerance. *)
Theorem register_face_single_face uid image (s : MState) :
  let r := register_face uid image s in
  (reg_success r.1 = true
   ↔ face_locations image = 1%nat ∧ face_encodings image ≠ [])
  ∧ (reg_success r.1 = false → r.2 = s ∧ is_Some (reg_error r.1))
  ∧ (∀ e rest,
       reg_success r.1 = true → face_encodings image = e :: rest →
       dict_get uid (face_encodings_cache r.2) = Some e
       ∧ (∀ v, v ≠ uid → dict_get v (face_encodings_cache r.2)
                         = dict_get v (face_encodings_cache s))
       ∧ fingerprint_templates_cache r.2 = fingerprint_templates_cache s
       ∧ iris_templates_cache r.2 = iris_templates_cache s
       ∧ (uid ≠ 0 →
          Qle_bool (face_distance e e) (FACE_RECOGNITION_TOLERANCE settings) = true →
          let a := authenticate_face face_distance settings image (Some uid) r.2 in
          success a = true ∧ user_id a = Some uid)).
Proof.
  simpl. unfold register_face.
  destruct (face_locations image) as [|[|n]] eqn:Hn; simpl.
  - split; [split; [done | by intros [[=] _]]|]. split; [eauto|done].
  - destruct (face_encodings image) as [|e0 rest0] eqn:He; simpl.
    + split; [split; [done | by intros [_ ?]]|]. split; [eauto|done].
    + split; [done|]. split; [done|].
      intros e rest _ [= <- <-]. split; [apply dict_get_set_eq|].
      split; [intros v Hv; by apply dict_get_set_ne|]. split; [done|]. split; [done|].
      intros Hu Hd. unfold authenticate_face. rewrite Hn, He.
      cbn [face_encodings_cache].
      rewrite (requested_enrolled uid e0); [|done|apply dict_get_set_eq].
      simpl. by rewrite Hd.
  - split; [split; [done | by intros [[=] _]]|]. split; [eauto|done].
Qed.

End BiometricMoreExtras.

(** * Further properties of the biometric endpoints *)

Section ApiExtras.

Import BiometricService.

Variable Encoding : Type.
Variable face_distance : Encoding → Encoding → Q.
Variable sha256 : string → string.
Variable settings : Settings.
Variable imdecode : string → option (Image Encoding).

Abbreviation AState := (BiometricService.State Encoding).

(** X20: no biometric endpoint ever answers with a status other than 500
    when it raises: the 400 and 403 exceptions raised for a bad file type,
    an undecodable image or missing permissions are caught by the
    endpoint's own handler and replaced by a 500. *)
Theorem endpoint_errors_are_500 uid ouid f ff fp fi current_user (svc : AState) :
  let not_4xx {A} (o : BiometricApi.Outcome A) :=
    ∀ code detail, o = BiometricApi.HTTPException code detail → code = 500%nat in
  not_4xx (BiometricApi.register_face imdecode uid f current_user svc).1
  ∧ not_4xx (BiometricApi.register_fingerprint sha256 uid f current_user svc).1
  ∧ not_4xx (BiometricApi.register_iris sha256 imdecode uid f current_user svc).1
  ∧ not_4xx (BiometricApi.authenticate_face face_distance settings imdecode f ouid svc)
  ∧ not_4xx (BiometricApi.authenticate_fingerprint sha256 f ouid svc)
  ∧ not_4xx (BiometricApi.authenticate_iris sha256 imdecode f ouid svc)
  ∧ not_4xx (BiometricApi.authenticate_multi_modal face_distance sha256 settings
               imdecode ff fp fi ouid svc).
Proof.
  simpl.
  unfold BiometricApi.register_face, BiometricApi.register_fingerprint,
    BiometricApi.register_iris, BiometricApi.authenticate_face,
    BiometricApi.authenticate_fingerprint, BiometricApi.authenticate_iris,
    BiometricApi.authenticate_multi_modal, BiometricApi.handled.
  repeat split; intros code detail;
    repeat (case_match; simpl; try done); congruence.
Qed.

(** X21: a registration endpoint changes the service only when it answers
    with a successful registration: when it raises, or reports a failed
    registration or liveness check, the service is as before; in
    particular a caller who is not an administrator cannot register a
    biometric for another user. *)
Theorem failed_registration_changes_nothing uid f current_user (svc : AState) :
  let unchanged (r : BiometricApi.Outcome BiometricApi.BiometricRegistrationResponse
                     * AState) :=
    (∀ body, r.1 = BiometricApi.Body body → BiometricApi.resp_reg_success body = false
             → r.2 = svc)
    ∧ (∀ code detail, r.1 = BiometricApi.HTTPException code detail → r.2 = svc)
    ∧ (BiometricApi.is_admin current_user = false →
       BiometricApi.current_user_id current_user ≠ uid →
       r.2 = svc ∧ ∃ detail, r.1 = BiometricApi.HTTPException 500 detail) in
  unchanged (BiometricApi.register_face imdecode uid f current_user svc)
  ∧ unchanged (BiometricApi.register_fingerprint sha256 uid f current_user svc)
  ∧ unchanged (BiometricApi.register_iris sha256 imdecode uid f current_user svc).
Proof.
  simpl.
  assert (∀ u, BiometricApi.is_admin current_user = false →
               BiometricApi.current_user_id current_user ≠ u →
               BiometricApi.forbidden current_user u = true) as Hforb.
  { intros u Ha Hu. unfold BiometricApi.forbidden. rewrite Ha. simpl.
    by destruct (Z.eqb_spec (BiometricApi.current_user_id current_user) u). }
  split; [|split].
  - unfold BiometricApi.register_face. split; [|split].
    + intros body. repeat (case_match; simpl; try done).
      intros [= <-]. simpl.
      match goal with
      | Hr : register_face _ ?img _ = _ |- _ =>
          pose proof (register_face_failure_unchanged Encoding uid img svc) as Hfail;
          rewrite Hr in Hfail
      end.
      simpl in Hfail. intros Hs. by apply Hfail.
    + intros code detail. repeat (case_match; simpl; try done).
    + intros Ha Hu. rewrite (Hforb uid Ha Hu). simpl. eauto.
  - unfold BiometricApi.register_fingerprint. split; [|split].
    + intros body. repeat (case_match; simpl; try done).
      unfold register_fingerprint in *. simplify_eq. intros [= <-]. done.
    + intros code detail. repeat (case_match; simpl; try done).
    + intros Ha Hu. rewrite (Hforb uid Ha Hu). simpl. eauto.
  - unfold BiometricApi.register_iris. split; [|split].
    + intros body. repeat (case_match; simpl; try done).
      unfold register_iris in *. simplify_eq. intros [= <-]. done.
    + intros code detail. repeat (case_match; simpl; try done).
    + intros Ha Hu. rewrite (Hforb uid Ha Hu). simpl. eauto.
Qed.

(** X22: the multi-modal endpoint drops a face or iris upload that cannot
    be decoded and authenticates on what is left, as if the file had not
    been sent, where the single-modality face and iris endpoints raise for
    the same upload. *)
Theorem multi_modal_drops_undecodable f fp fi ff uid (svc : AState) :
  imdecode (BiometricApi.file_bytes f) = None →
  BiometricApi.is_image f = true →
  BiometricApi.authenticate_multi_modal face_distance sha256 settings imdecode
    (Some f) fp fi uid svc
  = BiometricApi.authenticate_multi_modal face_distance sha256 settings imdecode
      None fp fi uid svc
  ∧ BiometricApi.authenticate_multi_modal face_distance sha256 settings imdecode
      ff fp (Some f) uid svc
    = BiometricApi.authenticate_multi_modal face_distance sha256 settings imdecode
        ff fp None uid svc
  ∧ BiometricApi.authenticate_face face_distance settings imdecode f uid svc
    = BiometricApi.HTTPException 500 "Face authentication failed"
  ∧ BiometricApi.authenticate_iris sha256 imdecode f uid svc
    = BiometricApi.HTTPException 500 "Iris authentication failed".
Proof.
  intros Hd Hi.
  unfold BiometricApi.authenticate_multi_modal, BiometricApi.authenticate_face,
    BiometricApi.authenticate_iris.
  simpl. rewrite Hd, Hi. done.
Qed.

End ApiExtras.

(** * Properties of the notification service and of the camera handlers *)

Section NotificationExtras.

Import AlertService.

Variable settings : Settings.
Variable world : Notifications.World.

(** The split never gives an empty list, and joining its parts gives the
    string back. *)
Lemma split_commas_nonempty s : Notifications.split_commas s ≠ [].
Proof.
  destruct s as [|c rest]; simpl; [done|].
  case_match; [done|].
  by destruct (Notifications.split_commas rest).
Qed.

Lemma join_split_commas s :
  Notifications.join_commas (Notifications.split_commas s) = s.
Proof.
  induction s as [|c rest IH]; [done|].
  pose proof (split_commas_nonempty rest) as Hne.
  cbn [Notifications.split_commas].
  destruct (String.eqb_spec (String c EmptyString) ",") as [[= ->]|_].
  - destruct (Notifications.split_commas rest) as [|part parts] eqn:E; [done|].
    cbn [Notifications.join_commas] in *. by rewrite IH.
  - destruct (Notifications.split_commas rest) as [|part parts] eqn:E; [done|].
    destruct parts as [|part' parts]; cbn [Notifications.join_commas] in *;
      by rewrite <- IH.
Qed.

Lemma uninitialised_answers emails phones api_key api_url :
  let svc := Notifications.fresh emails phones api_key api_url in
  (Notifications.send_email_alert settings svc world).1 = EMAIL_ENABLED settings
  ∧ (Notifications.send_sms_alert settings svc world).1 = SMS_ENABLED settings
  ∧ Notifications.send_webhook_alert settings svc world = false.
Proof.
  unfold Notifications.send_email_alert, Notifications.send_sms_alert,
    Notifications.send_webhook_alert, Notifications.fresh. simpl.
  pose proof (split_commas_nonempty emails) as He.
  pose proof (split_commas_nonempty phones) as Hp.
  rewrite !bool_decide_eq_false_2 by done. rewrite !orb_false_r.
  split; [by destruct (EMAIL_ENABLED settings)|].
  split; [by destruct (SMS_ENABLED settings)|].
  destruct (WEBHOOK_URL settings) as [url|]; [|done].
  by destruct (truthy_str url).
Qed.

(** The delivery flags that [_send_notifications] writes. *)
Lemma flags_send_notifications ns alert :
  let a := _send_notifications settings ns alert in
  email_sent a
  = (if EMAIL_ENABLED settings then send_email_alert ns alert else email_sent alert)
  ∧ sms_sent a
    = (if SMS_ENABLED settings then send_sms_alert ns alert else sms_sent alert)
  ∧ webhook_sent a
    = match WEBHOOK_URL settings with
      | Some url =>
          if truthy_str url then send_webhook_alert ns alert else webhook_sent alert
      | None => webhook_sent alert
      end.
Proof.
  unfold _send_notifications.
  destruct (EMAIL_ENABLED settings), (SMS_ENABLED settings),
    (WEBHOOK_URL settings) as [url|]; try destruct (truthy_str url); done.
Qed.

Lemma flags_score_from_analysis ai alert :
  email_sent (score_from_analysis ai alert) = email_sent alert
  ∧ sms_sent (score_from_analysis ai alert) = sms_sent alert
  ∧ webhook_sent (score_from_analysis ai alert) = webhook_sent alert.
Proof.
  unfold score_from_analysis.
  destruct ai as [[payload [scores|]]|]; simpl; try done.
  by destruct (snd <$> scores).
Qed.

(** X23: on a notification service that was constructed and never
    initialised, the e-mail and SMS recipient lists are never empty (an
    unset variable gives the one recipient [""]), so [send_email_alert] and
    [send_sms_alert] answer [True] exactly when the channel is enabled,
    whether or not anything was delivered; no SMS request is ever answered
    and [send_webhook_alert] always answers [False], for want of an HTTP
    client. *)
Theorem uninitialised_service_delivery emails phones api_key api_url :
  let svc := Notifications.fresh emails phones api_key api_url in
  let email := Notifications.send_email_alert settings svc world in
  let sms := Notifications.send_sms_alert settings svc world in
  email.1 = EMAIL_ENABLED settings
  ∧ (EMAIL_ENABLED settings = true →
     email.2 ≠ [] ∧ email.2.*1 = Notifications.split_commas emails
     ∧ (emails = "" → email.2 = [("", Notifications.smtp_completes world "")]))
  ∧ sms.1 = SMS_ENABLED settings
  ∧ (SMS_ENABLED settings = true → sms.2.*1 = Notifications.split_commas phones)
  ∧ (∀ r code, (r, Notifications.PostAnswered code) ∉ sms.2)
  ∧ Notifications.send_webhook_alert settings svc world = false.
Proof.
  intros svc email sms.
  destruct (uninitialised_answers emails phones api_key api_url) as (He & Hs & Hw).
  split; [exact He|]. split; [|split; [exact Hs|split; [|split; [|exact Hw]]]].
  - intros Hen. subst email svc.
    unfold Notifications.send_email_alert, Notifications.fresh. simpl.
    pose proof (split_commas_nonempty emails) as Hne.
    rewrite Hen, bool_decide_eq_false_2 by done. simpl. split; [|split].
    + by destruct (Notifications.split_commas emails).
    + rewrite <- list_fmap_compose. apply list_fmap_id.
    + by intros ->.
  - intros Hen. subst sms svc.
    unfold Notifications.send_sms_alert, Notifications.fresh. simpl.
    pose proof (split_commas_nonempty phones) as Hne.
    rewrite Hen, bool_decide_eq_false_2 by done. simpl.
    rewrite <- list_fmap_compose. apply list_fmap_id.
  - intros r code. subst sms svc.
    unfold Notifications.send_sms_alert, Notifications.fresh. simpl.
    destruct (_ || _); simpl; [apply not_elem_of_nil|].
    intros (x & [= _ Hx] & _)%list_elem_of_fmap.
    unfold Notifications._send_sms, Notifications.post in Hx. simpl in Hx.
    by destruct (negb _ || negb _).
Qed.

(** The delivery flags of an alert created by an alert service whose
    notification service was never initialised say only which channels are
    enabled: [email_sent] and [sms_sent] are the two settings and
    [webhook_sent] is [False]. *)
Theorem flags_without_initialisation emails phones api_key api_url now args s alert :
  let ns := Notifications.as_transports settings
              (Notifications.fresh emails phones api_key api_url) world in
  (create_alert settings ns now args s).1 = Some alert →
  email_sent alert = EMAIL_ENABLED settings
  ∧ sms_sent alert = SMS_ENABLED settings
  ∧ webhook_sent alert = false.
Proof.
  intros ns Hc. unfold create_alert in Hc.
  destruct (_is_in_cooldown _ _ _ _); [done|]. simpl in Hc. injection Hc as <-.
  destruct (uninitialised_answers emails phones api_key api_url) as (He & Hs & Hw).
  match goal with |- context [_send_notifications _ _ ?a] =>
    destruct (flags_send_notifications ns a) as (-> & -> & ->);
    destruct (flags_score_from_analysis (arg_ai_analysis args)
                (Alert_new now args)) as (H1 & H2 & H3)
  end.
  unfold ns. simpl. rewrite He, Hs, Hw.
  split; [by destruct (EMAIL_ENABLED settings)|].
  split; [by destruct (SMS_ENABLED settings)|].
  destruct (WEBHOOK_URL settings) as [url|]; [destruct (truthy_str url)|]; done.
Qed.

End NotificationExtras.

Section CameraExtras.

Import AlertService.

Variable settings : Settings.
Variable world : Notifications.World.
Variable storage_path : string.

(** What [create_alert] copies from its arguments onto the alert. *)
Lemma create_alert_fields ns now args s alert :
  (create_alert settings ns now args s).1 = Some alert →
  id alert = Some (Z.of_nat (size (active_alerts s)) + 1)
  ∧ status alert = "active"
  ∧ alert_type alert = arg_alert_type args
  ∧ severity alert = arg_severity args
  ∧ title alert = arg_title args
  ∧ description alert = arg_description args
  ∧ camera_id alert = arg_camera_id args
  ∧ location alert = arg_location args
  ∧ image_path alert = arg_image_path args
  ∧ created_at alert = now
  ∧ ai_analysis alert = analysis_payload <$> arg_ai_analysis args.
Proof.
  unfold create_alert. destruct (_is_in_cooldown _ _ _ _); [done|].
  simpl. intros [= <-].
  unfold _send_notifications, score_from_analysis, Alert_new.
  destruct (EMAIL_ENABLED settings), (SMS_ENABLED settings),
    (WEBHOOK_URL settings) as [url|]; try destruct (truthy_str url);
    destruct (arg_ai_analysis args) as [[payload [scores|]]|]; simpl;
    try destruct (snd <$> scores); done.
Qed.

Lemma create_alert_on_new_service ns now args :
  is_Some (create_alert settings ns now args init).1.
Proof. unfold create_alert, _is_in_cooldown. simpl. by rewrite lookup_empty. Qed.

Lemma create_alert_again_suppressed ns now now' args args' :
  cooldown_key args' = cooldown_key args →
  now' - now < timedelta_seconds (ALERT_COOLDOWN settings) →
  (create_alert settings ns now' args'
     (create_alert settings ns now args init).2).1 = None.
Proof.
  intros Hk Hlt.
  assert (alert_cooldowns (create_alert settings ns now args init).2
            !! cooldown_key args = Some now) as Hstamp.
  { unfold create_alert, _is_in_cooldown. simpl. rewrite lookup_empty. simpl.
    apply lookup_insert_eq. }
  unfold create_alert at 1. unfold _is_in_cooldown.
  rewrite Hk, Hstamp. by rewrite bool_decide_eq_true_2.
Qed.

(** X24: every motion or emergency event whose frame could be saved
    creates an alert, with id 1 and status active, whatever was raised
    before: the handler builds a new alert service for each event, so
    neither the cooldown nor the id counter ever sees an earlier alert,
    where the same two events on one service would have the second
    suppressed.  The notification service of that alert service is never
    initialised, so the flags of the alert only repeat the settings.  When
    the frame cannot be saved no alert is created. *)
Theorem camera_events_are_never_suppressed
    emails phones api_key api_url now timestamp camera_id description analysis :
  let ns := Notifications.as_transports settings
              (Notifications.fresh emails phones api_key api_url) world in
  let motion := CameraService._handle_motion_event settings ns storage_path in
  let emergency := CameraService._handle_emergency_event settings ns storage_path in
  let raised (r : option Alert) kind level :=
    ∃ alert, r = Some alert
      ∧ id alert = Some 1 ∧ status alert = "active"
      ∧ alert_type alert = kind ∧ severity alert = level
      ∧ AlertService.camera_id alert = Some camera_id
      ∧ location alert = None
      ∧ image_path alert
        = Some (CameraService.frame_path storage_path kind camera_id timestamp)
      ∧ created_at alert = now
      ∧ email_sent alert = EMAIL_ENABLED settings
      ∧ sms_sent alert = SMS_ENABLED settings
      ∧ webhook_sent alert = false in
  raised (motion now timestamp camera_id false) "motion" "medium"
  ∧ raised (emergency now timestamp camera_id description analysis false)
      "emergency" "critical"
  ∧ motion now timestamp camera_id true = None
  ∧ emergency now timestamp camera_id description analysis true = None
  ∧ (∀ now' timestamp',
       now' - now < timedelta_seconds (ALERT_COOLDOWN settings) →
       is_Some (motion now' timestamp' camera_id false)
       ∧ (create_alert settings ns now'
            (CameraService.motion_args camera_id
               (CameraService.frame_path storage_path "motion" camera_id timestamp'))
            (create_alert settings ns now
               (CameraService.motion_args camera_id
                  (CameraService.frame_path storage_path "motion" camera_id timestamp))
               init).2).1 = None).
Proof.
  intros ns motion emergency raised.
  assert (Hraised : ∀ args kind level,
            arg_alert_type args = kind → arg_severity args = level →
            arg_camera_id args = Some camera_id → arg_location args = None →
            arg_image_path args
            = Some (CameraService.frame_path storage_path kind camera_id timestamp) →
            raised (create_alert settings ns now args init).1 kind level).
  { intros args kind level Ht Hs Hc Hl Hi.
    destruct (create_alert_on_new_service ns now args) as [alert Ha].
    exists alert. split; [done|].
    destruct (create_alert_fields ns now args init alert Ha)
      as (Hid & ? & ? & ? & ? & ? & ? & ? & ? & ? & ?).
    simpl in Hid. rewrite map_size_empty in Hid.
    destruct (flags_without_initialisation settings world emails phones api_key
                api_url now args init alert Ha) as (? & ? & ?).
    repeat split; first [congruence | exact Hid]. }
  split; [by apply Hraised|]. split; [by apply Hraised|].
  split; [done|]. split; [done|].
  intros now' timestamp' Hlt. split.
  - apply create_alert_on_new_service.
  - by apply create_alert_again_suppressed.
Qed.

End CameraExtras.

(** * Properties of the frame analysis *)

Section AIExtras.

Import AIService.

Lemma Qgtb_iff a b : Qgtb a b = true ↔ (b < a)%Q.
Proof.
  unfold Qgtb. rewrite negb_true_iff. split.
  - intros H. apply Qnot_le_lt. intros Hle. apply Qle_bool_iff in Hle. congruence.
  - intros H. destruct (Qle_bool a b) eqn:E; [|done].
    apply Qle_bool_iff in E. exfalso. by apply (Qlt_not_le _ _ H).
Qed.

(** A detection carries confidence 1: the score is above the threshold, so
    the quotient is above 1 and [min] always picks 1.0. *)
Lemma threshold_detection_spec score threshold :
  (0 < threshold)%Q →
  let d := threshold_detection score threshold in
  (detected d = true ↔ (threshold < score)%Q)
  ∧ (detected d = true → detection_confidence d = 1%Q)
  ∧ (detected d = false →
     detection_confidence d = score ∧ (score <= threshold)%Q).
Proof.
  intros Hpos. unfold threshold_detection. simpl.
  split; [apply Qgtb_iff|]. split.
  - intros H. rewrite H. unfold min_1.
    replace (Qgtb (score / threshold) 1) with true; [done|].
    symmetry. apply Qgtb_iff. apply Qlt_shift_div_l; [done|].
    rewrite Qmult_1_l. by apply Qgtb_iff.
  - intros H. rewrite H. split; [done|]. by apply Qgtb_false.
Qed.

Lemma detection_confidence_le_1 score threshold :
  (0 < threshold)%Q → (threshold <= 1)%Q →
  (detection_confidence (threshold_detection score threshold) <= 1)%Q.
Proof.
  intros Hpos Hle.
  destruct (threshold_detection_spec score threshold Hpos) as (_ & Ht & Hf).
  destruct (detected (threshold_detection score threshold)).
  - rewrite Ht by done. apply Qle_refl.
  - destruct Hf as [-> Hs]; [done|]. by eapply Qle_trans.
Qed.

(** What the contour loop appends. *)
Lemma classify_spec cs objs o :
  classify cs = Some objs → o ∈ objs →
  ∃ c ratio,
    c ∈ cs ∧ (1000 < area c)%Q
    ∧ aspect_ratio (rect_w c) (rect_h c) = Some ratio
    ∧ object_bbox o = (rect_x c, rect_y c, rect_w c, rect_h c)
    ∧ object_confidence o = (8 # 10)%Q
    ∧ class o = (if Qgtb ratio (3 # 10) && Qgtb 3 ratio then "person" else "object").
Proof.
  revert objs. induction cs as [|c rest IH]; intros objs; simpl.
  - intros [= <-] []%elem_of_nil.
  - destruct (Qgtb (area c) 1000) eqn:Ea.
    + destruct (aspect_ratio (rect_w c) (rect_h c)) as [ratio|] eqn:Er; [|done].
      destruct (classify rest) as [objs'|]; [|done]. simpl.
      intros [= <-] [->|Hin]%elem_of_cons.
      * exists c, ratio. simpl. repeat split; try done; [left | by apply Qgtb_iff].
      * destruct (IH objs' eq_refl Hin) as (c' & r' & Hc' & H).
        exists c', r'. split; [by right | done].
    + intros Hc Hin. destruct (IH objs Hc Hin) as (c' & r' & Hc' & H).
      exists c', r'. split; [by right | done].
Qed.

Lemma pose_loop_spec objs ps p :
  pose_loop objs = Some ps → p ∈ ps →
  ∃ o x y w h ratio,
    o ∈ objs ∧ class o = "person" ∧ object_bbox o = (x, y, w, h)
    ∧ aspect_ratio w h = Some ratio
    ∧ pose_bbox p = (x, y, w, h)
    ∧ pose_confidence p = object_confidence o
    ∧ emergency_pose p = Qgtb ratio (15 # 10)
    ∧ pose_type p = (if Qgtb ratio (15 # 10) then "lying_down" else "standing").
Proof.
  revert ps. induction objs as [|o rest IH]; intros ps; simpl.
  - intros [= <-] []%elem_of_nil.
  - destruct (String.eqb_spec (class o) "person") as [Hc|Hc].
    + destruct (object_bbox o) as [[[x y] w] h] eqn:Eb.
      destruct (aspect_ratio w h) as [ratio|] eqn:Er; [|done].
      destruct (pose_loop rest) as [ps'|]; [|done]. simpl.
      intros [= <-] [->|Hin]%elem_of_cons.
      * exists o, x, y, w, h, ratio. simpl. repeat split; try done. left.
      * destruct (IH ps' eq_refl Hin) as (o' & x' & y' & w' & h' & r' & Ho' & H).
        exists o', x', y', w', h', r'. split; [by right | done].
    + intros Hp Hin.
      destruct (IH ps Hp Hin) as (o' & x' & y' & w' & h' & r' & Ho' & H).
      exists o', x', y', w', h', r'. split; [by right | done].
Qed.

Lemma detected_objects_spec frame o :
  o ∈ objects (_detect_objects frame) →
  ∃ c ratio,
    c ∈ contours frame ∧ (1000 < area c)%Q
    ∧ aspect_ratio (rect_w c) (rect_h c) = Some ratio
    ∧ object_bbox o = (rect_x c, rect_y c, rect_w c, rect_h c)
    ∧ object_confidence o = (8 # 10)%Q
    ∧ class o = (if Qgtb ratio (3 # 10) && Qgtb 3 ratio then "person" else "object").
Proof.
  unfold _detect_objects.
  destruct (classify (contours frame)) as [objs|] eqn:E; simpl.
  - by apply classify_spec.
  - intros []%elem_of_nil.
Qed.

Lemma detected_poses_spec frame p :
  p ∈ poses (_detect_poses frame) →
  ∃ c ratio,
    c ∈ contours frame ∧ (1000 < area c)%Q
    ∧ aspect_ratio (rect_w c) (rect_h c) = Some ratio
    ∧ (3 # 10 < ratio)%Q ∧ (ratio < 3)%Q
    ∧ pose_bbox p = (rect_x c, rect_y c, rect_w c, rect_h c)
    ∧ pose_confidence p = (8 # 10)%Q
    ∧ emergency_pose p = Qgtb ratio (15 # 10)
    ∧ pose_type p = (if Qgtb ratio (15 # 10) then "lying_down" else "standing").
Proof.
  unfold _detect_poses.
  destruct (pose_loop (objects (_detect_objects frame))) as [ps|] eqn:E; simpl;
    [|intros []%elem_of_nil].
  intros Hp.
  destruct (pose_loop_spec _ _ _ E Hp)
    as (o & x & y & w & h & ratio & Ho & Hc & Hb & Hr & Hpb & Hpc & He & Ht).
  destruct (detected_objects_spec _ _ Ho) as (c & r' & Hin & Ha & Hr' & Hb' & Hoc & Hcl).
  rewrite Hb in Hb'. injection Hb' as -> -> -> ->.
  rewrite Hr in Hr'. injection Hr' as <-.
  exists c, ratio. rewrite Hc in Hcl.
  destruct (Qgtb ratio (3 # 10)) eqn:E1; [|done].
  destruct (Qgtb 3 ratio) eqn:E2; [|done].
  apply Qgtb_iff in E1, E2.
  repeat split; try done. congruence.
Qed.

Lemma last_hit_spec {A} (hit : A → bool) (text : A → string) l start t :
  (∀ x, x ∈ l → hit x = true → text x = t) →
  last_hit hit text l start = if existsb hit l then Some t else start.
Proof.
  unfold last_hit. revert start. induction l as [|x l IH]; intros start Ht; [done|].
  cbn [foldl existsb]. rewrite IH by (intros; apply Ht; [by right | done]).
  destruct (existsb hit l); [by rewrite orb_true_r|].
  rewrite orb_false_r. destruct (hit x) eqn:E; [|done].
  by rewrite (Ht x) by (done || left).
Qed.

Lemma no_dangerous_object frame o :
  o ∈ objects (_detect_objects frame) → is_dangerous o = false.
Proof.
  intros Ho. destruct (detected_objects_spec _ _ Ho) as (c & r & _ & _ & _ & _ & _ & Hc).
  unfold is_dangerous. rewrite Hc. by destruct (_ && _).
Qed.

Lemma existsb_false {A} (f : A → bool) l :
  (∀ x, x ∈ l → f x = false) → existsb f l = false.
Proof.
  induction l as [|x l IH]; intros H; [done|]. simpl.
  rewrite (H x) by left. apply IH. intros y Hy. apply H. by right.
Qed.

Lemma analyze_frame_emergency violence_enabled anomaly_enabled frame :
  let r := analyze_frame violence_enabled anomaly_enabled frame in
  emergency_detected r
  = violence_detected r || anomaly_detected r
    || existsb emergency_pose (poses_detected r).
Proof.
  unfold analyze_frame.
  cbn [emergency_detected violence_detected anomaly_detected poses_detected].
  rewrite (existsb_false is_dangerous)
    by (intros o Ho; by apply (no_dangerous_object frame)).
  by rewrite orb_false_r.
Qed.

Lemma analyze_frame_description violence_enabled anomaly_enabled frame :
  let r := analyze_frame violence_enabled anomaly_enabled frame in
  description r
  = (if existsb emergency_pose (poses_detected r)
     then Some "Emergency pose detected: lying_down"
     else if violence_detected r then Some "Violence detected in scene"
     else if anomaly_detected r then Some "Anomalous behavior detected"
     else None).
Proof.
  unfold analyze_frame.
  cbn [description violence_detected anomaly_detected poses_detected].
  rewrite (last_hit_spec emergency_pose _ _ _ "Emergency pose detected: lying_down").
  2:{ intros p Hp He.
      destruct (detected_poses_spec _ _ Hp)
        as (c & ratio & _ & _ & _ & _ & _ & _ & _ & He' & Ht).
      rewrite Ht. rewrite <- He', He. done. }
  destruct (existsb emergency_pose _); [done|].
  rewrite (last_hit_spec is_dangerous _ _ _ "").
  2:{ intros o Ho Hd. by rewrite (no_dangerous_object frame) in Hd. }
  rewrite (existsb_false is_dangerous)
    by (intros o Ho; by apply (no_dangerous_object frame)).
  destruct (violence_enabled && detected (_detect_violence frame));
    by destruct (anomaly_enabled && detected (_detect_anomaly frame)).
Qed.

(** X25: what [analyze_frame] reports.  Every detected object is classed
    ["person"] or ["object"], so the check for dangerous objects never
    fires; an emergency is reported exactly for detected violence or
    anomaly (when the detection is enabled) or a person whose bounding box
    is more than 1.5 and less than 3 times as wide as high; the description
    names the last cause found: the lying pose before violence before
    anomaly, and none when there is no emergency. *)
Theorem analyze_frame_report violence_enabled anomaly_enabled frame :
  let r := analyze_frame violence_enabled anomaly_enabled frame in
  let lying := existsb emergency_pose (poses_detected r) in
  (violence_detected r = true
   ↔ violence_enabled = true ∧ (3 # 10 < edge_density frame)%Q)
  ∧ (anomaly_detected r = true
     ↔ anomaly_enabled = true ∧ (1 # 10 < anomaly_score frame)%Q)
  ∧ (∀ o, o ∈ objects_detected r →
          (class o = "person" ∨ class o = "object") ∧ is_dangerous o = false)
  ∧ (∀ p, p ∈ poses_detected r →
          ∃ c ratio,
            c ∈ contours frame ∧ (1000 < area c)%Q
            ∧ aspect_ratio (rect_w c) (rect_h c) = Some ratio
            ∧ (3 # 10 < ratio)%Q ∧ (ratio < 3)%Q
            ∧ (emergency_pose p = true ↔ (15 # 10 < ratio)%Q))
  ∧ emergency_detected r = violence_detected r || anomaly_detected r || lying
  ∧ description r
    = (if lying then Some "Emergency pose detected: lying_down"
       else if violence_detected r then Some "Violence detected in scene"
       else if anomaly_detected r then Some "Anomalous behavior detected"
       else None).
Proof.
  intros r lying.
  assert (Hv : (0 < 3 # 10)%Q) by done. assert (Ha : (0 < 1 # 10)%Q) by done.
  destruct (threshold_detection_spec (edge_density frame) _ Hv) as (Hvd & _ & _).
  destruct (threshold_detection_spec (anomaly_score frame) _ Ha) as (Had & _ & _).
  split; [|split; [|split; [|split; [|split]]]].
  - subst r. unfold analyze_frame. cbn [violence_detected].
    rewrite andb_true_iff. unfold _detect_violence. by rewrite Hvd.
  - subst r. unfold analyze_frame. cbn [anomaly_detected].
    rewrite andb_true_iff. unfold _detect_anomaly. by rewrite Had.
  - intros o Ho. split; [|by apply (no_dangerous_object frame)].
    destruct (detected_objects_spec _ _ Ho) as (c & ratio & _ & _ & _ & _ & _ & Hc).
    rewrite Hc. destruct (_ && _); [by left | by right].
  - intros p Hp.
    destruct (detected_poses_spec _ _ Hp)
      as (c & ratio & Hin & Har & Hr & H1 & H2 & _ & _ & He & _).
    exists c, ratio. repeat split; try done.
    + rewrite He. apply Qgtb_iff.
    + rewrite He. apply Qgtb_iff.
  - apply analyze_frame_emergency.
  - apply analyze_frame_description.
Qed.

End AIExtras.

(** * Properties of the analysis step of the monitoring loop *)

Section MonitoringExtras.

Import AlertService.

Variable settings : Settings.
Variable notification_service : NotificationService.
Variable storage_path : string.

Lemma sum_le_length l :
  (∀ x, x ∈ l → (x <= 1)%Q) →
  (fold_right Qplus 0 l <= inject_Z (Z.of_nat (length l)))%Q.
Proof.
  induction l as [|x l IH]; intros H; [apply Qle_refl|].
  cbn [fold_right length]. rewrite Nat2Z.inj_succ, <- Z.add_1_l, inject_Z_plus.
  apply Qplus_le_compat; [apply H; left | apply IH; intros y Hy; apply H; by right].
Qed.

Lemma mean_or_zero_le_1 l :
  (∀ x, x ∈ l → (x <= 1)%Q) → (AIService.mean_or_zero l <= 1)%Q.
Proof.
  intros H. destruct l as [|x l]; [done|]. unfold AIService.mean_or_zero.
  apply Qle_shift_div_r.
  - cbn [length]. change 0%Q with (inject_Z 0). rewrite <- Zlt_Qlt. lia.
  - rewrite Qmult_1_l. by apply sum_le_length.
Qed.

Lemma analyze_frame_scores_le_1 violence_enabled anomaly_enabled frame c :
  c ∈ (AIService.confidence_scores
         (AIService.analyze_frame violence_enabled anomaly_enabled frame)).*2 →
  (c <= 1)%Q.
Proof.
  unfold AIService.analyze_frame. cbn [AIService.confidence_scores].
  rewrite !fmap_app, !elem_of_app.
  assert (Hobj : (AIService.objects_average_confidence
                    (AIService._detect_objects frame) <= 1)%Q).
  { unfold AIService._detect_objects.
    destruct (AIService.classify (AIService.contours frame)) as [objs|] eqn:E;
      [|done]. cbn [AIService.objects_average_confidence].
    apply mean_or_zero_le_1. intros x (o & -> & Ho)%list_elem_of_fmap.
    destruct (classify_spec _ _ _ E Ho) as (? & ? & _ & _ & _ & _ & -> & _). done. }
  assert (Hpose : (AIService.poses_average_confidence
                     (AIService._detect_poses frame) <= 1)%Q).
  { pose proof (detected_poses_spec frame) as Hspec.
    unfold AIService._detect_poses in *.
    destruct (AIService.pose_loop _) as [ps|]; [|done].
    cbn [AIService.poses_average_confidence AIService.poses] in *.
    apply mean_or_zero_le_1. intros x (p & -> & Hp)%list_elem_of_fmap.
    destruct (Hspec p Hp) as (? & ? & _ & _ & _ & _ & _ & _ & -> & _). done. }
  intros [Hv|[Ha|Hrest]].
  - destruct violence_enabled; [|by apply elem_of_nil in Hv].
    apply list_elem_of_singleton in Hv as ->. by apply detection_confidence_le_1.
  - destruct anomaly_enabled; [|by apply elem_of_nil in Ha].
    apply list_elem_of_singleton in Ha as ->. by apply detection_confidence_le_1.
  - cbn in Hrest. apply elem_of_cons in Hrest as [->|Hrest]; [done|].
    by apply list_elem_of_singleton in Hrest as ->.
Qed.

Lemma analyze_frame_detected_score violence_enabled anomaly_enabled frame :
  let r := AIService.analyze_frame violence_enabled anomaly_enabled frame in
  AIService.violence_detected r = true ∨ AIService.anomaly_detected r = true →
  1%Q ∈ (AIService.confidence_scores r).*2.
Proof.
  unfold AIService.analyze_frame.
  cbn [AIService.confidence_scores AIService.violence_detected
       AIService.anomaly_detected].
  rewrite !fmap_app, !elem_of_app.
  assert (Hv : (0 < 3 # 10)%Q) by done. assert (Ha : (0 < 1 # 10)%Q) by done.
  destruct (threshold_detection_spec (AIService.edge_density frame) _ Hv)
    as (_ & Hvd & _).
  destruct (threshold_detection_spec (AIService.anomaly_score frame) _ Ha)
    as (_ & Had & _).
  intros [[-> Hd]%andb_true_iff|[-> Hd]%andb_true_iff].
  - left. unfold AIService._detect_violence in *. rewrite Hvd by done. left.
  - right. left. unfold AIService._detect_anomaly in *. rewrite Had by done. left.
Qed.

Lemma create_alert_max_score now args s alert an scores x xs :
  (create_alert settings notification_service now args s).1 = Some alert →
  arg_ai_analysis args = Some an →
  confidence_scores an = Some scores →
  snd <$> scores = x :: xs →
  confidence_score alert = Some (max_values x xs).
Proof.
  intros Hc Ha Hs Hx. unfold create_alert in Hc.
  destruct (_is_in_cooldown _ _ _ _); [done|]. simpl in Hc. injection Hc as <-.
  rewrite confidence_send_notifications. simpl.
  unfold score_from_analysis. by rewrite Ha, Hs, Hx.
Qed.

(** X26: when the analysis of a frame detects violence or an anomaly, the
    monitoring step raises an emergency alert of severity critical with id
    1, whose description quotes the analysis (never ["Unknown emergency"])
    and whose confidence score is 1: a detection always reports confidence
    1.0, and no other score of the analysis exceeds 1. *)
Theorem detected_emergency_is_certain
    violence_enabled anomaly_enabled now timestamp camera_id frame payload :
  let analysis := AIService.analyze_frame violence_enabled anomaly_enabled frame in
  AIService.violence_detected analysis = true
  ∨ AIService.anomaly_detected analysis = true →
  ∃ alert text c,
    Monitoring.analyse_and_alert settings notification_service storage_path
      violence_enabled anomaly_enabled now timestamp camera_id frame payload false
    = Some alert
    ∧ id alert = Some 1
    ∧ alert_type alert = "emergency" ∧ severity alert = "critical"
    ∧ AlertService.camera_id alert = Some camera_id
    ∧ AIService.description analysis = Some text
    ∧ description alert = Some ("AI Analysis: " +:+ text)
    ∧ ai_analysis alert = Some payload
    ∧ confidence_score alert = Some c ∧ (c == 1)%Q.
Proof.
  intros analysis Hdet.
  assert (He : AIService.emergency_detected analysis = true).
  { subst analysis. rewrite analyze_frame_emergency.
    destruct Hdet as [-> | ->]; [done | by rewrite orb_true_r]. }
  assert (Hd : is_Some (AIService.description analysis)).
  { subst analysis. rewrite analyze_frame_description.
    destruct (existsb _ _); [done|]. by destruct Hdet as [-> | ->]; [|case_match]. }
  destruct Hd as [text Htext].
  unfold Monitoring.analyse_and_alert. fold analysis. rewrite He.
  unfold CameraService._handle_emergency_event.
  set (args := CameraService.emergency_args _ _ _ _).
  destruct (create_alert_on_new_service settings notification_service now args)
    as [alert Ha].
  destruct (create_alert_fields settings notification_service now args init alert Ha)
    as (Hid & _ & Hty & Hsev & _ & Hdesc & Hcam & _ & _ & _ & Hai).
  assert (Hc : ∃ c, confidence_score alert = Some c
                    ∧ c ∈ (AIService.confidence_scores analysis).*2
                    ∧ ∀ v, v ∈ (AIService.confidence_scores analysis).*2 → (v <= c)%Q).
  { pose proof (analyze_frame_detected_score _ _ _ Hdet) as Hone. fold analysis in Hone.
    destruct (snd <$> AIService.confidence_scores analysis) as [|x xs] eqn:E.
    - by apply elem_of_nil in Hone.
    - exists (max_values x xs). split; [|apply max_values_spec].
      by apply (create_alert_max_score now args init alert
                  (AIService.as_ai_analysis payload analysis)
                  (AIService.confidence_scores analysis)). }
  destruct Hc as (c & Hconf & Hin & Hmax).
  exists alert, text, c. rewrite Ha.
  split; [done|]. split; [exact Hid|]. split; [exact Hty|]. split; [exact Hsev|].
  split; [exact Hcam|]. split; [exact Htext|].
  split.
  { rewrite Hdesc. unfold args, CameraService.emergency_args.
    cbn [arg_description]. by rewrite Htext. }
  split; [exact Hai|]. split; [exact Hconf|].
  apply Qle_antisym.
  - by apply (analyze_frame_scores_le_1 violence_enabled anomaly_enabled frame).
  - apply Hmax. by apply analyze_frame_detected_score.
Qed.

End MonitoringExtras.

(** * Properties of the login and alert routes *)

Section AuthExtras.

Import BiometricService.

Variable Encoding : Type.
Variable face_distance : Encoding → Encoding → Q.
Variable sha256 : string → string.
Variable settings : Settings.
Variable imdecode : string → option (Image Encoding).
Variable minutes : Z.
Variable missing_sample : string.

Abbreviation biometric_login' :=
  (AuthApi.biometric_login face_distance sha256 settings imdecode minutes missing_sample).
Abbreviation register_biometric' :=
  (AuthApi.register_biometric sha256 imdecode missing_sample).


(** X27: neither login route ever answers 401 or 400.  [login] answers
    with the token for the one accepted pair of credentials and with a 500
    for every other; [biometric_login] answers with a token exactly when
    the authentication result is a success, and with the same 500 for a
    failed authentication, a missing sample and an unknown method alike. *)
Theorem login_failures_are_500 username password method uid uploads
    (svc : BiometricService.State Encoding) :
  let token text := BiometricApi.Body (AuthApi.mkTokenResponse text "bearer" (minutes * 60)) in
  (username = "admin" ∧ password = "password" →
   AuthApi.login minutes username password = token "simulated_jwt_token")
  ∧ (¬ (username = "admin" ∧ password = "password") →
     AuthApi.login minutes username password
     = BiometricApi.HTTPException 500 "Login failed")
  ∧ (∀ user err,
       AuthApi.auth_result face_distance sha256 settings imdecode missing_sample
         method uid uploads svc = Some (true, user, err) →
       biometric_login' method uid uploads svc
       = token ("biometric_token_" +:+ str_int user))
  ∧ (∀ text, biometric_login' method uid uploads svc = token text →
       ∃ user err,
         AuthApi.auth_result face_distance sha256 settings imdecode missing_sample
           method uid uploads svc = Some (true, user, err))
  ∧ (∀ code detail,
       biometric_login' method uid uploads svc = BiometricApi.HTTPException code detail →
       code = 500%nat ∧ detail = "Biometric authentication failed")
  ∧ (method ∉ ["multi_modal"; "face"; "fingerprint"; "iris"] →
     biometric_login' method uid uploads svc
     = BiometricApi.HTTPException 500 "Biometric authentication failed").
Proof.
  intros token. split; [|split; [|split; [|split; [|split]]]].
  - intros [-> ->]. done.
  - intros Hne. unfold AuthApi.login.
    destruct (String.eqb_spec username "admin") as [->|?];
      destruct (String.eqb_spec password "password") as [->|?]; simpl; try done.
    by destruct Hne.
  - intros user err H. unfold AuthApi.biometric_login. by rewrite H.
  - intros text. unfold AuthApi.biometric_login.
    destruct (AuthApi.auth_result _ _ _ _ _ _ _ _ _) as [[[[] user] err]|]; simpl;
      try done. intros _. by exists user, err.
  - intros code detail. unfold AuthApi.biometric_login.
    destruct (AuthApi.auth_result _ _ _ _ _ _ _ _ _) as [[[[] user] err]|]; simpl;
      try done; by intros [= <- <-].
  - intros Hm. unfold AuthApi.biometric_login, AuthApi.auth_result.
    destruct (String.eqb_spec method "multi_modal") as [->|_];
      [exfalso; apply Hm; set_solver|].
    destruct (String.eqb_spec method "face") as [->|_];
      [exfalso; apply Hm; set_solver|].
    destruct (String.eqb_spec method "fingerprint") as [->|_];
      [exfalso; apply Hm; set_solver|].
    destruct (String.eqb_spec method "iris") as [->|_];
      [exfalso; apply Hm; set_solver|].
    done.
Qed.


(** X29: [register_biometric] enrols a face without any liveness check:
    for an upload that decodes to an image with one face which the
    liveness detection rejects, it stores the face for the user, where the
    face registration route of the biometric API answers with the liveness
    failure and stores nothing. *)
Theorem register_biometric_skips_liveness uid f image e rest current_user
    (svc : BiometricService.State Encoding) :
  BiometricApi.forbidden current_user uid = false →
  BiometricApi.is_image f = true →
  imdecode (BiometricApi.file_bytes f) = Some image →
  face_locations image = 1%nat →
  face_encodings image = e :: rest →
  is_live (detect_liveness image) = false →
  let r := register_biometric' "face" uid (AuthApi.mkUploads (Some f) None None)
             current_user svc in
  (∃ result, r.1 = BiometricApi.Body result ∧ reg_success result = true)
  ∧ dict_get uid (face_encodings_cache r.2) = Some e
  ∧ BiometricApi.register_face imdecode uid f current_user svc
    = (BiometricApi.Body BiometricApi.registration_liveness_failure, svc).
Proof.
  intros Hf Hi Hd Hl He Hlive r.
  assert (Hreg : register_face uid image svc
                 = (mkRegistrationResult true None None (Some 1%Q) None,
                    mkState (dict_set uid e (face_encodings_cache svc))
                      (fingerprint_templates_cache svc) (iris_templates_cache svc))).
  { unfold register_face. by rewrite Hl, He. }
  subst r. unfold AuthApi.register_biometric. rewrite Hf.
  cbn [String.eqb Ascii.eqb Bool.eqb andb AuthApi.face_image].
  rewrite bool_decide_eq_true_2 by done.
  unfold AuthApi.decoded. cbn [mbind option_bind AuthApi.face_image]. rewrite Hd, Hreg.
  cbn. split; [by eexists|]. split.
  - apply dict_get_set_eq.
  - unfold BiometricApi.register_face. by rewrite Hf, Hi, Hd, Hlive.
Qed.

End AuthExtras.

Section AlertsApiExtras.

Import AlertService.

(** X30: the acknowledge and resolve routes answer 200 exactly when the
    alert service they are handed stores the alert, and 500, never 404,
    when it does not; as each request is handed an alert service
    constructed for it, which stores nothing, both routes answer 500 for
    every alert id and change nothing that a later request could see. *)
Theorem lifecycle_routes_always_fail now alert_id user_id :
  (∀ svc,
     (is_Some (active_alerts svc !! alert_id) →
      (AlertsApi.acknowledge_alert now alert_id user_id svc).1
      = BiometricApi.Body "Alert acknowledged successfully"
      ∧ (AlertsApi.resolve_alert now alert_id user_id svc).1
        = BiometricApi.Body "Alert resolved successfully")
     ∧ (active_alerts svc !! alert_id = None →
        AlertsApi.acknowledge_alert now alert_id user_id svc
        = (BiometricApi.HTTPException 500 "Failed to acknowledge alert", svc)
        ∧ AlertsApi.resolve_alert now alert_id user_id svc
          = (BiometricApi.HTTPException 500 "Failed to resolve alert", svc)))
  ∧ AlertsApi.Depends_AlertService (AlertsApi.acknowledge_alert now alert_id user_id)
    = (BiometricApi.HTTPException 500 "Failed to acknowledge alert", init)
  ∧ AlertsApi.Depends_AlertService (AlertsApi.resolve_alert now alert_id user_id)
    = (BiometricApi.HTTPException 500 "Failed to resolve alert", init).
Proof.
  assert (Hnone : ∀ svc, active_alerts svc !! alert_id = None →
            AlertsApi.acknowledge_alert now alert_id user_id svc
            = (BiometricApi.HTTPException 500 "Failed to acknowledge alert", svc)
            ∧ AlertsApi.resolve_alert now alert_id user_id svc
              = (BiometricApi.HTTPException 500 "Failed to resolve alert", svc)).
  { intros svc H.
    unfold AlertsApi.acknowledge_alert, AlertsApi.resolve_alert, acknowledge_alert,
      resolve_alert. by rewrite H. }
  split; [|split; apply Hnone; apply lookup_empty].
  intros svc. split; [|apply Hnone].
  intros [a Ha].
  unfold AlertsApi.acknowledge_alert, AlertsApi.resolve_alert, acknowledge_alert,
    resolve_alert. rewrite Ha.
  split;
    [destruct (String.eqb (status a) "acknowledged")
    |destruct (String.eqb (status a) "resolved")]; done.
Qed.

End AlertsApiExtras.

(** * The properties at work on the concrete runs *)

Section Runs.

Import AlertService AlertQueries AlertScenario ServiceScenario.

(** An update that tries to write the id and the status of alert 1 is
    answered [True]; the status is written, the id is not. *)
Lemma update_alert_protected_witness :
  ∃ a',
    update_alert (seconds 30) 1 [("id", "9"); ("status", "resolved")] s_created
    = (true, mkState (alert_cooldowns s_created) (<[1 := a']> (active_alerts s_created)))
    ∧ same_protected lobby_alert a'
    ∧ updated_at a' = seconds 30.
Proof.
  destruct (update_alert_protected (seconds 30) 1 [("id", "9"); ("status", "resolved")]
              s_created lobby_alert) as (a' & H1 & H2 & H3 & _); [reflexivity|].
  exists a'. split; [exact H1|]. split; [exact H2 | exact H3].
Defined.

(** With two active alerts and a limit of 50, the listing filtered by
    severity medium contains alert 1. *)
Lemma get_active_alerts_complete_witness :
  lobby_alert ∈ get_active_alerts (Some "medium") None None 50 s_two.
Proof.
  apply (get_active_alerts_complete (Some "medium") None None 50 s_two 1 lobby_alert).
  - vm_compute. reflexivity.
  - reflexivity.
  - split; [reflexivity|]. split; [|split].
    + intros v [= <-]. reflexivity.
    + intros v [=].
    + intros c [=].
Defined.

(** An alert created with the scores 0.3 and 0.8. *)
Lemma create_alert_confidence_score_witness :
  ∃ c, confidence_score scored_alert = Some c
       ∧ c ∈ [3 # 10; 8 # 10]%Q ∧ ∀ v, v ∈ [3 # 10; 8 # 10]%Q → (v <= c)%Q.
Proof.
  destruct (create_alert_confidence_score default_settings transports 0
              emergency_scored init scored_alert two_scores
              [("violence", 3 # 10); ("objects", 8 # 10)]%Q)
    as (c & Hc & _ & Hmax); [reflexivity | reflexivity | reflexivity |].
  exists c. split; [exact Hc|]. apply Hmax. discriminate.
Defined.

(** Motion on camera 5 with no location, then with the location text
    ["None"] 30 seconds later: the second is suppressed. *)
Lemma absent_location_shares_key_witness :
  create_alert default_settings transports (seconds 30) motion_at_None
    (create 0 motion_nowhere init).2
  = (None, (create 0 motion_nowhere init).2).
Proof.
  apply (absent_location_shares_key default_settings transports 0 (seconds 30)
           motion_nowhere motion_at_None init).
  - reflexivity.
  - reflexivity.
  - left. split; reflexivity.
  - reflexivity.
  - vm_compute. reflexivity.
Defined.

(** Create, acknowledge, resolve, update the severity, clean up. *)
Lemma status_is_stamped_witness :
  all_stamped (calls default_settings transports life init).
Proof.
  apply (status_is_stamped default_settings transports life). reflexivity.
Defined.

(** The monitoring step on a frame full of edges. *)
Lemma detected_emergency_is_certain_witness :
  ∃ alert c,
    Monitoring.analyse_and_alert default_settings transports "/data" true true
      0 "20240101_000000" 5 brawl "{}" false = Some alert
    ∧ severity alert = "critical"
    ∧ description alert = Some "AI Analysis: Violence detected in scene"
    ∧ confidence_score alert = Some c ∧ (c == 1)%Q.
Proof.
  destruct (detected_emergency_is_certain default_settings transports "/data" true true
              0 "20240101_000000" 5 brawl "{}")
    as (alert & text & c & H1 & _ & _ & H4 & _ & H6 & H7 & _ & H9 & H10);
    [left; reflexivity|].
  exists alert, c. split; [exact H1|]. split; [exact H4|].
  split; [|split; [exact H9 | exact H10]].
  rewrite H7. vm_compute in H6. by injection H6 as <-.
Defined.

End Runs.

Section BiometricRunsMore.

Import BiometricService BiometricScenario ServiceScenario.

(** User 2 named, user 2's thumb enrolled, another thumb presented. *)
Lemma named_user_is_verified_witness :
  let r := auth_fingerprint "thumb-1" (Some 2) enrolled in
  (success r = true ↔ digest "thumb-1" = digest "thumb-2")
  ∧ user_id r = (if success r then Some 2 else None)
  ∧ confidence r = Some (if success r then 1%Q else 0%Q).
Proof.
  destruct (named_user_is_verified Q face_distance digest default_settings 2 enrolled)
    as (Hp & _ & _); [discriminate|].
  apply (Hp (digest "thumb-2") "thumb-1"). reflexivity.
Defined.

(** User 1 enrols a thumb and presents it again. *)
Lemma register_then_authenticate_witness :
  auth_fingerprint "thumb-1" (Some 1) (register_fingerprint digest 1 "thumb-1" enrolled).2
  = mkAuthResult true (Some 1) (Some 1%Q) None (Some "fingerprint") None.
Proof.
  destruct (register_then_authenticate Q digest 1 enrolled) as [Hp _]; [discriminate|].
  exact (proj1 (Hp "thumb-1")).
Defined.

(** User 2's thumb presented without a name. *)
Lemma search_finds_first_match_witness :
  success (auth_fingerprint "thumb-2" None enrolled) = true
  ↔ ∃ v, (v, digest "thumb-2") ∈ fingerprint_templates_cache enrolled.
Proof.
  destruct (search_finds_first_match Q digest enrolled None) as [Hp _]; [by left|].
  exact (proj1 (Hp "thumb-2")).
Defined.


(** A face alone, which succeeds with confidence 0.9. *)
Lemma one_failed_modality_fails_fusion_witness :
  let run := supplied (Some (auth_face face_near_1 None enrolled)) None None in
  count_success run = length run ∧ (0 < length run)%nat.
Proof.
  apply (one_failed_modality_fails_fusion Q face_distance digest default_settings
           (Some face_near_1) None None None enrolled).
  - intros a b. apply Qabs_nonneg.
  - reflexivity.
Defined.

(** User 2, enrolled in all three modalities, presents all three. *)
Lemma named_and_enrolled_never_mismatch_witness :
  let r := multi_modal (Some face_near_1) (Some "thumb-2") (Some printed_iris) (Some 2)
             enrolled in
  r ≠ mismatch ∧ (fused_user_id r = None ∨ fused_user_id r = Some 2).
Proof.
  apply (named_and_enrolled_never_mismatch Q face_distance digest default_settings
           (Some face_near_1) (Some "thumb-2") (Some printed_iris) 2 enrolled).
  - discriminate.
  - intros _. eexists. reflexivity.
  - intros _. eexists. reflexivity.
  - intros _. eexists. reflexivity.
Defined.

(** An upload declared as an image that does not decode. *)
Lemma multi_modal_drops_undecodable_witness :
  BiometricApi.authenticate_multi_modal face_distance digest default_settings decode
    (Some broken_upload) (Some thumb_upload) None None enrolled
  = BiometricApi.authenticate_multi_modal face_distance digest default_settings decode
      None (Some thumb_upload) None None enrolled
  ∧ BiometricApi.authenticate_face face_distance default_settings decode broken_upload
      None enrolled
    = BiometricApi.HTTPException 500 "Face authentication failed".
Proof.
  destruct (multi_modal_drops_undecodable Q face_distance digest default_settings decode
              broken_upload (Some thumb_upload) None None None enrolled)
    as (H1 & _ & H3 & _); [reflexivity | reflexivity |].
  split; [exact H1 | exact H3].
Defined.


(** The blurred reproduction of a face, sent to either registration route
    by an administrator for user 3. *)
Lemma register_biometric_skips_liveness_witness :
  dict_get 3
    (face_encodings_cache
       (AuthApi.register_biometric digest decode "no sample" "face" 3
          (only_face face_upload) admin enrolled).2)
  = Some (1 # 10)%Q
  ∧ BiometricApi.register_face decode 3 face_upload admin enrolled
    = (BiometricApi.Body BiometricApi.registration_liveness_failure, enrolled).
Proof.
  destruct (register_biometric_skips_liveness Q digest decode "no sample" 3 face_upload
              printed_face (1 # 10)%Q [] admin enrolled)
    as (_ & H2 & H3);
    [reflexivity | reflexivity | reflexivity | reflexivity | reflexivity | reflexivity |].
  split; [exact H2 | exact H3].
Defined.

End BiometricRunsMore.
